(** * UserStore: the user session and profile cache store

    A shallow embedding of the [UserStore] class and its private helpers
    (the second module of [src/scripts/watchFileChanges.js]) together with
    the properties of the session state machine, the hook dispatch and the
    profile cache.

    The store is JavaScript running on one thread.  Its objects live in a
    heap and are shared by reference: the object cached in [usersMap] is the
    very object the backend delivered, and [_savePublicUserInfo] and
    [_updateUser] mutate it in place.  The embedding keeps that heap
    explicit.  Every function of the store is a computation in a state and
    exception monad over the record [state]; calls that leave the store
    (to [userDb], to [console.log], to callbacks registered by the
    application) are appended to a trace.

    The MobX decorators are transparent here: [usersMap] is a [Map] whose
    [entries()] is the array of its entries in insertion order, and the
    objects it holds are the objects that were put in.  The collaborator
    [userDb] is outside the module: the store's calls to it are recorded,
    and what it calls back with is an input. *)

From Stdlib Require Import ZArith String Ascii List Bool Lia.
From stdpp Require Import base option gmap strings list.
Import ListNotations.

Open Scope string_scope.
Open Scope list_scope.

(** ** JavaScript values *)

Definition loc := positive.

(** Function values.  [F_updateUser] is the module-private [_updateUser];
    any other function is known by a number. *)
Inductive func :=
| F_updateUser
| F_other (n : nat).

(** Numbers are integers here: the store does no arithmetic, and neither
    [NaN] nor fractions occur in the properties below. *)
Inductive value :=
| VUndefined
| VNull
| VBool (b : bool)
| VNum (n : Z)
| VStr (s : string)
| VFun (f : func)
| VRef (l : loc).

#[global] Instance func_eq_dec : EqDecision func.
Proof. solve_decision. Defined.

#[global] Instance value_eq_dec : EqDecision value.
Proof. solve_decision. Defined.

(** [ToBoolean]. *)
Definition truthy (v : value) : bool :=
  match v with
  | VUndefined | VNull => false
  | VBool b => b
  | VNum n => negb (n =? 0)%Z
  | VStr s => negb (String.eqb s "")
  | VFun _ | VRef _ => true
  end.

Definition falsy (v : value) : bool := negb (truthy v).

(** [typeof v === "string"]. *)
Definition is_string (v : value) : bool :=
  match v with VStr _ => true | _ => false end.

(** ** Strings: [toUpperCase] and [includes]

    [String.prototype.toUpperCase] belongs to the JavaScript engine, not to
    this module: it applies the Unicode case mapping, which may even change
    the length of a string.  The store is modelled for any such function;
    what the engine does on strings of ASCII characters is [ascii_toUpperCase]
    below. *)

Class CaseMapping := toUpperCase : string -> string.

(** [starts_with q s]: [q] is a prefix of [s]. *)
Fixpoint starts_with (q s : string) : bool :=
  match q, s with
  | EmptyString, _ => true
  | String _ _, EmptyString => false
  | String a q', String b s' => Ascii.eqb a b && starts_with q' s'
  end.

(** [s.includes(q)]: [q] occurs in [s] at some position. *)
Fixpoint includes (s q : string) : bool :=
  starts_with q s ||
  match s with
  | EmptyString => false
  | String _ s' => includes s' q
  end.

(** ** Objects and the heap *)

Abbreviation object := (gmap string value).
Abbreviation heap_t := (gmap loc (gmap string value)).

(** The object at [l]; a location that was never allocated reads as the
    empty object. *)
Definition obj_at (h : heap_t) (l : loc) : object := default ∅ (h !! l).

(** [o[k]] for an own property, [undefined] when [o] has none. *)
Definition field (o : object) (k : string) : value := default VUndefined (o !! k).

(** ** The trace of calls leaving the store *)

(** Calls to the backend collaborator [userDb]. *)
Inductive db_call :=
| ListenToCurrentUser
| ListenToUser (userId : value)
| Login (user : value) (callback : nat)
| Logout (user : value)
| CreateUser (user : value) (callback : nat)
| SaveToUsersCollection (uid : value) (data : value)
| SendPasswordResetEmail (email : value).

(** A backend call is recorded with the heap as it is when the call is
    made: what the backend reads through the references it is handed. *)
Inductive effect :=
| Db (c : db_call) (h : heap_t)
| Invoke (callback : nat) (args : list value)
| ConsoleLog (v : value)
| Debugger.

(** ** The store *)

(** [userId], [usersMap], [privateInfo] and [serverInfo] are the observable
    fields of the [UserStore] singleton; [_onLoginTriggers] and
    [_onLogoutTriggers] the module-level arrays.  [usersMap] is a [Map]: it
    is kept in insertion order.  Only [_savePublicUserInfo] writes to it and
    only with an object, so its values are locations. *)
Record state := State {
  userId : value;
  usersMap : list (value * loc);
  privateInfo : value;
  serverInfo : value;
  _onLoginTriggers : list nat;
  _onLogoutTriggers : list nat;
  heap : heap_t;
  trace : list effect
}.

(** The store as the module leaves it after loading. *)
Definition initial : state :=
  {| userId := VNull; usersMap := []; privateInfo := VNull; serverInfo := VNull;
     _onLoginTriggers := []; _onLogoutTriggers := [];
     heap := ∅; trace := [] |}.

Definition set_userId (v : value) (st : state) : state :=
  {| userId := v; usersMap := usersMap st; privateInfo := privateInfo st;
     serverInfo := serverInfo st; _onLoginTriggers := _onLoginTriggers st;
     _onLogoutTriggers := _onLogoutTriggers st; heap := heap st; trace := trace st |}.

Definition set_usersMap (m : list (value * loc)) (st : state) : state :=
  {| userId := userId st; usersMap := m; privateInfo := privateInfo st;
     serverInfo := serverInfo st; _onLoginTriggers := _onLoginTriggers st;
     _onLogoutTriggers := _onLogoutTriggers st; heap := heap st; trace := trace st |}.

Definition set_privateInfo (v : value) (st : state) : state :=
  {| userId := userId st; usersMap := usersMap st; privateInfo := v;
     serverInfo := serverInfo st; _onLoginTriggers := _onLoginTriggers st;
     _onLogoutTriggers := _onLogoutTriggers st; heap := heap st; trace := trace st |}.

Definition set_serverInfo (v : value) (st : state) : state :=
  {| userId := userId st; usersMap := usersMap st; privateInfo := privateInfo st;
     serverInfo := v; _onLoginTriggers := _onLoginTriggers st;
     _onLogoutTriggers := _onLogoutTriggers st; heap := heap st; trace := trace st |}.

Definition set_onLoginTriggers (l : list nat) (st : state) : state :=
  {| userId := userId st; usersMap := usersMap st; privateInfo := privateInfo st;
     serverInfo := serverInfo st; _onLoginTriggers := l;
     _onLogoutTriggers := _onLogoutTriggers st; heap := heap st; trace := trace st |}.

Definition set_onLogoutTriggers (l : list nat) (st : state) : state :=
  {| userId := userId st; usersMap := usersMap st; privateInfo := privateInfo st;
     serverInfo := serverInfo st; _onLoginTriggers := _onLoginTriggers st;
     _onLogoutTriggers := l; heap := heap st; trace := trace st |}.

Definition set_heap (h : heap_t) (st : state) : state :=
  {| userId := userId st; usersMap := usersMap st; privateInfo := privateInfo st;
     serverInfo := serverInfo st; _onLoginTriggers := _onLoginTriggers st;
     _onLogoutTriggers := _onLogoutTriggers st; heap := h; trace := trace st |}.

Definition emit (e : effect) (st : state) : state :=
  {| userId := userId st; usersMap := usersMap st; privateInfo := privateInfo st;
     serverInfo := serverInfo st; _onLoginTriggers := _onLoginTriggers st;
     _onLogoutTriggers := _onLogoutTriggers st; heap := heap st;
     trace := trace st ++ [e] |}.

(** ** [Map.get] and [Map.set] on the insertion-ordered [usersMap] *)

Fixpoint map_get (k : value) (m : list (value * loc)) : option loc :=
  match m with
  | [] => None
  | (k', l) :: m' => if decide (k' = k) then Some l else map_get k m'
  end.

(** [set] keeps the position of a key that is already present and appends
    a new one. *)
Fixpoint map_set (k : value) (l : loc) (m : list (value * loc)) : list (value * loc) :=
  match m with
  | [] => [(k, l)]
  | (k', l') :: m' =>
      if decide (k' = k) then (k, l) :: m' else (k', l') :: map_set k l m'
  end.

(** [usersMap.get(k)] as a JavaScript value. *)
Definition usersMap_get (k : value) (m : list (value * loc)) : value :=
  match map_get k m with
  | Some l => VRef l
  | None => VUndefined
  end.

(** ** The monad: state and exceptions *)

Inductive result (A : Type) :=
| Ok (a : A)
| Thrown (e : value).
Arguments Ok {A} a.
Arguments Thrown {A} e.

Definition M (A : Type) : Type := state -> result A * state.

Definition ret {A} (a : A) : M A := fun st => (Ok a, st).

Definition bind {A B} (m : M A) (f : A -> M B) : M B := fun st =>
  match m st with
  | (Ok a, st') => f a st'
  | (Thrown e, st') => (Thrown e, st')
  end.

Definition throw {A} (e : value) : M A := fun st => (Thrown e, st).

(** [try { m } catch (err) { h err }]. *)
Definition try_catch (m : M unit) (h : value -> M unit) : M unit := fun st =>
  match m st with
  | (Ok a, st') => (Ok a, st')
  | (Thrown e, st') => h e st'
  end.

Definition get : M state := fun st => (Ok st, st).
Definition modify (f : state -> state) : M unit := fun st => (Ok tt, f st).

Declare Scope js_scope.
Delimit Scope js_scope with js.
Notation "x <- c1 ;; c2" := (bind c1 (fun x => c2))
  (at level 100, c1 at next level, right associativity) : js_scope.
Notation "c1 ;; c2" := (bind c1 (fun _ => c2))
  (at level 100, right associativity) : js_scope.
Open Scope js_scope.

(** The error a failed property access throws. *)
Definition TypeError : value := VStr "TypeError".

(** [v[k]].  A primitive has none of the properties the store reads
    ([email], [password], [id], [publicInfo], [privateInfo], [serverInfo],
    [isOnline]), so reading it there gives [undefined]; [null] and
    [undefined] throw. *)
Definition get_prop (v : value) (k : string) : M value := fun st =>
  match v with
  | VRef l => (Ok (field (obj_at (heap st) l) k), st)
  | VUndefined | VNull => (Thrown TypeError, st)
  | _ => (Ok VUndefined, st)
  end.

(** [v[k] = x].  The module is an ES module, hence strict: assigning to a
    property of a primitive throws. *)
Definition set_prop (v : value) (k : string) (x : value) : M unit := fun st =>
  match v with
  | VRef l => (Ok tt, set_heap (<[l := <[k := x]> (obj_at (heap st) l)]> (heap st)) st)
  | _ => (Thrown TypeError, st)
  end.

(** [delete v[k]]. *)
Definition delete_prop (v : value) (k : string) : M unit := fun st =>
  match v with
  | VRef l => (Ok tt, set_heap (<[l := delete k (obj_at (heap st) l)]> (heap st)) st)
  | VUndefined | VNull => (Thrown TypeError, st)
  | _ => (Ok tt, st)
  end.

(** An object literal: a new object at a location not yet in use. *)
Definition alloc (o : object) : M value := fun st =>
  let l := fresh (dom (heap st)) in
  (Ok (VRef l), set_heap (<[l := o]> (heap st)) st).

(** A call to [userDb], recorded with the heap at the time of the call. *)
Definition db (c : db_call) : M unit := fun st => (Ok tt, emit (Db c (heap st)) st).

Definition console_log (v : value) : M unit := modify (emit (ConsoleLog v)).
Definition debugger : M unit := modify (emit Debugger).

Fixpoint forEach {A} (f : A -> M unit) (l : list A) : M unit :=
  match l with
  | [] => ret tt
  | x :: l' => f x ;; forEach f l'
  end.

(** ** Callbacks registered by the application

    A callback is known by a number.  What it does when called is given by
    [run_callback]: from its arguments and the whole state at the time of
    the call (heap and trace so far included) it either returns a value or
    throws one.  A callback does not write to the store while it runs. *)

Inductive outcome :=
| Returns (v : value)
| Raises (e : value).

Section UserStore.

Variable run_callback : nat -> list value -> state -> outcome.
Context {case_mapping : CaseMapping}.

(** [callback(args)]. *)
Definition call (callback : nat) (args : list value) : M value := fun st =>
  match run_callback callback args st with
  | Returns v => (Ok v, emit (Invoke callback args) st)
  | Raises e => (Thrown e, emit (Invoke callback args) st)
  end.

(** *** Private members *)

Definition _savePublicUserInfo (userId : value) (user : value) : M unit :=
  if falsy user then ret tt
  else
    email <- get_prop user "email" ;;
    set_prop user "displayName" email ;;
    set_prop user "save" (VFun F_updateUser) ;;
    set_prop user "id" userId ;;
    match user with
    | VRef l => modify (fun st => set_usersMap (map_set userId l (usersMap st)) st)
    | _ => throw TypeError (* not reached: the assignments above have thrown *)
    end.

(** [_updateUser], called as a method: [this] is the profile. *)
Definition _updateUser (this : value) : M unit :=
  let user := this in
  uid <- get_prop user "id" ;;
  delete_prop user "save" ;;
  delete_prop user "id" ;;
  delete_prop user "displayName" ;;
  data <- alloc (list_to_map [("publicInfo", user)]) ;;
  db (SaveToUsersCollection uid data) ;;
  _savePublicUserInfo uid user.

(** [profile.save()]: look the method up on the object and call it with the
    object as [this]. *)
Definition save (profile : value) : M unit :=
  f <- get_prop profile "save" ;;
  match f with
  | VFun F_updateUser => _updateUser profile
  | _ => throw TypeError
  end.

(** The function [_listenToPublicUserData] hands to [userDb.listenToUser]. *)
Definition _listenToPublicUserData_cb (userId : value) (err user : value) : M unit :=
  _savePublicUserInfo userId user.

Definition _listenToPublicUserData (userId : value) : M unit :=
  db (ListenToUser userId).

Definition _saveCurrentUserLocally (userDataByPrivacy : value) : M unit :=
  id <- get_prop userDataByPrivacy "id" ;;
  publicInfo <- get_prop userDataByPrivacy "publicInfo" ;;
  privateInfo <- get_prop userDataByPrivacy "privateInfo" ;;
  serverInfo <- get_prop userDataByPrivacy "serverInfo" ;;
  (if truthy publicInfo then
     _savePublicUserInfo id publicInfo ;;
     isOnline <- (if truthy publicInfo then get_prop publicInfo "isOnline"
                  else ret publicInfo) ;;
     if truthy isOnline then modify (set_userId id) else ret tt
   else ret tt) ;;
  (if truthy privateInfo then modify (set_privateInfo privateInfo) else ret tt) ;;
  (if truthy serverInfo then modify (set_serverInfo serverInfo) else ret tt).

Definition _handleUserEstablished (user : value) : M unit :=
  try_catch
    (st <- get ;; forEach (fun event => call event [user] ;; ret tt) (_onLoginTriggers st))
    (fun err => console_log err).

(** The getter [user]: the current user's public info. *)
Definition user (st : state) : value := usersMap_get (userId st) (usersMap st).

(** The getter [fullUser]: a new object with the four slices. *)
Definition fullUser : M value :=
  st <- get ;;
  alloc (list_to_map [("id", userId st); ("public", user st);
                      ("private", privateInfo st); ("server", serverInfo st)]).

Definition _handleUserLogout : M unit :=
  user <- fullUser ;;
  try_catch
    (st <- get ;; forEach (fun event => call event [user] ;; ret tt) (_onLogoutTriggers st))
    (fun err => debugger).

(** The function [_listenToCurrentUser] hands to
    [userDb.listenToCurrentUser]. *)
Definition _listenToCurrentUser_cb (err userData : value) : M unit :=
  if truthy err then debugger
  else if falsy userData then
    st <- get ;;
    (if truthy (userId st) then _handleUserLogout else ret tt) ;;
    modify (set_userId VNull)
  else
    st <- get ;;
    shouldExecEstablished <-
      (if falsy (user st) then get_prop userData "publicInfo" else ret (VBool false)) ;;
    _saveCurrentUserLocally userData ;;
    if truthy shouldExecEstablished then
      publicInfo <- get_prop userData "publicInfo" ;;
      id <- get_prop publicInfo "id" ;;
      publicInfo <- get_prop userData "publicInfo" ;;
      arg <- alloc (list_to_map [("id", id); ("publicInfo", publicInfo)]) ;;
      _handleUserEstablished arg
    else ret tt.

Definition _listenToCurrentUser : M unit := db ListenToCurrentUser.

(** *** The class [UserStore] *)

Definition init : M unit := _listenToCurrentUser.

Definition onLogin (callback : nat) : M unit :=
  modify (fun st => set_onLoginTriggers (_onLoginTriggers st ++ [callback]) st).

Definition onLogout (callback : nat) : M unit :=
  modify (fun st => set_onLogoutTriggers (_onLogoutTriggers st ++ [callback]) st).

Definition getUserById (userId : value) : M value :=
  st <- get ;;
  let user := usersMap_get userId (usersMap st) in
  (if falsy user then _listenToPublicUserData userId else ret tt) ;;
  ret user.

Definition login (user : value) (callback : nat) : M unit :=
  db (Login user callback).

Definition logout : M unit :=
  st <- get ;;
  db (Logout (user st)) ;;
  modify (set_userId VNull).

(** The function [createUser] hands to [userDb.createUser]. *)
Definition createUser_cb (callback : nat) (err userDataByPrivacy : value) : M value :=
  if truthy err then call callback [err]
  else
    _saveCurrentUserLocally userDataByPrivacy ;;
    call callback [err; userDataByPrivacy] ;;
    ret VUndefined.

Definition createUser (user : value) (callback : nat) : M value :=
  invalid <- (if falsy user then ret true
              else
                email <- get_prop user "email" ;;
                if falsy email then ret true
                else
                  password <- get_prop user "password" ;;
                  ret (falsy password)) ;;
  if invalid : bool then
    err <- alloc (list_to_map [("message", VStr "You must provide an email and password")]) ;;
    call callback [err]
  else
    db (CreateUser user callback) ;;
    ret VUndefined.

(** [v.toUpperCase()]: only a string has the method. *)
Definition method_toUpperCase (v : value) : M string :=
  match v with
  | VStr s => ret (toUpperCase s)
  | _ => throw TypeError
  end.

(** The body of the [forEach] over [usersMap.entries()], with the array
    [results] it pushes to passed along. *)
Fixpoint search_entries (field_name : string) (query : value)
    (entries : list (value * loc)) (results : list value) : M (list value) :=
  match entries with
  | [] => ret results
  | (uid, l) :: entries' =>
      let user := VRef l in
      hit <- (if truthy user then
                v <- get_prop user field_name ;;
                if is_string v then
                  v <- get_prop user field_name ;;
                  s <- method_toUpperCase v ;;
                  q <- method_toUpperCase query ;;
                  ret (includes s q)
                else ret false
              else ret false) ;;
      search_entries field_name query entries'
        (if hit : bool then results ++ [user] else results)
  end.

Definition searchFromLocalUsersByField (field_name : string) (query : value)
    : M (list value) :=
  st <- get ;;
  search_entries field_name query (usersMap st) [].

(** The promise [userDb.sendPasswordResetEmail] returns is not part of the
    model; the call is. *)
Definition sendPasswordResetEmail (email : value) : M unit :=
  db (SendPasswordResetEmail email).

(** The application registering its hooks, [onLogin] ones first. *)
Definition register_hooks (on_login on_logout : list nat) : M unit :=
  forEach onLogin on_login ;;
  forEach onLogout on_logout.

(** *** What the backend delivers

    The backend builds a new object for every delivery.  On the
    current-user feed it reports an error, the absence of a session
    ([null]) or the session's data by privacy tier, with the user's [id]. *)

Record user_data := UserData {
  ud_id : string;
  ud_publicInfo : option object;
  ud_privateInfo : option object;
  ud_serverInfo : option object
}.

Inductive feed_event :=
| FeedError (err : object)
| FeedAbsent
| FeedData (d : user_data).

Definition alloc_opt (o : option object) : M value :=
  match o with
  | Some o => alloc o
  | None => ret VUndefined
  end.

Definition deliver (e : feed_event) : M unit :=
  match e with
  | FeedError err =>
      err <- alloc err ;;
      _listenToCurrentUser_cb err VUndefined
  | FeedAbsent => _listenToCurrentUser_cb VNull VNull
  | FeedData d =>
      publicInfo <- alloc_opt (ud_publicInfo d) ;;
      privateInfo <- alloc_opt (ud_privateInfo d) ;;
      serverInfo <- alloc_opt (ud_serverInfo d) ;;
      userData <- alloc (list_to_map [("id", VStr (ud_id d)); ("publicInfo", publicInfo);
                                      ("privateInfo", privateInfo); ("serverInfo", serverInfo)]) ;;
      _listenToCurrentUser_cb VNull userData
  end.

(** A profile arriving on the subscription [getUserById] opened for
    [userId]; [None] is the backend reporting no such user ([null]). *)
Definition deliver_user (userId : value) (profile : option object) : M unit :=
  match profile with
  | Some o => user <- alloc o ;; _listenToPublicUserData_cb userId VNull user
  | None => _listenToPublicUserData_cb userId VNull VNull
  end.

(** The state after a computation, whether it returned or threw. *)
Definition exec {A} (m : M A) (st : state) : state := (m st).2.

(** The store after a sequence of deliveries on the current-user feed. *)
Definition run_feed (events : list feed_event) (st : state) : state :=
  fold_left (fun st e => exec (deliver e) st) events st.

End UserStore.

(** ** Vocabulary of the properties *)

(** The state with further effects appended to its trace. *)
Definition emit_all (es : list effect) (st : state) : state :=
  {| userId := userId st; usersMap := usersMap st; privateInfo := privateInfo st;
     serverInfo := serverInfo st; _onLoginTriggers := _onLoginTriggers st;
     _onLogoutTriggers := _onLogoutTriggers st; heap := heap st;
     trace := trace st ++ es |}.

(** One call of each callback of [cbs], in order, with the argument [arg]. *)
Definition invocations (cbs : list nat) (arg : value) : list effect :=
  map (fun c => Invoke c [arg]) cbs.

Definition is_invoke (e : effect) : bool :=
  match e with Invoke _ _ => true | _ => false end.

(** What [_savePublicUserInfo] makes of a profile: [displayName], [save]
    and [id] set, every other field as it was. *)
Definition normalized (userId : value) (o : object) : object :=
  <["id" := userId]> (<["save" := VFun F_updateUser]> (<["displayName" := field o "email"]> o)).

(** The fields of a profile that are not attached by the store. *)
Definition public_fields (o : object) : object :=
  delete "displayName" (delete "id" (delete "save" o)).

(** The composite view [{id, public, private, server}] of a state. *)
Definition full_view (st : state) : object :=
  <["id" := userId st]> (<["public" := user st]>
    (<["private" := privateInfo st]> (<["server" := serverInfo st]> ∅))).

(** [currentUserId] is set. *)
Definition non_null (v : value) : bool :=
  match v with VNull => false | _ => true end.

(** The store before any delivery, with the hooks the application has
    registered. *)
Definition with_hooks (on_login on_logout : list nat) : state :=
  exec (register_hooks on_login on_logout) initial.

(** A data payload that carries [publicInfo]. *)
Definition has_public (e : feed_event) : bool :=
  match e with
  | FeedData d => bool_decide (is_Some (ud_publicInfo d))
  | _ => false
  end.

(** A data payload whose [publicInfo] has [isOnline] set. *)
Definition is_online (e : feed_event) : bool :=
  match e with
  | FeedData d =>
      match ud_publicInfo d with
      | Some o => truthy (field o "isOnline")
      | None => false
      end
  | _ => false
  end.

(** As the specification words it: the most recently applied [publicInfo]
    payload was online and no absence signal came after it. *)
Definition spec_authenticated (events : list feed_event) : bool :=
  fold_left
    (fun b e =>
       match e with
       | FeedAbsent => false
       | _ => if has_public e then is_online e else b
       end)
    events false.

(** What the store does: some online [publicInfo] payload was applied and
    no absence signal came after it. *)
Definition established_from (b : bool) (events : list feed_event) : bool :=
  fold_left
    (fun b e =>
       match e with
       | FeedAbsent => false
       | _ => if is_online e then true else b
       end)
    events b.

Definition established (events : list feed_event) : bool :=
  established_from false events.

(** Credentials without an [email] or without a [password]. *)
Definition absent_or_empty (v : value) : bool :=
  match v with
  | VUndefined | VNull => true
  | VStr s => String.eqb s ""
  | _ => false
  end.

Definition missing_credentials (h : heap_t) (user : value) : bool :=
  match user with
  | VRef l =>
      absent_or_empty (field (obj_at h l) "email")
      || absent_or_empty (field (obj_at h l) "password")
  | _ => true
  end.


Definition upper_ascii (c : ascii) : ascii :=
  let n := nat_of_ascii c in
  if (97 <=? n)%nat && (n <=? 122)%nat then ascii_of_nat (n - 32) else c.

Fixpoint ascii_toUpperCase (s : string) : string :=
  match s with
  | EmptyString => EmptyString
  | String c s' => String (upper_ascii c) (ascii_toUpperCase s')
  end.





(** The test [searchFromLocalUsersByField] applies to a cached profile. *)
Definition field_matches {case_mapping : CaseMapping}
    (h : heap_t) (field_name q : string) (l : loc) : bool :=
  match field (obj_at h l) field_name with
  | VStr s => includes (toUpperCase s) (toUpperCase q)
  | _ => false
  end.

(** The store after [_saveCurrentUserLocally] has applied [publicInfo]:
    the profile normalized in place and cached under [id], and [userId]
    set when the profile is online. *)
Definition apply_public (id publicInfo : value) (st : state) : state :=
  match publicInfo with
  | VRef l =>
      let o := obj_at (heap st) l in
      let st' := set_usersMap (map_set id l (usersMap st))
                   (set_heap (<[l := normalized id o]> (heap st)) st) in
      if truthy (field o "isOnline") then set_userId id st' else st'
  | _ => st
  end.

(** A slice overwritten when the payload carries it. *)
Definition apply_slice (set : value -> state -> state) (v : value) (st : state) : state :=
  if truthy v then set v st else st.

Definition apply_data (id publicInfo privateInfo serverInfo : value) (st : state) : state :=
  apply_slice set_serverInfo serverInfo
    (apply_slice set_privateInfo privateInfo (apply_public id publicInfo st)).

(** A reference or nothing: what a payload holds in a slot. *)
Definition ref_or_absent (v : value) : Prop :=
  match v with
  | VRef _ | VUndefined | VNull => True
  | _ => False
  end.

(** The object [{id, publicInfo}] handed to the [onLogin] hooks. *)
Definition established_view (id publicInfo : value) : object :=
  <["id" := id]> (<["publicInfo" := publicInfo]> ∅).

(** The trace a dispatch of the hooks [cbs] with the argument [arg]
    leaves: either one call of each hook in registration order, or the
    calls up to and including a hook that threw, followed by what the
    [catch] clause did with the error. *)
Definition dispatched (rc : nat -> list value -> state -> outcome)
    (cbs : list nat) (arg : value) (on_error : value -> effect)
    (seg : list effect) : Prop :=
  seg = invocations cbs arg
  \/ exists n c e s,
       cbs !! n = Some c /\ rc c [arg] s = Raises e
       /\ seg = invocations (take (S n) cbs) arg ++ [on_error e].

(** No hook of [cbs] throws, whatever it is called with. *)
Definition all_return (rc : nat -> list value -> state -> outcome)
    (cbs : list nat) : Prop :=
  forall c a s, In c cbs -> exists v, rc c a s = Returns v.

(** The trace a dispatch that starts in the state [st] leaves, exactly.  A
    hook is called in the state the calls before it have left: [st] with
    those calls added to its trace.  Either every hook returns when it is
    called, and each has been called once, in registration order; or hook
    number [n] is the first that throws when it is called, the hooks up to
    and including it have been called once, in order, none after it has,
    and the [catch] clause has done [on_error]. *)
Definition dispatched_until_throw (rc : nat -> list value -> state -> outcome)
    (cbs : list nat) (arg : value) (on_error : value -> effect)
    (st : state) (seg : list effect) : Prop :=
  let returns_at (k : nat) (c : nat) :=
    exists v, rc c [arg] (emit_all (invocations (take k cbs) arg) st) = Returns v in
  ((forall k c, cbs !! k = Some c -> returns_at k c) /\ seg = invocations cbs arg)
  \/ exists n c e,
       cbs !! n = Some c
       /\ (forall k c', (k < n)%nat -> cbs !! k = Some c' -> returns_at k c')
       /\ rc c [arg] (emit_all (invocations (take n cbs) arg) st) = Raises e
       /\ seg = invocations (take (S n) cbs) arg ++ [on_error e].

(** What the backend builds for one slot of a payload. *)
Definition alloc_slot (o : option object) (h : heap_t) : value * heap_t :=
  match o with
  | Some o => (VRef (fresh (dom h)), <[fresh (dom h) := o]> h)
  | None => (VUndefined, h)
  end.

(** The cache and [userId] agree: nothing is cached under [null], and a
    user that is set has a cached profile. *)
Definition consistent (st : state) : Prop :=
  map_get VNull (usersMap st) = None
  /\ (userId st = VNull
      \/ exists s l, userId st = VStr s /\ map_get (VStr s) (usersMap st) = Some l).

(** As the specification words it: the [onLogin] hooks fire once at each
    transition to the first online profile, and not for the payloads that
    follow while that user stays established. *)
Fixpoint spec_onLogin_fires (was_online : bool) (events : list feed_event) : nat :=
  match events with
  | [] => 0
  | FeedAbsent :: events' => spec_onLogin_fires false events'
  | e :: events' =>
      if is_online e then
        (if was_online then 0 else 1) + spec_onLogin_fires true events'
      else spec_onLogin_fires was_online events'
  end.

(** The number of callback invocations in a trace. *)
Definition count_invocations (t : list effect) : nat :=
  length (filter (fun e => is_invoke e = true) t).

(** ** Example data *)

(** The case mapping of the examples, all of which are in ASCII. *)
Definition ascii_case : CaseMapping := ascii_toUpperCase.

(** Callbacks that all return. *)
Definition quiet : nat -> list value -> state -> outcome :=
  fun _ _ _ => Returns VUndefined.

(** Callback 0 throws, every other one returns. *)
Definition first_throws : nat -> list value -> state -> outcome :=
  fun n _ _ => if Nat.eqb n 0 then Raises (VStr "boom") else Returns VUndefined.

Definition bob (online : bool) : object :=
  list_to_map [("email", VStr "bob@x.com"); ("isOnline", VBool online)].

Definition alice : object :=
  list_to_map [("email", VStr "alice@x.com"); ("isOnline", VBool false)].

Definition secrets : object := list_to_map [("phone", VStr "555")].

Definition bob_payload (online : bool) : feed_event :=
  FeedData (UserData "1" (Some (bob online)) (Some secrets) None).

(** Bob logged in, two hooks of each kind registered. *)
Definition bob_logged_in (rc : nat -> list value -> state -> outcome) : state :=
  run_feed rc [bob_payload true] (with_hooks [0; 1]%nat [0; 1]%nat).

(** A cache holding bob under "1" and alice under "2", in that order. *)
Definition bob_and_alice : state :=
  exec (deliver_user (VStr "2") (Some alice))
    (exec (deliver_user (VStr "1") (Some (bob false))) initial).

(** Credentials with an empty [email], at location 1. *)
Definition empty_email : state :=
  set_heap {[ 1%positive := list_to_map [("email", VStr ""); ("password", VStr "x")] ]} initial.

(** Bob logged in, with three hooks of each kind; hook 0, the second one,
    is the one [first_throws] lets throw. *)
Definition three_hooks : state :=
  run_feed first_throws [bob_payload true] (with_hooks [1; 0; 2]%nat [1; 0; 2]%nat).

(** ** The store in use: the application and the backend at large *)

(** The object tree the backend builds for a payload
    [{id, publicInfo, privateInfo, serverInfo}]. *)
Definition alloc_user_data (d : user_data) : M value :=
  publicInfo <- alloc_opt (ud_publicInfo d) ;;
  privateInfo <- alloc_opt (ud_privateInfo d) ;;
  serverInfo <- alloc_opt (ud_serverInfo d) ;;
  alloc (list_to_map [("id", VStr (ud_id d)); ("publicInfo", publicInfo);
                      ("privateInfo", privateInfo); ("serverInfo", serverInfo)]).

(** What [userDb.createUser] answers: an error, or the new user's data. *)
Inductive create_result :=
| CreateFailed (err : object)
| Created (d : user_data).

(** The backend answering a [createUser] that was given [callback]. *)
Definition deliver_created (rc : nat -> list value -> state -> outcome)
    (callback : nat) (r : create_result) : M value :=
  match r with
  | CreateFailed err =>
      err <- alloc err ;;
      createUser_cb rc callback err VUndefined
  | Created d =>
      userDataByPrivacy <- alloc_user_data d ;;
      createUser_cb rc callback VNull userDataByPrivacy
  end.

(** Application code: fetch the profile cached under [userId] and, when
    there is one, call its [save]. *)
Definition save_cached (userId : value) : M unit :=
  profile <- getUserById userId ;;
  if truthy profile then save profile else ret tt.

(** One step of the store's life: a call of the application into the
    public interface, or the backend calling back.  User ids are strings. *)
Inductive action :=
| Feed (e : feed_event)
| Profile (userId : string) (profile : option object)
| CreateAnswer (callback : nat) (r : create_result)
| CallOnLogin (callback : nat)
| CallOnLogout (callback : nat)
| CallGetUserById (userId : string)
| CallLogin (user : value) (callback : nat)
| CallLogout
| CallCreateUser (user : value) (callback : nat)
| CallSearch (field_name : string) (query : value)
| CallSave (userId : string).

Definition perform {case_mapping : CaseMapping}
    (rc : nat -> list value -> state -> outcome) (a : action)
    : state -> state :=
  match a with
  | Feed e => exec (deliver rc e)
  | Profile userId profile => exec (deliver_user (VStr userId) profile)
  | CreateAnswer callback r => exec (deliver_created rc callback r)
  | CallOnLogin callback => exec (onLogin callback)
  | CallOnLogout callback => exec (onLogout callback)
  | CallGetUserById userId => exec (getUserById (VStr userId))
  | CallLogin user callback => exec (login user callback)
  | CallLogout => exec logout
  | CallCreateUser user callback => exec (createUser rc user callback)
  | CallSearch field_name query => exec (searchFromLocalUsersByField field_name query)
  | CallSave userId => exec (save_cached (VStr userId))
  end.

(** The store after a history of such steps, from the freshly loaded
    module. *)
Definition run {case_mapping : CaseMapping}
    (rc : nat -> list value -> state -> outcome) (history : list action)
    : state :=
  fold_left (fun st a => perform rc a st) history initial.

(** Every cached profile is an object of the heap that carries the key it
    is cached under as [id], the store's [save] and its [email] as
    [displayName]. *)
Definition cache_normalized (st : state) : Prop :=
  forall k l, map_get k (usersMap st) = Some l ->
    exists o : object,
      heap st !! l = Some o
      /\ o !! "id" = Some k
      /\ o !! "save" = Some (VFun F_updateUser)
      /\ o !! "displayName" = Some (field o "email").

(** A current user has a cached profile. *)
Definition userId_cached (st : state) : Prop :=
  userId st = VNull
  \/ exists s l, userId st = VStr s /\ map_get (VStr s) (usersMap st) = Some l.

(** Only strings are keys of the cache. *)
Definition keys_are_strings (st : state) : Prop :=
  forall k l, map_get k (usersMap st) = Some l -> exists s, k = VStr s.

Definition store_invariant (st : state) : Prop :=
  cache_normalized st /\ userId_cached st /\ keys_are_strings st.

(** What a slot of a payload does to a slice of the store. *)
Definition slot_applied (o : option object) (before after : value) (h h' : heap_t) : Prop :=
  match o with
  | Some x => exists l, after = VRef l /\ h !! l = None /\ h' !! l = Some x
  | None => after = before
  end.

(** The test [!user || !user.email || !user.password] of [createUser]. *)
Definition credentials_rejected (h : heap_t) (user : value) : bool :=
  match user with
  | VRef l => falsy (field (obj_at h l) "email") || falsy (field (obj_at h l) "password")
  | _ => true
  end.

(** The observable fields and the hooks are the same in both states and
    every object of the first is unchanged in the second. *)
Definition same_store (st st' : state) : Prop :=
  userId st' = userId st
  /\ usersMap st' = usersMap st
  /\ privateInfo st' = privateInfo st
  /\ serverInfo st' = serverInfo st
  /\ _onLoginTriggers st' = _onLoginTriggers st
  /\ _onLogoutTriggers st' = _onLogoutTriggers st
  /\ forall l o, heap st !! l = Some o -> heap st' !! l = Some o.

(** *** The application editing profiles

    The profiles the store hands out are the cached objects themselves, and
    the application edits them in place before it calls [save]. *)

(** Application code: fetch the profile cached under [userId] and, when
    there is one, assign [profile[field_name] = v]. *)
Definition edit_cached (userId : value) (field_name : string) (v : value) : M unit :=
  profile <- getUserById userId ;;
  if truthy profile then set_prop profile field_name v else ret tt.

(** A step of the store's life, or the application assigning a field of a
    cached profile. *)
Inductive app_step :=
| Store (a : action)
| Edit (userId field_name : string) (v : value).

Definition perform_app {case_mapping : CaseMapping}
    (rc : nat -> list value -> state -> outcome) (x : app_step) : state -> state :=
  match x with
  | Store a => perform rc a
  | Edit userId field_name v => exec (edit_cached (VStr userId) field_name v)
  end.

Definition run_app {case_mapping : CaseMapping}
    (rc : nat -> list value -> state -> outcome) (history : list app_step) : state :=
  fold_left (fun st x => perform_app rc x st) history initial.

(** The application does not assign [id] or [save], the two fields the
    store attaches for its own use. *)
Definition keeps_id_and_save (x : app_step) : bool :=
  match x with
  | Edit _ field_name _ => negb (String.eqb field_name "id" || String.eqb field_name "save")
  | Store _ => true
  end.

Definition forget (u : string) (stale : list string) : list string :=
  List.filter (fun s => negb (String.eqb s u)) stale.

(** The users whose [email] or [displayName] the application has assigned
    since the store last stored their profile: a delivery of the profile
    and a [save] bring the two fields in step again. *)
Definition stale_after (x : app_step) (stale : list string) : list string :=
  match x with
  | Edit u field_name _ =>
      if String.eqb field_name "email" || String.eqb field_name "displayName"
      then u :: stale else stale
  | Store (CallSave u) => forget u stale
  | Store (Profile u (Some _)) => forget u stale
  | Store (Feed (FeedData d)) | Store (CreateAnswer _ (Created d)) =>
      if has_public (FeedData d) then forget (ud_id d) stale else stale
  | Store _ => stale
  end.

Definition stale (history : list app_step) : list string :=
  fold_left (fun s x => stale_after x s) history [].

(** The invariant of the store when the application edits profiles: every
    cached profile carries its key as [id] and the store's [save], and its
    [email] as [displayName] unless its user is among [stale]. *)
Definition cache_keyed_modulo (stale : list string) (st : state) : Prop :=
  forall k l, map_get k (usersMap st) = Some l ->
    exists o : object,
      heap st !! l = Some o
      /\ o !! "id" = Some k
      /\ o !! "save" = Some (VFun F_updateUser)
      /\ (forall s, k = VStr s -> ~ In s stale ->
                    o !! "displayName" = Some (field o "email")).

Definition store_invariant_modulo (stale : list string) (st : state) : Prop :=
  cache_keyed_modulo stale st /\ userId_cached st /\ keys_are_strings st.

(** Example histories: bob's profile fetched through [getUserById], and bob
    created through [createUser]. *)
Definition bob_fetched : list action :=
  [CallGetUserById "1"; Profile "1" (Some (bob false))].

Definition bob_created : user_data :=
  UserData "1" (Some (bob true)) (Some secrets) None.

(** Bob's profile fetched, and his [email] then edited by the application. *)
Definition bob_edited : list app_step :=
  map Store bob_fetched ++ [Edit "1" "email" (VStr "robert@x.com")].

(** * The file watcher

    The first module of [src/scripts/watchFileChanges.js] mirrors the
    folders under [shared/] into the two inner projects.  It runs on Node's
    [fs], [path] and timers: the calls it makes to them are recorded as
    effects, in order, and the callbacks it hands them are functions of the
    model that the environment calls with the outcome.  The requests of the
    copy at start ([fs.readdir], [fs.readFile], [fs.writeFile]) are
    recorded with the callback they are made with: a closure, known by the
    code that creates it and the variables it has captured.  [path.join] is
    a parameter. *)

(** ** [indexOf] and [substring] *)

(** The first position at which [q] occurs in [s]. *)
Fixpoint index_of (s q : string) : option nat :=
  if starts_with q s then Some 0%nat
  else match s with
       | EmptyString => None
       | String _ s' => option_map S (index_of s' q)
       end.

(** [s.indexOf(q)]: -1 when [q] does not occur. *)
Definition indexOf (s q : string) : Z :=
  match index_of s q with
  | Some i => Z.of_nat i
  | None => (-1)%Z
  end.

Fixpoint drop_chars (n : nat) (s : string) : string :=
  match n, s with
  | O, _ => s
  | S _, EmptyString => EmptyString
  | S n', String _ s' => drop_chars n' s'
  end.

(** [s.substring(start)]: a negative [start] counts as 0 and one beyond
    the end as the length. *)
Definition substring (s : string) (start : Z) : string :=
  drop_chars (Z.to_nat start) s.

Definition getPathSuffix (sharedPath : string) : string :=
  let shared := "shared/" in
  substring sharedPath (indexOf sharedPath shared + Z.of_nat (String.length shared)).

(** ** Effects and state *)

Definition WEB_FOLDER : string := "web".
Definition MOBILE_FOLDER : string := "mobile".
Definition WATCHED_DIRECTORIES : list string := ["stores"; "db"; ".combust"].

(** What a timer does when it fires. *)
Inductive timer_task :=
| ClearFsTimeout
| CopyFileTask (src dest : string).

(** The closures passed as [onErr]: the one [copyFolder] creates. *)
Inductive on_err :=
| OnErr_copyFolder.

(** The closures passed as [onFileContent]: the one [copyAnyFilesWithDiff]
    creates, which has captured [destination] and [onErr], and the one
    [copyFileIfDiff] creates, which has captured [sourceContent],
    [destinationPath] and [onErr]. *)
Inductive on_file_content :=
| OnContent_copyAnyFilesWithDiff (destination : string) (onErr : option on_err)
| OnContent_copyFileIfDiff (sourceContent : option string) (destinationPath : string)
    (onErr : option on_err).

(** [WriteFile], [ReadFile] and [Readdir] carry what the callback of the
    request has captured: for [fs.writeFile] the [onErr] of
    [copyFileIfDiff], for [fs.readFile] and [fs.readdir] the [onFileContent]
    and [onErr] that [readFile] and [readFiles] were called with ([None]
    when the caller passed no [onErr]). *)
Inductive fs_effect :=
| Watch (dir : string)
| SetTimeout (task : timer_task) (ms : nat)
| Access (filePath : string)
| Unlink (path : string)
| CopyFile (src dest : string)
| WriteFile (path : string) (content : option string) (onErr : option on_err)
| ReadFile (filePath : string) (onFileContent : on_file_content) (onErr : option on_err)
| Readdir (dirname : string) (onFileContent : on_file_content) (onErr : option on_err)
| Log (text : string)
| LogValue (v : value)
| LogConcat (text : string) (v : value).

(** What Node answers to a request: the arguments it calls the callback
    with.  A content and a list of names are [undefined] ([None]) when the
    request failed. *)
Inductive fs_answer :=
| ReadAnswer (err : value) (content : option string)
| DirAnswer (err : value) (filenames : option (list string))
| WriteAnswer (err : value).

(** [fsTimeout] holds a timer handle (truthy) or [null]/[undefined];
    [lastFileChanged] is [undefined] until the first event. *)
Record watcher := Watcher {
  fsTimeout : bool;
  lastFileChanged : option string;
  effects : list fs_effect
}.

Definition watcher_start : watcher :=
  {| fsTimeout := false; lastFileChanged := None; effects := [] |}.

Definition W (A : Type) : Type := watcher -> result A * watcher.

Definition wret {A} (a : A) : W A := fun w => (Ok a, w).

Definition wbind {A B} (m : W A) (f : A -> W B) : W B := fun w =>
  match m w with
  | (Ok a, w') => f a w'
  | (Thrown e, w') => (Thrown e, w')
  end.

Definition wthrow {A} (e : value) : W A := fun w => (Thrown e, w).

Definition effect_ (e : fs_effect) : W unit := fun w =>
  (Ok tt, {| fsTimeout := fsTimeout w; lastFileChanged := lastFileChanged w;
             effects := effects w ++ [e] |}).

Definition set_fsTimeout (b : bool) : W unit := fun w =>
  (Ok tt, {| fsTimeout := b; lastFileChanged := lastFileChanged w; effects := effects w |}).

Definition set_lastFileChanged (p : string) : W unit := fun w =>
  (Ok tt, {| fsTimeout := fsTimeout w; lastFileChanged := Some p; effects := effects w |}).

Definition wget : W watcher := fun w => (Ok w, w).

Declare Scope w_scope.
Delimit Scope w_scope with w.
Notation "x <- c1 ;; c2" := (wbind c1 (fun x => c2))
  (at level 100, c1 at next level, right associativity) : w_scope.
Notation "c1 ;; c2" := (wbind c1 (fun _ => c2))
  (at level 100, right associativity) : w_scope.

Fixpoint wforEach {A} (f : A -> W unit) (l : list A) : W unit :=
  match l with
  | [] => wret tt
  | x :: l' => (f x ;; wforEach f l')%w
  end.

(** The watcher after a computation. *)
Definition wexec {A} (m : W A) (w : watcher) : watcher := (m w).2.

Section Watcher.

(** [path.join]. *)
Variable join : string -> string -> string.

(** ** Copying one file *)

(** The callback of [fs.copyFile] in [copyFile]. *)
Definition copyFile_cb (err : value) : W unit :=
  if truthy err then wthrow err else wret tt.

Definition copyFile (src dest : string) : W unit :=
  effect_ (SetTimeout (CopyFileTask src dest) 50).

(** A timer firing. *)
Definition run_task (task : timer_task) : W unit :=
  match task with
  | ClearFsTimeout => set_fsTimeout false
  | CopyFileTask src dest => effect_ (CopyFile src dest)
  end.

Definition handleFileChange (filePath : string) : W unit :=
  (let pathSuffix := getPathSuffix filePath in
   copyFile ("./" +:+ filePath) ("./" +:+ MOBILE_FOLDER +:+ "/src/" +:+ pathSuffix) ;;
   copyFile ("./" +:+ filePath) ("./" +:+ WEB_FOLDER +:+ "/src/" +:+ pathSuffix))%w.

(** The callback [onErr] of the two [fs.unlink] calls. *)
Definition unlink_cb (err : value) : W unit :=
  if truthy err then effect_ (LogValue err) else wret tt.

(** The callback [handleFileRename] hands to [fileExists]. *)
Definition handleFileRename_cb (filePath : string) (existence : bool) : W unit :=
  if existence then handleFileChange filePath
  else
    (let suffix := getPathSuffix filePath in
     effect_ (Unlink ("./" +:+ MOBILE_FOLDER +:+ "/src/" +:+ suffix)) ;;
     effect_ (Unlink ("./" +:+ WEB_FOLDER +:+ "/src/" +:+ suffix)))%w.

(** [fileExists(filePath, callback)] asks [fs.access]; the callback it
    hands over is [fileExists_cb callback]. *)
Definition fileExists_cb (callback : bool -> W unit) (err : value) : W unit :=
  callback (if truthy err then false else true).

Definition fileExists (filePath : string) (callback : bool -> W unit) : W unit :=
  effect_ (Access filePath).

Definition handleFileRename (filePath : string) : W unit :=
  fileExists filePath (handleFileRename_cb filePath).

Definition handleFileEvent (eventType filePath : string) : W unit :=
  if String.eqb eventType "change" then handleFileChange filePath
  else if String.eqb eventType "rename" then handleFileRename filePath
  else effect_ (Log ("unhandled watcher event " +:+ eventType
                     +:+ " for file: " +:+ filePath)).

(** ** The debounced listener *)

(** The listener [watchDir] hands to [fs.watch]. *)
Definition watchDir_cb (dir eventType filename : string) : W unit :=
  (let filePath := join dir filename in
   w <- wget ;;
   (if negb (fsTimeout w) || negb (bool_decide (lastFileChanged w = Some filePath)) then
      effect_ (SetTimeout ClearFsTimeout 200) ;;
      set_fsTimeout true ;;
      handleFileEvent eventType filePath
    else wret tt) ;;
   set_lastFileChanged filePath)%w.

Definition watchDir (dir : string) : W unit := effect_ (Watch dir).

(** ** Copying the folders at start *)

(** The [onErr] of [copyFolder]. *)
Definition copyFolder_onErr (err : value) : W unit :=
  if truthy err then effect_ (LogConcat "ERR: " err) else wret tt.

(** [onErr(err)]. *)
Definition call_onErr (onErr : on_err) (err : value) : W unit :=
  match onErr with
  | OnErr_copyFolder => copyFolder_onErr err
  end.

(** [readFile(filePath, onFileContent, onErr)] asks [fs.readFile], with a
    callback that has captured its three arguments. *)
Definition readFile (filePath : string) (onFileContent : on_file_content)
    (onErr : option on_err) : W unit :=
  effect_ (ReadFile filePath onFileContent onErr).

(** The callback of [fs.writeFile] in [copyFileIfDiff]. *)
Definition writeFile_cb (onErr : option on_err) (err : value) : W unit :=
  match onErr with
  | Some onErr => if truthy err then call_onErr onErr err else wret tt
  | None => wret tt
  end.

(** The function [copyFileIfDiff] hands to [readFile] as [onFileContent]. *)
Definition copyFileIfDiff_cb (sourceContent : option string) (destinationPath : string)
    (onErr : option on_err)
    (destContent : option string) (filePath : string) : W unit :=
  if bool_decide (sourceContent <> destContent)
  then effect_ (WriteFile destinationPath sourceContent onErr)
  else wret tt.

Definition copyFileIfDiff (sourceContent : option string) (destinationPath : string)
    (onErr : option on_err) : W unit :=
  readFile destinationPath (OnContent_copyFileIfDiff sourceContent destinationPath onErr) None.

(** The function [copyAnyFilesWithDiff] hands to [readFiles] as
    [onFileContent]. *)
Definition copyAnyFilesWithDiff_cb (destination : string) (onErr : option on_err)
    (content : option string) (fileNameWithinFolder : string) : W unit :=
  let pathSuffix := getPathSuffix fileNameWithinFolder in
  copyFileIfDiff content (join destination pathSuffix) onErr.

(** [onFileContent(content, filePath)]. *)
Definition call_onFileContent (onFileContent : on_file_content)
    (content : option string) (filePath : string) : W unit :=
  match onFileContent with
  | OnContent_copyAnyFilesWithDiff destination onErr =>
      copyAnyFilesWithDiff_cb destination onErr content filePath
  | OnContent_copyFileIfDiff sourceContent destinationPath onErr =>
      copyFileIfDiff_cb sourceContent destinationPath onErr content filePath
  end.

(** The callback of [fs.readFile] in [readFile], called with the error and
    the content ([undefined] on error). *)
Definition readFile_cb (filePath : string) (onFileContent : on_file_content)
    (onErr : option on_err) (err : value) (content : option string) : W unit :=
  match onErr with
  | Some onErr =>
      if truthy err then call_onErr onErr err
      else call_onFileContent onFileContent content filePath
  | None => call_onFileContent onFileContent content filePath
  end.

(** The callback of [fs.readdir] in [readFiles], called with the error and
    the names ([undefined] on error). *)
Definition readFiles_cb (dirname : string) (onFileContent : on_file_content)
    (onErr : option on_err) (err : value) (filenames : option (list string)) : W unit :=
  let read_all :=
    match filenames with
    | Some filenames =>
        wforEach (fun filename => readFile (join dirname filename) onFileContent onErr)
                 filenames
    | None => wthrow TypeError
    end in
  match onErr with
  | Some onErr => if truthy err then call_onErr onErr err else read_all
  | None => read_all
  end.

(** [readFiles(dirname, onFileContent, onErr)] asks [fs.readdir], with a
    callback that has captured its three arguments. *)
Definition readFiles (dirname : string) (onFileContent : on_file_content)
    (onErr : option on_err) : W unit :=
  effect_ (Readdir dirname onFileContent onErr).

Definition copyAnyFilesWithDiff (source destination : string)
    (onErr : option on_err) : W unit :=
  readFiles source (OnContent_copyAnyFilesWithDiff destination onErr) None.

Definition copyFolder (src dest : string) : W unit :=
  copyAnyFilesWithDiff src dest (Some OnErr_copyFolder).

Definition copyWatchedFoldersToInnerProjects : W unit :=
  wforEach
    (fun dir =>
       (let srcPath := join "shared/" dir in
        copyFolder srcPath ("./" +:+ MOBILE_FOLDER +:+ "/src/") ;;
        copyFolder srcPath ("./" +:+ WEB_FOLDER +:+ "/src/"))%w)
    WATCHED_DIRECTORIES.

(** Node answering a request of the copy at start: it calls the callback
    the request was made with.  An answer of the wrong kind is no call. *)
Definition respond (request : fs_effect) (answer : fs_answer) : W unit :=
  match request, answer with
  | ReadFile filePath onFileContent onErr, ReadAnswer err content =>
      readFile_cb filePath onFileContent onErr err content
  | Readdir dirname onFileContent onErr, DirAnswer err filenames =>
      readFiles_cb dirname onFileContent onErr err filenames
  | WriteFile _ _ onErr, WriteAnswer err => writeFile_cb onErr err
  | _, _ => wret tt
  end.

(** The module's top level. *)
Definition start : W unit :=
  (effect_ (Log "Starting file watcher") ;;
   copyWatchedFoldersToInnerProjects ;;
   wforEach (fun dir => watchDir ("./shared/" +:+ dir)) WATCHED_DIRECTORIES)%w.

(** ** The listener over time *)

(** What reaches the listener of one watched directory: an event of
    [fs.watch], or the 200 ms timer of an earlier event firing. *)
Inductive watch_input :=
| FsEvent (eventType filename : string)
| TimerFires.

Definition watch_step (dir : string) (i : watch_input) (w : watcher) : watcher :=
  match i with
  | FsEvent eventType filename => wexec (watchDir_cb dir eventType filename) w
  | TimerFires => wexec (run_task ClearFsTimeout) w
  end.

Definition watch_run (dir : string) (inputs : list watch_input) (w : watcher) : watcher :=
  fold_left (fun w i => watch_step dir i w) inputs w.

(** The listeners of all watched directories share [fsTimeout] and
    [lastFileChanged]: an input comes with the directory of the listener
    it is for (of no account for a timer). *)
Definition watch_all_run (inputs : list (string * watch_input)) (w : watcher) : watcher :=
  fold_left (fun w i => watch_step i.1 i.2 w) inputs w.

(** The input just before an event was an event for the same path: of
    whatever type and from whichever listener, with no timer in between.
    Before the first input, the state [w0] says so. *)
Definition repeats_last_input (w0 : watcher) (before : list (string * watch_input))
    (filePath : string) : bool :=
  match last before with
  | Some (dir, FsEvent _ filename) => bool_decide (join dir filename = filePath)
  | Some (_, TimerFires) => false
  | None => fsTimeout w0 && bool_decide (lastFileChanged w0 = Some filePath)
  end.

End Watcher.

(** The watcher with further effects appended. *)
Definition add_effects (es : list fs_effect) (w : watcher) : watcher :=
  {| fsTimeout := fsTimeout w; lastFileChanged := lastFileChanged w;
     effects := effects w ++ es |}.

(** The two copies a changed file is mirrored by: mobile first, then web. *)
Definition mirror_copies (filePath suffix : string) : list fs_effect :=
  [SetTimeout (CopyFileTask ("./" +:+ filePath) ("./mobile/src/" +:+ suffix)) 50;
   SetTimeout (CopyFileTask ("./" +:+ filePath) ("./web/src/" +:+ suffix)) 50].

(** What [handleFileEvent] asks of Node for an event. *)
Definition event_effects (eventType filePath : string) : list fs_effect :=
  if String.eqb eventType "change" then mirror_copies filePath (getPathSuffix filePath)
  else if String.eqb eventType "rename" then [Access filePath]
  else [Log ("unhandled watcher event " +:+ eventType +:+ " for file: " +:+ filePath)].

(** An example [path.join] for paths that need no normalization. *)
Definition join_plain (a b : string) : string := a +:+ "/" +:+ b.

(** What the listener asks of Node when it handles an event for
    [filePath]: the 200 ms timer, then what [handleFileEvent] asks. *)
Definition handled_effects (eventType filePath : string) : list fs_effect :=
  SetTimeout ClearFsTimeout 200 :: event_effects eventType filePath.

(** Each event of the list is for another path than the event before it;
    [last] is the path of the event before the first. *)
Fixpoint path_changes_each_time (join : string -> string -> string) (dir : string)
    (last : option string) (events : list (string * string)) : Prop :=
  match events with
  | [] => True
  | (eventType, filename) :: events' =>
      last <> Some (join dir filename)
      /\ path_changes_each_time join dir (Some (join dir filename)) events'
  end.

(** * Properties *)

Section Properties.

Variable run_callback : nat -> list value -> state -> outcome.
Context {case_mapping : CaseMapping}.

Lemma fresh_unused (h : heap_t) : h !! fresh (dom h) = None.
Proof. apply not_elem_of_dom, is_fresh. Qed.

Lemma obj_at_insert (h : heap_t) l o : obj_at (<[l := o]> h) l = o.
Proof. unfold obj_at. by rewrite lookup_insert_eq. Qed.

Lemma obj_at_insert_ne (h : heap_t) l l' o :
  l ≠ l' -> obj_at (<[l := o]> h) l' = obj_at h l'.
Proof. intros. unfold obj_at. by rewrite lookup_insert_ne. Qed.

Lemma obj_at_Some (h : heap_t) l o : h !! l = Some o -> obj_at h l = o.
Proof. intros E. unfold obj_at. by rewrite E. Qed.

Lemma map_get_set k l m : map_get k (map_set k l m) = Some l.
Proof.
  induction m as [|[k' l'] m IH]; simpl.
  - by rewrite decide_True.
  - destruct (decide (k' = k)) as [->|Hne]; simpl.
    + by rewrite decide_True.
    + by rewrite decide_False.
Qed.

Lemma map_get_set_ne k k' l m : k ≠ k' -> map_get k' (map_set k l m) = map_get k' m.
Proof.
  intros Hne. induction m as [|[k0 l0] m IH]; simpl.
  - by rewrite decide_False.
  - destruct (decide (k0 = k)) as [->|Hne0]; simpl.
    + by rewrite !decide_False.
    + destruct (decide (k0 = k')); auto.
Qed.

Lemma _savePublicUserInfo_ref uid l st :
  _savePublicUserInfo uid (VRef l) st =
  (Ok tt, set_usersMap (map_set uid l (usersMap st))
            (set_heap (<[l := normalized uid (obj_at (heap st) l)]> (heap st)) st)).
Proof.
  unfold _savePublicUserInfo, bind, get_prop, set_prop, modify, normalized. simpl.
  rewrite !obj_at_insert, !insert_insert_eq. reflexivity.
Qed.

Lemma _savePublicUserInfo_falsy uid v st :
  falsy v = true -> _savePublicUserInfo uid v st = (Ok tt, st).
Proof. intros E. unfold _savePublicUserInfo. by rewrite E. Qed.

Lemma getUserById_hit userId l st :
  map_get userId (usersMap st) = Some l -> getUserById userId st = (Ok (VRef l), st).
Proof. intros E. unfold getUserById, bind, get, usersMap_get. simpl. by rewrite E. Qed.

Lemma getUserById_miss userId st :
  map_get userId (usersMap st) = None ->
  getUserById userId st = (Ok VUndefined, emit (Db (ListenToUser userId) (heap st)) st).
Proof. intros E. unfold getUserById, bind, get, usersMap_get. simpl. by rewrite E. Qed.

Lemma deliver_user_Some userId o st :
  deliver_user userId (Some o) st =
  (Ok tt, let l := fresh (dom (heap st)) in
          set_usersMap (map_set userId l (usersMap st))
            (set_heap (<[l := normalized userId o]> (heap st)) st)).
Proof.
  unfold deliver_user, bind, alloc, _listenToPublicUserData_cb. simpl.
  rewrite _savePublicUserInfo_ref. simpl.
  rewrite obj_at_insert, insert_insert_eq. reflexivity.
Qed.

Lemma public_fields_lookup (o : object) k :
  public_fields o !! k =
  if decide (k = "save" \/ k = "id" \/ k = "displayName") then None else o !! k.
Proof.
  unfold public_fields. rewrite !lookup_delete.
  destruct (decide (k = "save" \/ k = "id" \/ k = "displayName")) as [H|H];
    destruct (decide ("displayName" = k)), (decide ("id" = k)), (decide ("save" = k));
    subst; try done; exfalso; intuition congruence.
Qed.

Lemma _updateUser_ref l st :
  let uid := field (obj_at (heap st) l) "id" in
  let pub := public_fields (obj_at (heap st) l) in
  let h1 := <[l := pub]> (heap st) in
  let w := fresh (dom h1) in
  let h2 := <[w := {["publicInfo" := VRef l]}]> h1 in
  _updateUser (VRef l) st =
  (Ok tt, set_usersMap (map_set uid l (usersMap st))
            (set_heap (<[l := normalized uid pub]> h2)
               (emit (Db (SaveToUsersCollection uid (VRef w)) h2) st))).
Proof.
  intros uid pub h1 w h2.
  assert (Hw : w ≠ l).
  { intros E. pose proof (fresh_unused h1) as F. unfold w in E.
    rewrite E in F. unfold h1 in F. by rewrite lookup_insert_eq in F. }
  unfold _updateUser, bind, get_prop, delete_prop, alloc, db. simpl.
  rewrite !obj_at_insert, !insert_insert_eq.
  rewrite _savePublicUserInfo_ref. simpl.
  rewrite obj_at_insert_ne by done. rewrite obj_at_insert.
  fold pub. fold h1. fold w.
  change (<[w:=<["publicInfo":=VRef l]> ∅]> h1) with h2.
  reflexivity.
Qed.

Lemma normalized_public_fields uid (o : object) :
  normalized uid (public_fields o) = normalized uid o.
Proof.
  unfold normalized. apply map_eq. intros k.
  assert (E : field (public_fields o) "email" = field o "email").
  { unfold field. by rewrite public_fields_lookup. }
  rewrite E, !lookup_insert.
  destruct (decide ("id" = k)); [done|].
  destruct (decide ("save" = k)); [done|].
  destruct (decide ("displayName" = k)); [done|].
  rewrite public_fields_lookup. destruct (decide _) as [H|H]; [|done].
  exfalso; intuition congruence.
Qed.

Lemma absent_or_empty_falsy v : absent_or_empty v = true -> falsy v = true.
Proof.
  destruct v; simpl; try done. unfold falsy. simpl. intros ->. done.
Qed.

Lemma emit_all_nil st : emit_all [] st = st.
Proof. destruct st. unfold emit_all. simpl. by rewrite app_nil_r. Qed.

Lemma emit_all_emit e es st : emit_all es (emit e st) = emit_all (e :: es) st.
Proof. unfold emit_all, emit. simpl. by rewrite <- app_assoc. Qed.

Lemma emit_all_emit_r e es st : emit e (emit_all es st) = emit_all (es ++ [e]) st.
Proof. unfold emit_all, emit. simpl. by rewrite <- app_assoc. Qed.

Abbreviation dispatch_to arg :=
  (forEach (fun event => call run_callback event [arg] ;; ret tt)%js).

Lemma dispatch_nil arg st : dispatch_to arg [] st = (Ok tt, st).
Proof. reflexivity. Qed.

Lemma dispatch_cons arg c cbs st :
  dispatch_to arg (c :: cbs) st =
  match run_callback c [arg] st with
  | Returns _ => dispatch_to arg cbs (emit (Invoke c [arg]) st)
  | Raises e => (Thrown e, emit (Invoke c [arg]) st)
  end.
Proof.
  cbn [forEach]. unfold bind at 1. unfold bind at 1. unfold call.
  destruct (run_callback c [arg] st); reflexivity.
Qed.

(** Every callback returns: all of them are called. *)
Lemma forEach_call_ok cbs arg st :
  (forall c s, In c cbs -> exists v, run_callback c [arg] s = Returns v) ->
  dispatch_to arg cbs st = (Ok tt, emit_all (invocations cbs arg) st).
Proof.
  revert st. induction cbs as [|c cbs IH]; intros st Hret.
  - by rewrite dispatch_nil, emit_all_nil.
  - rewrite dispatch_cons.
    destruct (Hret c st (or_introl eq_refl)) as [v ->].
    rewrite IH by (intros; apply Hret; by right).
    by rewrite emit_all_emit.
Qed.

(** The first callback that throws ends the loop. *)
Lemma forEach_call_throw pre c post e arg st :
  (forall c' s, In c' pre -> exists v, run_callback c' [arg] s = Returns v) ->
  (forall s, run_callback c [arg] s = Raises e) ->
  dispatch_to arg (pre ++ c :: post) st
  = (Thrown e, emit_all (invocations (pre ++ [c]) arg) st).
Proof.
  revert st. induction pre as [|c0 pre IH]; intros st Hret Hthrow.
  - cbn [app]. by rewrite dispatch_cons, Hthrow.
  - cbn [app]. rewrite dispatch_cons.
    destruct (Hret c0 st (or_introl eq_refl)) as [v ->].
    rewrite IH; [|intros; apply Hret; by right|done].
    by rewrite emit_all_emit.
Qed.

(** In general the callbacks called are an initial segment of the list,
    cut after the first one that throws. *)
Lemma forEach_call_cases cbs arg st :
  dispatch_to arg cbs st = (Ok tt, emit_all (invocations cbs arg) st)
  \/ exists n c e s,
       cbs !! n = Some c /\ run_callback c [arg] s = Raises e
       /\ dispatch_to arg cbs st
          = (Thrown e, emit_all (invocations (take (S n) cbs) arg) st).
Proof.
  revert st. induction cbs as [|c cbs IH]; intros st.
  - left. by rewrite dispatch_nil, emit_all_nil.
  - rewrite dispatch_cons.
    destruct (run_callback c [arg] st) as [v|e] eqn:R.
    + destruct (IH (emit (Invoke c [arg]) st)) as [E|(n & c' & e & s & Hn & Hr & E)].
      * left. rewrite E. by rewrite emit_all_emit.
      * right. exists (S n), c', e, s. split; [done|]. split; [done|].
        rewrite E. by rewrite emit_all_emit.
    + right. exists 0%nat, c, e, st. split; [done|]. split; [done|].
      cbn [take]. rewrite take_0. reflexivity.
Qed.

Lemma normalized_field uid (o : object) k :
  k <> "id" -> k <> "save" -> k <> "displayName" ->
  field (normalized uid o) k = field o k.
Proof.
  intros. unfold field, normalized. by rewrite !lookup_insert_ne.
Qed.

Lemma normalized_id uid (o : object) : field (normalized uid o) "id" = uid.
Proof. unfold field, normalized. by rewrite lookup_insert_eq. Qed.

Lemma _saveCurrentUserLocally_ref u st :
  let ud := obj_at (heap st) u in
  ref_or_absent (field ud "publicInfo") ->
  _saveCurrentUserLocally (VRef u) st =
  (Ok tt, apply_data (field ud "id") (field ud "publicInfo")
            (field ud "privateInfo") (field ud "serverInfo") st).
Proof.
  intros ud Hp. unfold _saveCurrentUserLocally.
  unfold bind at 1 2 3 4, get_prop at 1 2 3 4. cbn [heap]. fold ud.
  unfold apply_data, apply_public.
  destruct (field ud "publicInfo") as [| | | | | |lp] eqn:Ep; try done; cbn [truthy].
  - unfold bind at 1 2, ret, apply_slice, modify.
    destruct (truthy (field ud "privateInfo")), (truthy (field ud "serverInfo")); reflexivity.
  - unfold bind at 1 2, ret, apply_slice, modify.
    destruct (truthy (field ud "privateInfo")), (truthy (field ud "serverInfo")); reflexivity.
  - unfold bind at 1. unfold bind at 1. unfold bind at 1.
    rewrite _savePublicUserInfo_ref.
    unfold get_prop. cbn [heap set_usersMap set_heap]. rewrite obj_at_insert.
    rewrite normalized_field by done.
    unfold bind, modify, ret, apply_slice.
    destruct (truthy (field (obj_at (heap st) lp) "isOnline")),
      (truthy (field ud "privateInfo")), (truthy (field ud "serverInfo")); reflexivity.
Qed.

Lemma heap_apply_slice set v st :
  (forall x s, heap (set x s) = heap s) -> heap (apply_slice set v st) = heap st.
Proof. intros H. unfold apply_slice. destruct (truthy v); auto. Qed.

Lemma heap_apply_public id p st :
  heap (apply_public id p st) =
  match p with
  | VRef l => <[l := normalized id (obj_at (heap st) l)]> (heap st)
  | _ => heap st
  end.
Proof.
  unfold apply_public. destruct p; try reflexivity.
  destruct (truthy _); reflexivity.
Qed.

Lemma heap_apply_data id p pr sv st :
  heap (apply_data id p pr sv st) = heap (apply_public id p st).
Proof. unfold apply_data. rewrite !heap_apply_slice; done. Qed.

Lemma bind_Ok {A B} (m : M A) (f : A -> M B) st a st' :
  m st = (Ok a, st') -> bind m f st = f a st'.
Proof. intros E. unfold bind. by rewrite E. Qed.

Lemma get_prop_ref l k st : get_prop (VRef l) k st = (Ok (field (obj_at (heap st) l) k), st).
Proof. reflexivity. Qed.

Lemma _listenToCurrentUser_cb_data u st :
  let ud := obj_at (heap st) u in
  let p := field ud "publicInfo" in
  let st1 := apply_data (field ud "id") p (field ud "privateInfo") (field ud "serverInfo") st in
  ref_or_absent p -> p <> VRef u ->
  _listenToCurrentUser_cb run_callback VNull (VRef u) st =
  if falsy (user st) && truthy p then
    let la := fresh (dom (heap st1)) in
    _handleUserEstablished run_callback (VRef la)
      (set_heap (<[la := established_view (field ud "id") p]> (heap st1)) st1)
  else (Ok tt, st1).
Proof.
  intros ud p st1 Hp Hne.
  assert (S : _saveCurrentUserLocally (VRef u) st = (Ok tt, st1)).
  { rewrite _saveCurrentUserLocally_ref by (fold ud; fold p; done). reflexivity. }
  unfold _listenToCurrentUser_cb.
  change (truthy VNull) with false. change (falsy (VRef u)) with false. cbv iota.
  rewrite (bind_Ok get _ st st st eq_refl).
  destruct (falsy (user st)) eqn:Eu; cbn [andb].
  2:{ rewrite (bind_Ok _ _ st (VBool false) st eq_refl).
      by rewrite (bind_Ok _ _ _ _ _ S). }
  rewrite (bind_Ok _ _ _ _ _ (get_prop_ref u "publicInfo" st)). fold ud. fold p.
  rewrite (bind_Ok _ _ _ _ _ S).
  destruct (truthy p) eqn:Ep; [|reflexivity].
  destruct p as [| | | | | |lp] eqn:Epp; try done.
  assert (Hh : heap st1 = <[lp := normalized (field ud "id") (obj_at (heap st) lp)]> (heap st)).
  { unfold st1. by rewrite heap_apply_data, heap_apply_public. }
  assert (Hu : obj_at (heap st1) u = ud).
  { rewrite Hh. rewrite obj_at_insert_ne; [done|]. intros ->. done. }
  assert (Gp : get_prop (VRef u) "publicInfo" st1 = (Ok (VRef lp), st1)).
  { rewrite get_prop_ref, Hu. fold p. by rewrite Epp. }
  assert (Gid : get_prop (VRef lp) "id" st1 = (Ok (field ud "id"), st1)).
  { by rewrite get_prop_ref, Hh, obj_at_insert, normalized_id. }
  rewrite (bind_Ok _ _ _ _ _ Gp), (bind_Ok _ _ _ _ _ Gid), (bind_Ok _ _ _ _ _ Gp).
  unfold bind, alloc. reflexivity.
Qed.

Lemma dispatched_all_return cbs arg on_error seg :
  all_return run_callback cbs ->
  dispatched run_callback cbs arg on_error seg -> seg = invocations cbs arg.
Proof.
  intros Hret [E|(n & c & e & s & Hn & Hr & _)]; [done|].
  destruct (Hret c [arg] s) as [v Hv].
  - apply list_elem_of_In. by eapply list_elem_of_lookup_2.
  - congruence.
Qed.

Lemma _handleUserEstablished_spec arg st :
  exists seg,
    _handleUserEstablished run_callback arg st = (Ok tt, emit_all seg st)
    /\ dispatched run_callback (_onLoginTriggers st) arg ConsoleLog seg.
Proof.
  unfold _handleUserEstablished, try_catch, bind at 1, get.
  destruct (forEach_call_cases (_onLoginTriggers st) arg st)
    as [E|(n & c & e & s & Hn & Hr & E)]; rewrite E.
  - eexists. split; [reflexivity|]. by left.
  - eexists. split.
    + unfold console_log, modify. rewrite <- emit_all_emit_r. reflexivity.
    + right. by exists n, c, e, s.
Qed.

Lemma _handleUserLogout_spec st :
  let l := fresh (dom (heap st)) in
  exists seg,
    _handleUserLogout run_callback st
    = (Ok tt, emit_all seg (set_heap (<[l := full_view st]> (heap st)) st))
    /\ dispatched run_callback (_onLogoutTriggers st) (VRef l) (fun _ => Debugger) seg.
Proof.
  intros l. unfold _handleUserLogout, bind at 1, fullUser, bind at 1, get, alloc.
  fold l. unfold try_catch, bind at 1.
  change (list_to_map _) with (full_view st).
  set (st1 := set_heap _ st).
  change (_onLogoutTriggers st1) with (_onLogoutTriggers st).
  destruct (forEach_call_cases (_onLogoutTriggers st) (VRef l) st1)
    as [E|(n & c & e & s & Hn & Hr & E)]; rewrite E.
  - eexists. split; [reflexivity|]. by left.
  - eexists. split.
    + unfold debugger, modify. rewrite <- emit_all_emit_r. reflexivity.
    + right. by exists n, c, e, s.
Qed.

Lemma deliver_absent_falsy st :
  truthy (userId st) = false ->
  deliver run_callback FeedAbsent st = (Ok tt, set_userId VNull st).
Proof.
  intros E. unfold deliver, _listenToCurrentUser_cb. cbn [truthy falsy negb].
  unfold bind at 1, get. rewrite E. reflexivity.
Qed.

Lemma deliver_absent_truthy st :
  truthy (userId st) = true ->
  let l := fresh (dom (heap st)) in
  exists seg,
    deliver run_callback FeedAbsent st
    = (Ok tt, set_userId VNull
                (emit_all seg (set_heap (<[l := full_view st]> (heap st)) st)))
    /\ dispatched run_callback (_onLogoutTriggers st) (VRef l) (fun _ => Debugger) seg.
Proof.
  intros E l. unfold deliver, _listenToCurrentUser_cb. cbn [truthy falsy negb].
  unfold bind at 1, get. rewrite E. unfold bind at 1.
  destruct (_handleUserLogout_spec st) as (seg & -> & D).
  exists seg. split; [reflexivity|done].
Qed.

(** *** A data payload on the current-user feed *)

Lemma set_heap_same st : set_heap (heap st) st = st.
Proof. by destruct st. Qed.

Lemma alloc_opt_slot o st :
  alloc_opt o st
  = (Ok (alloc_slot o (heap st)).1, set_heap (alloc_slot o (heap st)).2 st).
Proof.
  destruct o; simpl; [reflexivity|]. unfold ret. by rewrite set_heap_same.
Qed.

Lemma alloc_slot_keeps o (h : heap_t) l x :
  h !! l = Some x -> (alloc_slot o h).2 !! l = Some x.
Proof.
  intros E. destruct o; simpl; [|done].
  rewrite lookup_insert_ne; [done|]. intros F.
  pose proof (fresh_unused h) as N. rewrite F in N. congruence.
Qed.

Lemma alloc_slot_value o (h : heap_t) :
  match o with
  | Some x => exists l, (alloc_slot o h).1 = VRef l /\ h !! l = None
                        /\ (alloc_slot o h).2 !! l = Some x
  | None => (alloc_slot o h).1 = VUndefined
  end.
Proof.
  destruct o; simpl; [|done]. eexists. split; [reflexivity|].
  split; [apply fresh_unused|by rewrite lookup_insert_eq].
Qed.

Lemma alloc_slot_fresh o (h : heap_t) l :
  (alloc_slot o h).2 !! l = None -> h !! l = None.
Proof.
  intros E. destruct (h !! l) eqn:F; [|done].
  by rewrite (alloc_slot_keeps o h l _ F) in E.
Qed.

(** The object the backend builds for a data payload. *)
Lemma deliver_data_unfold d st :
  let a1 := alloc_slot (ud_publicInfo d) (heap st) in
  let a2 := alloc_slot (ud_privateInfo d) a1.2 in
  let a3 := alloc_slot (ud_serverInfo d) a2.2 in
  let u := fresh (dom a3.2) in
  let ud : object := list_to_map [("id", VStr (ud_id d)); ("publicInfo", a1.1);
                                  ("privateInfo", a2.1); ("serverInfo", a3.1)] in
  deliver run_callback (FeedData d) st
  = _listenToCurrentUser_cb run_callback VNull (VRef u) (set_heap (<[u := ud]> a3.2) st).
Proof.
  intros a1 a2 a3 u ud. unfold deliver.
  unfold bind at 1. rewrite alloc_opt_slot. fold a1.
  unfold bind at 1. rewrite alloc_opt_slot. cbn [heap set_heap]. fold a2.
  unfold bind at 1. rewrite alloc_opt_slot. cbn [heap set_heap]. fold a3.
  unfold bind at 1, alloc. cbn [heap set_heap]. reflexivity.
Qed.

Lemma payload_fields (id p pr sv : value) :
  let ud : object := list_to_map [("id", id); ("publicInfo", p);
                                  ("privateInfo", pr); ("serverInfo", sv)] in
  field ud "id" = id /\ field ud "publicInfo" = p
  /\ field ud "privateInfo" = pr /\ field ud "serverInfo" = sv.
Proof. repeat split. Qed.

Lemma fresh_not_allocated (h : heap_t) l o : h !! l = Some o -> fresh (dom h) <> l.
Proof. intros E F. pose proof (fresh_unused h) as N. rewrite F in N. congruence. Qed.

Ltac slices :=
  unfold apply_data, apply_slice, apply_public;
  repeat match goal with |- context [truthy ?v] => destruct (truthy v) end;
  cbn; try reflexivity.

Lemma userId_apply_data id p pr sv st :
  userId (apply_data id p pr sv st) = userId (apply_public id p st).
Proof. unfold apply_data, apply_slice. by destruct (truthy pr), (truthy sv). Qed.

Lemma usersMap_apply_data id p pr sv st :
  usersMap (apply_data id p pr sv st) = usersMap (apply_public id p st).
Proof. unfold apply_data, apply_slice. by destruct (truthy pr), (truthy sv). Qed.

Lemma trace_apply_data id p pr sv st : trace (apply_data id p pr sv st) = trace st.
Proof. destruct p; slices. Qed.

Lemma onLogin_apply_data id p pr sv st :
  _onLoginTriggers (apply_data id p pr sv st) = _onLoginTriggers st.
Proof. destruct p; slices. Qed.

Lemma onLogout_apply_data id p pr sv st :
  _onLogoutTriggers (apply_data id p pr sv st) = _onLogoutTriggers st.
Proof. destruct p; slices. Qed.

Lemma apply_data_absent id p pr sv st :
  truthy p = false ->
  userId (apply_data id p pr sv st) = userId st
  /\ usersMap (apply_data id p pr sv st) = usersMap st
  /\ heap (apply_data id p pr sv st) = heap st.
Proof. destruct p; try done; intros _; slices; done. Qed.

(** What one data payload does to the store.  [lp] is where the payload's
    [publicInfo] is allocated and [la] where the argument of the [onLogin]
    hooks is; [seg] is what the delivery adds to the trace. *)
Lemma deliver_data_spec d st :
  exists st' lp la seg,
    deliver run_callback (FeedData d) st = (Ok tt, st')
    /\ heap st !! lp = None
    /\ userId st' = (if is_online (FeedData d) then VStr (ud_id d) else userId st)
    /\ usersMap st' = (if has_public (FeedData d)
                      then map_set (VStr (ud_id d)) lp (usersMap st)
                      else usersMap st)
    /\ (forall pub, ud_publicInfo d = Some pub ->
                    heap st' !! lp = Some (normalized (VStr (ud_id d)) pub))
    /\ _onLoginTriggers st' = _onLoginTriggers st
    /\ _onLogoutTriggers st' = _onLogoutTriggers st
    /\ trace st' = trace st ++ seg
    /\ (if falsy (user st) && has_public (FeedData d)
       then heap st !! la = None
            /\ heap st' !! la = Some (established_view (VStr (ud_id d)) (VRef lp))
            /\ dispatched run_callback (_onLoginTriggers st) (VRef la) ConsoleLog seg
       else seg = [])
    /\ (forall l o, heap st !! l = Some o -> heap st' !! l = Some o).
Proof.
  pose proof (deliver_data_unfold d st) as U. cbv zeta in U. rewrite U. clear U.
  set (a1 := alloc_slot (ud_publicInfo d) (heap st)).
  set (a2 := alloc_slot (ud_privateInfo d) a1.2).
  set (a3 := alloc_slot (ud_serverInfo d) a2.2).
  set (u := fresh (dom a3.2)).
  set (ud := list_to_map _).
  set (h := <[u := ud]> a3.2).
  set (sta := set_heap h st).
  assert (Hkeep : forall l o, heap st !! l = Some o -> a3.2 !! l = Some o).
  { intros l o E. by do 3 apply alloc_slot_keeps. }
  assert (Hu : a3.2 !! u = None) by apply fresh_unused.
  assert (Hud : obj_at (heap sta) u = ud) by apply obj_at_insert.
  destruct (payload_fields (VStr (ud_id d)) a1.1 a2.1 a3.1) as (Fid & Fp & Fpr & Fsv).
  fold ud in Fid, Fp, Fpr, Fsv.
  pose proof (_listenToCurrentUser_cb_data u sta) as L. cbv zeta in L.
  rewrite Hud, Fid, Fp, Fpr, Fsv in L.
  change (user sta) with (user st) in L.
  pose proof (alloc_slot_value (ud_publicInfo d) (heap st)) as V. fold a1 in V.
  unfold has_public, is_online.
  destruct (ud_publicInfo d) as [pub|] eqn:Epub.
  - destruct V as (lp & Ep & Hlp & Hpub).
    assert (Hlp3 : a3.2 !! lp = Some pub) by (by do 2 apply alloc_slot_keeps).
    assert (Hne : u <> lp) by (intros E; rewrite E in Hu; congruence).
    assert (Hobj : obj_at (heap sta) lp = pub).
    { apply obj_at_Some. subst sta h. cbn. by rewrite lookup_insert_ne. }
    rewrite Ep in L. rewrite L; [|done|congruence]. clear L.
    rewrite bool_decide_true by eauto. cbn [truthy].
    set (st1 := apply_data _ _ _ _ sta).
    assert (H1 : heap st1 = <[lp := normalized (VStr (ud_id d)) pub]> h).
    { unfold st1. by rewrite heap_apply_data, heap_apply_public, Hobj. }
    assert (Hid : userId st1 = if truthy (field pub "isOnline")
                               then VStr (ud_id d) else userId st).
    { unfold st1. rewrite userId_apply_data. unfold apply_public. rewrite Hobj.
      destruct (truthy (field pub "isOnline")); reflexivity. }
    assert (Hmap : usersMap st1 = map_set (VStr (ud_id d)) lp (usersMap st)).
    { unfold st1. rewrite usersMap_apply_data. unfold apply_public. rewrite Hobj.
      destruct (truthy (field pub "isOnline")); reflexivity. }
    assert (Hmono : forall l o, heap st !! l = Some o -> heap st1 !! l = Some o).
    { intros l o E. rewrite H1. unfold h.
      rewrite !lookup_insert_ne; [by apply Hkeep| |]; intros F; subst l;
        [apply Hkeep in E|]; congruence. }
    destruct (falsy (user st)) eqn:Eu; cbn [andb].
    + set (la := fresh (dom (heap st1))).
      set (st2 := set_heap _ st1).
      destruct (_handleUserEstablished_spec (VRef la) st2) as (seg & -> & D).
      change (_onLoginTriggers st2) with (_onLoginTriggers st1) in D.
      unfold st1 in D. rewrite onLogin_apply_data in D.
      assert (Hla : heap st1 !! la = None) by apply fresh_unused.
      exists (emit_all seg st2), lp, la, seg.
      split; [reflexivity|]. split; [done|]. cbn.
      split; [done|]. split; [done|].
      split. { intros ? [= <-]. rewrite lookup_insert_ne.
               - by rewrite H1, lookup_insert_eq.
               - intros F. rewrite F, H1, lookup_insert_eq in Hla. congruence. }
      split. { unfold st1. by rewrite onLogin_apply_data. }
      split. { unfold st1. by rewrite onLogout_apply_data. }
      split. { unfold st1. by rewrite trace_apply_data. }
      split. { split.
               - destruct (heap st !! la) eqn:F; [|done].
                 apply Hmono in F. congruence.
               - split; [by rewrite lookup_insert_eq|done]. }
      intros l o E. rewrite lookup_insert_ne; [by apply Hmono|].
      intros F. subst l. apply Hmono in E. congruence.
    + exists st1, lp, lp, [].
      split; [reflexivity|]. split; [done|].
      split; [done|]. split; [done|].
      split. { intros ? [= <-]. by rewrite H1, lookup_insert_eq. }
      split. { unfold st1. by rewrite onLogin_apply_data. }
      split. { unfold st1. by rewrite onLogout_apply_data. }
      split. { unfold st1. by rewrite trace_apply_data, app_nil_r. }
      split; [done|]. done.
  - rewrite V in L. rewrite L; [|done|done]. clear L.
    rewrite bool_decide_false by (intros [? ?]; done).
    cbn [truthy]. rewrite andb_false_r.
    set (st1 := apply_data _ _ _ _ sta).
    destruct (apply_data_absent (VStr (ud_id d)) VUndefined a2.1 a3.1 sta eq_refl)
      as (Aid & Amap & Aheap). fold st1 in Aid, Amap, Aheap.
    exists st1, (fresh (dom (heap st))), (fresh (dom (heap st))), [].
    split; [reflexivity|]. split; [apply fresh_unused|].
    split; [done|]. split; [done|]. split; [done|].
    split. { unfold st1. by rewrite onLogin_apply_data. }
    split. { unfold st1. by rewrite onLogout_apply_data. }
    split. { unfold st1. by rewrite trace_apply_data, app_nil_r. }
    split; [done|].
    intros l o E. rewrite Aheap. unfold sta, h. cbn.
    rewrite lookup_insert_ne; [by apply Hkeep|].
    intros F. subst l. apply Hkeep in E. congruence.
Qed.

(** *** Sequences of deliveries on the current-user feed *)

Lemma deliver_error_spec err st :
  deliver run_callback (FeedError err) st
  = (Ok tt, emit Debugger (set_heap (<[fresh (dom (heap st)) := err]> (heap st)) st)).
Proof. reflexivity. Qed.

Lemma deliver_absent_spec st :
  exists st', deliver run_callback FeedAbsent st = (Ok tt, st')
    /\ userId st' = VNull /\ usersMap st' = usersMap st
    /\ _onLoginTriggers st' = _onLoginTriggers st
    /\ _onLogoutTriggers st' = _onLogoutTriggers st.
Proof.
  destruct (truthy (userId st)) eqn:E.
  - destruct (deliver_absent_truthy st E) as (seg & -> & _). by eexists.
  - rewrite (deliver_absent_falsy st E). by eexists.
Qed.

(** Every delivery returns: the handler never throws. *)
Lemma deliver_returns e st : (deliver run_callback e st).1 = Ok tt.
Proof.
  destruct e as [err| |d].
  - by rewrite deliver_error_spec.
  - by destruct (deliver_absent_spec st) as (st' & -> & _).
  - by destruct (deliver_data_spec d st) as (st' & lp & la & seg & -> & _).
Qed.

Lemma deliver_userId e st :
  userId (exec (deliver run_callback e) st) =
  match e with
  | FeedError _ => userId st
  | FeedAbsent => VNull
  | FeedData d => if is_online e then VStr (ud_id d) else userId st
  end.
Proof.
  unfold exec. destruct e as [err| |d].
  - by rewrite deliver_error_spec.
  - by destruct (deliver_absent_spec st) as (st' & -> & ? & _).
  - by destruct (deliver_data_spec d st) as (st' & lp & la & seg & -> & _ & ? & _).
Qed.

Lemma deliver_triggers e st :
  _onLoginTriggers (exec (deliver run_callback e) st) = _onLoginTriggers st
  /\ _onLogoutTriggers (exec (deliver run_callback e) st) = _onLogoutTriggers st.
Proof.
  unfold exec. destruct e as [err| |d].
  - by rewrite deliver_error_spec.
  - by destruct (deliver_absent_spec st) as (st' & -> & _ & _ & ? & ?).
  - by destruct (deliver_data_spec d st)
      as (st' & lp & la & seg & -> & _ & _ & _ & _ & ? & ? & _).
Qed.

Lemma deliver_consistent e st :
  consistent st -> consistent (exec (deliver run_callback e) st).
Proof.
  intros [Hnull Hid]. unfold exec, consistent. destruct e as [err| |d].
  - by rewrite deliver_error_spec.
  - destruct (deliver_absent_spec st) as (st' & -> & Eid & Emap & _). cbn.
    rewrite Eid, Emap. split; [done|by left].
  - destruct (deliver_data_spec d st)
      as (st' & lp & la & seg & -> & _ & Eid & Emap & _). cbn.
    rewrite Eid, Emap. unfold has_public, is_online.
    destruct (ud_publicInfo d) as [pub|].
    + rewrite bool_decide_true by eauto.
      split; [by rewrite map_get_set_ne|].
      destruct (truthy (field pub "isOnline")).
      * right. exists (ud_id d), lp. split; [done|apply map_get_set].
      * destruct Hid as [->|(s & l & -> & Hl)]; [by left|right].
        destruct (decide (VStr (ud_id d) = VStr s)) as [->|Hne].
        -- exists s, lp. split; [done|apply map_get_set].
        -- exists s, l. split; [done|by rewrite map_get_set_ne].
    + rewrite bool_decide_false by (intros [? ?]; done). done.
Qed.

Lemma consistent_user st :
  consistent st -> falsy (user st) = negb (non_null (userId st)).
Proof.
  intros [Hnull [E|(s & l & E & Hl)]]; unfold user, usersMap_get; rewrite E.
  - by rewrite Hnull.
  - by rewrite Hl.
Qed.

Lemma run_feed_snoc events e st :
  run_feed run_callback (events ++ [e]) st
  = exec (deliver run_callback e) (run_feed run_callback events st).
Proof. unfold run_feed. by rewrite fold_left_app. Qed.

Lemma established_from_snoc b events e :
  established_from b (events ++ [e])
  = match e with
    | FeedAbsent => false
    | _ => if is_online e then true else established_from b events
    end.
Proof. unfold established_from. by rewrite fold_left_app. Qed.

Lemma run_feed_invariant events st :
  consistent st ->
  let st' := run_feed run_callback events st in
  consistent st'
  /\ non_null (userId st') = established_from (non_null (userId st)) events
  /\ _onLoginTriggers st' = _onLoginTriggers st
  /\ _onLogoutTriggers st' = _onLogoutTriggers st.
Proof.
  intros Hc. induction events as [|e events IH] using rev_ind; [done|].
  cbv zeta in *. rewrite run_feed_snoc, established_from_snoc.
  destruct IH as (IHc & IHid & IHin & IHout).
  destruct (deliver_triggers e (run_feed run_callback events st)) as [-> ->].
  split; [by apply deliver_consistent|]. split; [|done].
  rewrite deliver_userId. destruct e as [err| |d]; [| done |].
  - done.
  - destruct (is_online (FeedData d)); done.
Qed.

Lemma forEach_onLogin cbs st :
  forEach onLogin cbs st = (Ok tt, set_onLoginTriggers (_onLoginTriggers st ++ cbs) st).
Proof.
  revert st. induction cbs as [|c cbs IH]; intros st.
  - destruct st. unfold set_onLoginTriggers. simpl. by rewrite app_nil_r.
  - cbn [forEach]. rewrite (bind_Ok (onLogin c) _ st tt _ eq_refl), IH.
    unfold set_onLoginTriggers. simpl. by rewrite <- app_assoc.
Qed.

Lemma forEach_onLogout cbs st :
  forEach onLogout cbs st = (Ok tt, set_onLogoutTriggers (_onLogoutTriggers st ++ cbs) st).
Proof.
  revert st. induction cbs as [|c cbs IH]; intros st.
  - destruct st. unfold set_onLogoutTriggers. simpl. by rewrite app_nil_r.
  - cbn [forEach]. rewrite (bind_Ok (onLogout c) _ st tt _ eq_refl), IH.
    unfold set_onLogoutTriggers. simpl. by rewrite <- app_assoc.
Qed.

(** Registering hooks on the fresh store fills the two arrays and nothing
    else. *)
Lemma with_hooks_eq on_login on_logout :
  with_hooks on_login on_logout
  = set_onLoginTriggers on_login (set_onLogoutTriggers on_logout initial).
Proof.
  unfold with_hooks, exec, register_hooks.
  rewrite (bind_Ok _ _ _ _ _ (forEach_onLogin on_login initial)), forEach_onLogout.
  reflexivity.
Qed.

Lemma with_hooks_consistent on_login on_logout : consistent (with_hooks on_login on_logout).
Proof. rewrite with_hooks_eq. split; [done|by left]. Qed.

(** *** Strings *)







Lemma starts_with_spec q s : starts_with q s = true <-> exists post, s = q +:+ post.
Proof.
  revert s. induction q as [|a q IH]; intros s; simpl.
  - split; [by exists s|done].
  - destruct s as [|b s]; [split; [done|by intros [? ?]]|].
    rewrite andb_true_iff, IH. split.
    + intros [Hab (post & ->)]. apply Ascii.eqb_eq in Hab as ->. by exists post.
    + intros (post & [= -> ->]). split; [apply Ascii.eqb_refl|by exists post].
Qed.



(** *** Searching the cache *)

Lemma search_entries_spec field_name q entries results st :
  search_entries field_name (VStr q) entries results st
  = (Ok (results ++ map VRef (List.filter (field_matches (heap st) field_name q)
                                          (map snd entries))), st).
Proof.
  revert results. induction entries as [|[uid l] entries IH]; intros results.
  - simpl. unfold ret. by rewrite app_nil_r.
  - cbn [search_entries map snd List.filter truthy].
    unfold bind at 1.
    assert (E : (v <- get_prop (VRef l) field_name ;;
                 if is_string v then
                   v <- get_prop (VRef l) field_name ;;
                   s <- method_toUpperCase v ;;
                   q0 <- method_toUpperCase (VStr q) ;;
                   ret (includes s q0)
                 else ret false)%js st
                = (Ok (field_matches (heap st) field_name q l), st)).
    { rewrite (bind_Ok _ _ _ _ _ (get_prop_ref l field_name st)). unfold field_matches.
      destruct (field (obj_at (heap st) l) field_name) as [| | | |s| |] eqn:F;
        try reflexivity.
      cbn [is_string]. rewrite (bind_Ok _ _ _ _ _ (get_prop_ref l field_name st)), F.
      reflexivity. }
    rewrite E, IH.
    destruct (field_matches (heap st) field_name q l); [|done].
    by rewrite <- app_assoc.
Qed.

(** A key that is new to the [Map] goes to the end of the iteration order. *)
Lemma map_set_new k l m : map_get k m = None -> map_set k l m = m ++ [(k, l)].
Proof.
  induction m as [|[k' l'] m IH]; simpl; [done|].
  destruct (decide (k' = k)); [done|]. intros E. by rewrite IH.
Qed.


(** *** The dispatch, exactly *)

Lemma forEach_call_exact cbs arg st :
  ((forall k c, cbs !! k = Some c ->
      exists v, run_callback c [arg] (emit_all (invocations (take k cbs) arg) st) = Returns v)
   /\ dispatch_to arg cbs st = (Ok tt, emit_all (invocations cbs arg) st))
  \/ exists n c e,
       cbs !! n = Some c
       /\ (forall k c', (k < n)%nat -> cbs !! k = Some c' ->
             exists v, run_callback c' [arg] (emit_all (invocations (take k cbs) arg) st)
                       = Returns v)
       /\ run_callback c [arg] (emit_all (invocations (take n cbs) arg) st) = Raises e
       /\ dispatch_to arg cbs st
          = (Thrown e, emit_all (invocations (take (S n) cbs) arg) st).
Proof.
  revert st. induction cbs as [|c cbs IH]; intros st.
  - left. split; [intros k c Hk; by rewrite lookup_nil in Hk|].
    by rewrite dispatch_nil, emit_all_nil.
  - rewrite dispatch_cons.
    destruct (run_callback c [arg] st) as [v|e] eqn:R.
    + destruct (IH (emit (Invoke c [arg]) st))
        as [[Hall E]|(n & c' & e & Hn & Hbefore & Hr & E)].
      * left. split.
        -- intros [|k] c0 Hk.
           ++ injection Hk as <-. exists v. by rewrite take_0, emit_all_nil.
           ++ destruct (Hall k c0 Hk) as [v0 Hv0]. exists v0.
              change (invocations (take (S k) (c :: cbs)) arg)
                with (Invoke c [arg] :: invocations (take k cbs) arg).
              by rewrite <- emit_all_emit.
        -- rewrite E. by rewrite emit_all_emit.
      * right. exists (S n), c', e. split; [done|]. split; [|split].
        -- intros [|k] c0 Hlt Hk.
           ++ injection Hk as <-. exists v. by rewrite take_0, emit_all_nil.
           ++ destruct (Hbefore k c0 ltac:(lia) Hk) as [v0 Hv0]. exists v0.
              change (invocations (take (S k) (c :: cbs)) arg)
                with (Invoke c [arg] :: invocations (take k cbs) arg).
              by rewrite <- emit_all_emit.
        -- change (invocations (take (S n) (c :: cbs)) arg)
             with (Invoke c [arg] :: invocations (take n cbs) arg).
           by rewrite <- emit_all_emit.
        -- rewrite E. by rewrite emit_all_emit.
    + right. exists 0%nat, c, e. split; [done|]. split; [intros; lia|]. split.
      * by rewrite take_0, emit_all_nil.
      * cbn [take]. rewrite take_0. reflexivity.
Qed.

Lemma _handleUserLogout_exact st :
  let l := fresh (dom (heap st)) in
  let st1 := set_heap (<[l := full_view st]> (heap st)) st in
  exists seg,
    _handleUserLogout run_callback st = (Ok tt, emit_all seg st1)
    /\ dispatched_until_throw run_callback (_onLogoutTriggers st) (VRef l)
         (fun _ => Debugger) st1 seg.
Proof.
  intros l st1. unfold _handleUserLogout, bind at 1, fullUser, bind at 1, get, alloc.
  fold l. unfold try_catch, bind at 1.
  change (list_to_map _) with (full_view st). fold st1.
  change (_onLogoutTriggers st1) with (_onLogoutTriggers st).
  destruct (forEach_call_exact (_onLogoutTriggers st) (VRef l) st1)
    as [[Hall E]|(n & c & e & Hn & Hbefore & Hr & E)]; rewrite E.
  - eexists. split; [reflexivity|]. by left.
  - eexists. split.
    + unfold debugger, modify. rewrite <- emit_all_emit_r. reflexivity.
    + right. by exists n, c, e.
Qed.

Lemma deliver_absent_truthy_exact st :
  truthy (userId st) = true ->
  let l := fresh (dom (heap st)) in
  let st1 := set_heap (<[l := full_view st]> (heap st)) st in
  exists seg,
    deliver run_callback FeedAbsent st = (Ok tt, set_userId VNull (emit_all seg st1))
    /\ dispatched_until_throw run_callback (_onLogoutTriggers st) (VRef l)
         (fun _ => Debugger) st1 seg.
Proof.
  intros E l st1. unfold deliver, _listenToCurrentUser_cb. cbn [truthy falsy negb].
  unfold bind at 1, get. rewrite E. unfold bind at 1.
  destruct (_handleUserLogout_exact st) as (seg & -> & D).
  exists seg. split; [reflexivity|done].
Qed.

Lemma dispatched_until_throw_all_return cbs arg on_error st seg :
  all_return run_callback cbs ->
  dispatched_until_throw run_callback cbs arg on_error st seg -> seg = invocations cbs arg.
Proof.
  intros Hret [[_ E]|(n & c & e & Hn & _ & Hr & _)]; [done|].
  destruct (Hret c [arg] (emit_all (invocations (take n cbs) arg) st)) as [v Hv].
  - apply list_elem_of_In. by eapply list_elem_of_lookup_2.
  - congruence.
Qed.

Lemma _handleUserEstablished_exact arg st :
  exists seg,
    _handleUserEstablished run_callback arg st = (Ok tt, emit_all seg st)
    /\ dispatched_until_throw run_callback (_onLoginTriggers st) arg ConsoleLog st seg.
Proof.
  unfold _handleUserEstablished, try_catch, bind at 1, get.
  destruct (forEach_call_exact (_onLoginTriggers st) arg st)
    as [[Hall E]|(n & c & e & Hn & Hbefore & Hr & E)]; rewrite E.
  - eexists. split; [reflexivity|]. by left.
  - eexists. split.
    + unfold console_log, modify. rewrite <- emit_all_emit_r. reflexivity.
    + right. by exists n, c, e.
Qed.

(** ** The claims *)

(** C1 (as amended).  After any sequence of deliveries on the current-user
    feed, [userId] is non-null exactly when some [publicInfo] payload with
    [isOnline] set has been applied and no absence signal has come after
    it.  A later payload that is not online does not clear [userId]. *)
Theorem userId_set_iff_online_payload_since_last_absence on_login on_logout events :
  non_null (userId (run_feed run_callback events (with_hooks on_login on_logout)))
  = established events.
Proof.
  pose proof (run_feed_invariant events _ (with_hooks_consistent on_login on_logout)) as H.
  cbv zeta in H. destruct H as (_ & -> & _).
  by rewrite with_hooks_eq.
Qed.

(** C2 (as amended).  A data payload fires the [onLogin] hooks exactly when
    it carries [publicInfo] and no online [publicInfo] payload has been
    applied since the last absence signal, whether or not the payload itself
    is online.  The hooks then run once, in registration order, with
    [{id, publicInfo}] holding the normalized profile.  Once an online
    payload has been applied, later payloads fire nothing.  The test is made
    on the state before the payload is applied ([user] absent); after an
    online payload is applied [user] is present. *)
Theorem onLogin_fires_while_no_user_is_set on_login on_logout events d :
  let st := run_feed run_callback events (with_hooks on_login on_logout) in
  exists st' lp la seg,
    deliver run_callback (FeedData d) st = (Ok tt, st')
    /\ trace st' = trace st ++ seg
    /\ falsy (user st) = negb (established events)
    /\ (if negb (established events) && has_public (FeedData d)
       then heap st !! la = None
            /\ heap st' !! la = Some (established_view (VStr (ud_id d)) (VRef lp))
            /\ (forall pub, ud_publicInfo d = Some pub ->
                            heap st' !! lp = Some (normalized (VStr (ud_id d)) pub))
            /\ dispatched run_callback on_login (VRef la) ConsoleLog seg
            /\ (all_return run_callback on_login -> seg = invocations on_login (VRef la))
       else seg = [])
    /\ (is_online (FeedData d) = true -> falsy (user st') = false).
Proof.
  intros st.
  pose proof (run_feed_invariant events _ (with_hooks_consistent on_login on_logout)) as H.
  cbv zeta in H. fold st in H. destruct H as (Hc & Hid & Hin & _).
  rewrite with_hooks_eq in Hin, Hid.
  change (_onLoginTriggers (set_onLoginTriggers on_login _)) with on_login in Hin.
  change (userId (set_onLoginTriggers on_login _)) with VNull in Hid.
  cbn [non_null] in Hid. fold (established events) in Hid.
  pose proof (consistent_user st Hc) as Hu. rewrite Hid in Hu.
  pose proof (deliver_consistent (FeedData d) st Hc) as Hc'.
  pose proof (deliver_userId (FeedData d) st) as Hid'.
  unfold exec in Hc', Hid'.
  destruct (deliver_data_spec d st)
    as (st' & lp & la & seg & E & Hlp & _ & _ & Hpub & _ & _ & Htr & Hseg & _).
  rewrite E in Hc', Hid'. cbn [snd] in Hc', Hid'.
  exists st', lp, la, seg.
  split; [done|]. split; [done|]. split; [done|]. split.
  - rewrite Hu, Hin in Hseg.
    destruct (negb (established events) && has_public (FeedData d)); [|done].
    destruct Hseg as (Hla & Harg & D).
    split; [done|]. split; [done|]. split; [done|]. split; [done|].
    intros Hret. by eapply dispatched_all_return.
  - intros Hon. rewrite (consistent_user st' Hc'), Hid', Hon. done.
Qed.

(** C3 (as amended).  When a hook throws during a dispatch, the error is
    caught and the delivery returns normally, but the dispatch ends there:
    the hooks registered before the throwing one have run once each, in
    order, and those registered after it are not called.  An [onLogin]
    error is then logged to the console; after an [onLogout] dispatch
    [userId] is still cleared.  No delivery on the feed ever throws. *)
Theorem throwing_hook_is_caught_and_ends_dispatch pre c post e st :
  (forall c' a s, In c' pre -> exists v, run_callback c' a s = Returns v) ->
  (forall a s, run_callback c a s = Raises e) ->
  (_onLoginTriggers st = pre ++ c :: post ->
   forall arg,
     _handleUserEstablished run_callback arg st
     = (Ok tt, emit_all (invocations (pre ++ [c]) arg ++ [ConsoleLog e]) st))
  /\ (_onLogoutTriggers st = pre ++ c :: post ->
      truthy (userId st) = true ->
      exists l tail st',
        deliver run_callback FeedAbsent st = (Ok tt, st')
        /\ userId st' = VNull
        /\ trace st' = trace st ++ invocations (pre ++ [c]) (VRef l) ++ tail
        /\ Forall (fun x => is_invoke x = false) tail)
  /\ (forall ev, (deliver run_callback ev st).1 = Ok tt).
Proof.
  intros Hpre Hc. split; [|split; [|intros ev; apply deliver_returns]].
  - intros Ht arg. unfold _handleUserEstablished, try_catch, bind at 1, get.
    rewrite Ht, (forEach_call_throw pre c post e arg st) by eauto.
    unfold console_log, modify. by rewrite emit_all_emit_r.
  - intros Ht Hu. exists (fresh (dom (heap st))), [Debugger].
    unfold deliver, _listenToCurrentUser_cb. cbn [truthy falsy negb].
    unfold bind at 1, get. rewrite Hu. unfold bind at 1.
    unfold _handleUserLogout, bind at 1, fullUser, bind at 1, get, alloc.
    unfold try_catch, bind at 1. cbn [_onLogoutTriggers set_heap].
    rewrite Ht, (forEach_call_throw pre c post e) by eauto.
    eexists. split; [reflexivity|]. cbn.
    split; [done|]. split; [by rewrite <- app_assoc|].
    by constructor.
Qed.

(** C4 (as amended).  An absence signal always ends with [userId] null and
    the cache and the private and server slices as they were.  When [userId]
    was truthy (neither null nor the empty string) the [onLogout] hooks are
    dispatched once, in registration order, each with the same new object
    [{id, public, private, server}] built from the state before [userId] is
    cleared: every hook exactly once when none throws, otherwise the hooks
    up to and including the first one that throws and no hook after it.
    When [userId] was not truthy no hook is called and heap and trace are
    unchanged. *)
Theorem absence_runs_onLogout_with_full_view st :
  exists st',
    deliver run_callback FeedAbsent st = (Ok tt, st')
    /\ userId st' = VNull
    /\ usersMap st' = usersMap st
    /\ privateInfo st' = privateInfo st
    /\ serverInfo st' = serverInfo st
    /\ if truthy (userId st) then
         exists l seg,
           heap st !! l = None
           /\ heap st' = <[l := full_view st]> (heap st)
           /\ trace st' = trace st ++ seg
           /\ dispatched_until_throw run_callback (_onLogoutTriggers st) (VRef l)
                (fun _ => Debugger) (set_heap (<[l := full_view st]> (heap st)) st) seg
           /\ (all_return run_callback (_onLogoutTriggers st) ->
               seg = invocations (_onLogoutTriggers st) (VRef l))
       else heap st' = heap st /\ trace st' = trace st.
Proof.
  destruct (truthy (userId st)) eqn:E.
  - destruct (deliver_absent_truthy_exact st E) as (seg & -> & D).
    eexists. split; [reflexivity|]. cbn. repeat split.
    exists (fresh (dom (heap st))), seg.
    split; [apply fresh_unused|]. repeat split; [done|].
    intros Hret. by eapply dispatched_until_throw_all_return.
  - rewrite (deliver_absent_falsy st E). eexists. split; [reflexivity|].
    cbn. repeat split.
Qed.

(** C5.  When the credentials lack an [email] or a [password] (absent or
    the empty string), [createUser] builds the error object
    [{message: "You must provide an email and password"}], calls the
    callback with it and returns what the callback returns.  The trace gains
    that one invocation and no backend call; [userId], [usersMap],
    [privateInfo], [serverInfo] and every existing object are unchanged. *)
Theorem createUser_rejects_missing_credentials user callback st :
  missing_credentials (heap st) user = true ->
  exists l st',
    heap st !! l = None
    /\ exec (createUser run_callback user callback) st = st'
    /\ heap st' = <[l := {["message" := VStr "You must provide an email and password"]}]> (heap st)
    /\ trace st' = trace st ++ [Invoke callback [VRef l]]
    /\ userId st' = userId st
    /\ usersMap st' = usersMap st
    /\ privateInfo st' = privateInfo st
    /\ serverInfo st' = serverInfo st
    /\ _onLoginTriggers st' = _onLoginTriggers st
    /\ _onLogoutTriggers st' = _onLogoutTriggers st
    /\ (createUser run_callback user callback st).1 =
       match run_callback callback [VRef l]
               (set_heap (<[l := {["message" := VStr "You must provide an email and password"]}]>
                            (heap st)) st) with
       | Returns v => Ok v
       | Raises e => Thrown e
       end.
Proof.
  intros Hmiss.
  exists (fresh (dom (heap st))).
  assert (E : createUser run_callback user callback st =
              (err <- alloc {["message" := VStr "You must provide an email and password"]} ;;
               call run_callback callback [err])%js st).
  { unfold createUser, bind at 1 2.
    destruct user; simpl in *; try reflexivity.
    - unfold falsy at 1; simpl. destruct b; reflexivity.
    - unfold bind, get_prop, falsy; simpl. destruct (n =? 0)%Z; reflexivity.
    - unfold bind, get_prop, falsy; simpl. destruct (String.eqb s ""); reflexivity.
    - unfold bind, get_prop. simpl.
      destruct (falsy (field (obj_at (heap st) l) "email")) eqn:He; simpl; [reflexivity|].
      apply orb_true_iff in Hmiss as [H|H]; apply absent_or_empty_falsy in H.
      + congruence.
      + rewrite H. reflexivity. }
  unfold exec. rewrite E. unfold bind, alloc, call. simpl.
  eexists. split; [apply fresh_unused|].
  match goal with
  | |- context [run_callback ?a ?b ?c] => destruct (run_callback a b c) eqn:R
  end; simpl; rewrite ?R; repeat split; reflexivity.
Qed.

(** C6.  On a cache hit [getUserById] returns the cached profile and
    leaves the state, its trace included, as it is.  On a miss it returns
    [undefined] and adds exactly one call [userDb.listenToUser(userId)] to
    the trace.  Once that subscription has delivered a profile, it is
    cached (normalized) and [getUserById] returns it without a new call. *)
Theorem getUserById_cache_or_fetch userId st :
  match map_get userId (usersMap st) with
  | Some l => getUserById userId st = (Ok (VRef l), st)
  | None =>
      getUserById userId st = (Ok VUndefined, emit (Db (ListenToUser userId) (heap st)) st)
  end
  /\ forall st1 profile,
       let st2 := exec (deliver_user userId (Some profile)) st1 in
       exists l, heap st1 !! l = None
                 /\ heap st2 !! l = Some (normalized userId profile)
                 /\ getUserById userId st2 = (Ok (VRef l), st2).
Proof.
  split.
  - destruct (map_get userId (usersMap st)) eqn:E.
    + by apply getUserById_hit.
    + by apply getUserById_miss.
  - intros st1 profile st2. exists (fresh (dom (heap st1))).
    subst st2. unfold exec. rewrite deliver_user_Some. simpl.
    split; [apply fresh_unused|]. split; [by rewrite lookup_insert_eq|].
    apply getUserById_hit. simpl. apply map_get_set.
Qed.


(** C8 (as amended).  [logout] calls [userDb.logout] with the current
    user's public profile ([user], the cache entry of [userId], [undefined]
    when there is none), not with the composite view; it then sets [userId]
    to [null] in the same call and leaves [usersMap], [privateInfo],
    [serverInfo] and every object as they were. *)
Theorem logout_passes_public_profile st :
  exists st', logout st = (Ok tt, st')
    /\ trace st' = trace st ++ [Db (Logout (user st)) (heap st)]
    /\ userId st' = VNull
    /\ usersMap st' = usersMap st
    /\ privateInfo st' = privateInfo st
    /\ serverInfo st' = serverInfo st
    /\ heap st' = heap st.
Proof. eexists. split; [reflexivity|]. simpl. repeat split. Qed.

(** C9.  Calling [save] on a profile that carries the store's [save]
    method hands [userDb.saveToUsersCollection] the profile's [id] and
    [{publicInfo: profile}]; in the heap [h] of that moment the profile
    holds exactly its fields other than [save], [id] and [displayName].
    Afterwards the profile has [displayName], [save] and [id] again and is
    the cache entry of its [id].  No other object that existed before is
    touched. *)
Theorem save_sends_public_fields_and_restores l (o : object) st :
  heap st !! l = Some o ->
  o !! "save" = Some (VFun F_updateUser) ->
  exists w h st',
    save (VRef l) st = (Ok tt, st')
    /\ trace st' = trace st ++ [Db (SaveToUsersCollection (field o "id") (VRef w)) h]
    /\ h !! w = Some {["publicInfo" := VRef l]}
    /\ h !! l = Some (public_fields o)
    /\ (forall k, public_fields o !! k =
                  if decide (k = "save" \/ k = "id" \/ k = "displayName") then None else o !! k)
    /\ heap st' !! l = Some (normalized (field o "id") o)
    /\ map_get (field o "id") (usersMap st') = Some l
    /\ (forall l', l' <> l -> l' <> w -> heap st' !! l' = heap st !! l').
Proof.
  intros Ho Hsave.
  pose proof (_updateUser_ref l st) as U. simpl in U.
  rewrite (obj_at_Some _ _ _ Ho) in U.
  set (h1 := <[l := public_fields o]> (heap st)) in *.
  set (w := fresh (dom h1)) in *.
  assert (Hw : w ≠ l).
  { intros E. pose proof (fresh_unused h1) as F. fold w in F.
    rewrite E in F. unfold h1 in F. by rewrite lookup_insert_eq in F. }
  eexists w, _, _. split.
  { unfold save, bind, get_prop. simpl. rewrite (obj_at_Some _ _ _ Ho).
    unfold field. rewrite Hsave. simpl. exact U. }
  simpl. split; [reflexivity|].
  split; [by rewrite lookup_insert_eq|].
  split; [rewrite lookup_insert_ne by done; unfold h1; by rewrite lookup_insert_eq|].
  split; [apply public_fields_lookup|].
  split; [by rewrite lookup_insert_eq, normalized_public_fields|].
  split; [apply map_get_set|].
  intros l' H1 H2. rewrite !lookup_insert_ne by done. unfold h1.
  by rewrite lookup_insert_ne.
Qed.

(** C10.  When the subscription [getUserById] opened for [userId] delivers
    no profile ([null], [undefined] or any other falsy value),
    [_savePublicUserInfo] returns at once and the whole state is as before:
    no cache entry is made or replaced and nothing is normalized.  If the
    cache had no entry for [userId], [getUserById] still returns
    [undefined] afterwards. *)
Theorem absent_profile_leaves_store_untouched userId err v st :
  falsy v = true ->
  _listenToPublicUserData_cb userId err v st = (Ok tt, st)
  /\ deliver_user userId None st = (Ok tt, st)
  /\ (map_get userId (usersMap st) = None ->
      (getUserById userId (exec (_listenToPublicUserData_cb userId err v) st)).1 = Ok VUndefined).
Proof.
  intros E. unfold _listenToPublicUserData_cb, deliver_user, exec.
  rewrite (_savePublicUserInfo_falsy _ _ _ E).
  split; [done|]. split; [done|].
  intros Hmiss. unfold _listenToPublicUserData_cb. simpl.
  unfold getUserById, bind, get, usersMap_get. simpl. by rewrite Hmiss.
Qed.

(** ** Beyond the claims: payloads, invariants and compositions *)

Lemma privateInfo_apply_data id p pr sv st :
  privateInfo (apply_data id p pr sv st) = if truthy pr then pr else privateInfo st.
Proof. destruct p; slices. Qed.

Lemma serverInfo_apply_data id p pr sv st :
  serverInfo (apply_data id p pr sv st) = if truthy sv then sv else serverInfo st.
Proof. destruct p; slices. Qed.

Lemma alloc_user_data_unfold d st :
  let a1 := alloc_slot (ud_publicInfo d) (heap st) in
  let a2 := alloc_slot (ud_privateInfo d) a1.2 in
  let a3 := alloc_slot (ud_serverInfo d) a2.2 in
  let u := fresh (dom a3.2) in
  let ud : object := list_to_map [("id", VStr (ud_id d)); ("publicInfo", a1.1);
                                  ("privateInfo", a2.1); ("serverInfo", a3.1)] in
  alloc_user_data d st = (Ok (VRef u), set_heap (<[u := ud]> a3.2) st).
Proof.
  intros a1 a2 a3 u ud. unfold alloc_user_data.
  unfold bind at 1. rewrite alloc_opt_slot. fold a1.
  unfold bind at 1. rewrite alloc_opt_slot. cbn [heap set_heap]. fold a2.
  unfold bind at 1. rewrite alloc_opt_slot. cbn [heap set_heap]. fold a3.
  unfold alloc. cbn [heap set_heap]. reflexivity.
Qed.

(** A payload built by the backend and applied by [_saveCurrentUserLocally]:
    [sta] is the store once the payload [u] is built, [st1] the store once
    it is applied, [lp] the location of its [publicInfo]. *)
Lemma payload_spec d st :
  exists u sta st1 lp,
    alloc_user_data d st = (Ok (VRef u), sta)
    /\ _saveCurrentUserLocally (VRef u) sta = (Ok tt, st1)
    /\ deliver run_callback (FeedData d) st
       = (if falsy (user st) && has_public (FeedData d) then
            _handleUserEstablished run_callback (VRef (fresh (dom (heap st1))))
              (set_heap (<[fresh (dom (heap st1))
                           := established_view (VStr (ud_id d)) (VRef lp)]> (heap st1)) st1)
          else (Ok tt, st1))
    /\ heap st !! lp = None
    /\ userId st1 = (if is_online (FeedData d) then VStr (ud_id d) else userId st)
    /\ usersMap st1 = (if has_public (FeedData d)
                      then map_set (VStr (ud_id d)) lp (usersMap st)
                      else usersMap st)
    /\ (forall pub, ud_publicInfo d = Some pub ->
                    heap st1 !! lp = Some (normalized (VStr (ud_id d)) pub))
    /\ slot_applied (ud_privateInfo d) (privateInfo st) (privateInfo st1) (heap st) (heap st1)
    /\ slot_applied (ud_serverInfo d) (serverInfo st) (serverInfo st1) (heap st) (heap st1)
    /\ _onLoginTriggers st1 = _onLoginTriggers st
    /\ _onLogoutTriggers st1 = _onLogoutTriggers st
    /\ trace st1 = trace st
    /\ (forall l o, heap st !! l = Some o -> heap st1 !! l = Some o).
Proof.
  pose proof (deliver_data_unfold d st) as U. cbv zeta in U. rewrite U. clear U.
  pose proof (alloc_user_data_unfold d st) as U. cbv zeta in U. rewrite U. clear U.
  set (a1 := alloc_slot (ud_publicInfo d) (heap st)).
  set (a2 := alloc_slot (ud_privateInfo d) a1.2).
  set (a3 := alloc_slot (ud_serverInfo d) a2.2).
  set (u := fresh (dom a3.2)).
  set (ud := list_to_map _).
  set (h := <[u := ud]> a3.2).
  set (sta := set_heap h st).
  assert (K1 : forall l o, heap st !! l = Some o -> a1.2 !! l = Some o)
    by (intros; by apply alloc_slot_keeps).
  assert (K2 : forall l o, a1.2 !! l = Some o -> a2.2 !! l = Some o)
    by (intros; by apply alloc_slot_keeps).
  assert (K3 : forall l o, a2.2 !! l = Some o -> a3.2 !! l = Some o)
    by (intros; by apply alloc_slot_keeps).
  assert (Hu : a3.2 !! u = None) by apply fresh_unused.
  assert (Kh : forall l o, a3.2 !! l = Some o -> h !! l = Some o).
  { intros l o E. unfold h. rewrite lookup_insert_ne; [done|].
    intros F. rewrite F in Hu. congruence. }
  assert (Hud : obj_at (heap sta) u = ud) by apply obj_at_insert.
  destruct (payload_fields (VStr (ud_id d)) a1.1 a2.1 a3.1) as (Fid & Fp & Fpr & Fsv).
  fold ud in Fid, Fp, Fpr, Fsv.
  pose proof (_listenToCurrentUser_cb_data u sta) as L. cbv zeta in L.
  pose proof (_saveCurrentUserLocally_ref u sta) as S. cbv zeta in S.
  rewrite Hud, Fid, Fp, Fpr, Fsv in L, S.
  change (user sta) with (user st) in L.
  set (st1 := apply_data (VStr (ud_id d)) a1.1 a2.1 a3.1 sta) in *.
  pose proof (alloc_slot_value (ud_publicInfo d) (heap st)) as V1. fold a1 in V1.
  pose proof (alloc_slot_value (ud_privateInfo d) a1.2) as V2. fold a2 in V2.
  pose proof (alloc_slot_value (ud_serverInfo d) a2.2) as V3. fold a3 in V3.
  assert (Href : ref_or_absent a1.1 /\ a1.1 <> VRef u).
  { destruct (ud_publicInfo d) as [pub|].
    - destruct V1 as (lp & Ep & _ & Hpub). rewrite Ep. split; [done|].
      intros [= ->]. apply K2, K3 in Hpub. congruence.
    - by rewrite V1. }
  destruct Href as [Href Hneu]. specialize (L Href Hneu). specialize (S Href).
  assert (Hpriv1 : privateInfo st1 = if truthy a2.1 then a2.1 else privateInfo st)
    by (unfold st1; by rewrite privateInfo_apply_data).
  assert (Hserv1 : serverInfo st1 = if truthy a3.1 then a3.1 else serverInfo st)
    by (unfold st1; by rewrite serverInfo_apply_data).
  assert (Hh1 : heap st1 = match a1.1 with
                           | VRef l => <[l := normalized (VStr (ud_id d)) (obj_at h l)]> h
                           | _ => h
                           end).
  { unfold st1. by rewrite heap_apply_data, heap_apply_public. }
  assert (Lp : exists lp, heap st !! lp = None
                 /\ a1.1 = (if has_public (FeedData d) then VRef lp else VUndefined)
                 /\ (forall pub, ud_publicInfo d = Some pub -> a3.2 !! lp = Some pub)).
  { unfold has_public. destruct (ud_publicInfo d) as [pub|].
    - destruct V1 as (lp & Ep & Hlp & Hpub). exists lp.
      rewrite bool_decide_true by eauto. split; [done|]. split; [done|].
      intros ? [= <-]. by apply K3, K2.
    - exists (fresh (dom (heap st))). rewrite bool_decide_false by (intros [? ?]; done).
      split; [apply fresh_unused|]. done. }
  destruct Lp as (lp & Hlp & Ea1 & Hpub3).
  assert (Hmono : forall l o, heap st !! l = Some o -> heap st1 !! l = Some o).
  { intros l o E. rewrite Hh1. pose proof (Kh _ _ (K3 _ _ (K2 _ _ (K1 _ _ E)))) as E'.
    rewrite Ea1. destruct (has_public (FeedData d)); [|done].
    rewrite lookup_insert_ne; [done|]. intros F. subst l. congruence. }
  assert (Hkeep2 : forall l o, a1.2 !! l = None -> a3.2 !! l = Some o ->
                               heap st1 !! l = Some o).
  { intros l o N E. rewrite Hh1. pose proof (Kh _ _ E) as E'.
    rewrite Ea1. destruct (has_public (FeedData d)) eqn:Hp; [|done].
    rewrite lookup_insert_ne; [done|]. intros F. subst l.
    unfold has_public in Hp. destruct (ud_publicInfo d) as [pub|] eqn:Epub.
    - destruct V1 as (lp' & Ep & _ & Hpub). rewrite Ea1 in Ep.
      injection Ep as <-. congruence.
    - by rewrite bool_decide_false in Hp by (intros [? ?]; done). }
  exists u, sta, st1, lp.
  split; [reflexivity|]. split; [exact S|]. split.
  { rewrite L. rewrite Ea1.
    destruct (falsy (user st)); [|done]. cbn [andb].
    destruct (has_public (FeedData d)); done. }
  split; [done|]. split.
  { unfold st1. rewrite userId_apply_data. unfold apply_public, is_online, has_public in *.
    destruct (ud_publicInfo d) as [pub|].
    - rewrite bool_decide_true in Ea1 by eauto. rewrite Ea1.
      change (heap sta) with h.
      rewrite (obj_at_Some _ _ _ (Kh _ _ (Hpub3 _ eq_refl))).
      destruct (truthy (field pub "isOnline")); reflexivity.
    - rewrite bool_decide_false in Ea1 by (intros [? ?]; done). by rewrite Ea1. }
  split.
  { unfold st1. rewrite usersMap_apply_data. unfold apply_public. rewrite Ea1.
    destruct (has_public (FeedData d)); [|done].
    destruct (truthy (field _ "isOnline")); reflexivity. }
  split.
  { intros pub Epub. rewrite Hh1, Ea1. unfold has_public. rewrite Epub.
    rewrite bool_decide_true by eauto. rewrite lookup_insert_eq.
    by rewrite (obj_at_Some _ _ _ (Kh _ _ (Hpub3 _ Epub))). }
  split.
  { unfold slot_applied. rewrite Hpriv1. destruct (ud_privateInfo d) as [o|].
    - destruct V2 as (l & E & N & Hl). exists l. rewrite E. split; [done|].
      split; [by eapply alloc_slot_fresh|]. apply Hkeep2; [done|by apply K3].
    - by rewrite V2. }
  split.
  { unfold slot_applied. rewrite Hserv1. destruct (ud_serverInfo d) as [o|].
    - destruct V3 as (l & E & N & Hl). exists l. rewrite E. split; [done|].
      split; [by do 2 eapply alloc_slot_fresh|].
      apply Hkeep2; [by eapply alloc_slot_fresh|done].
    - by rewrite V3. }
  split; [unfold st1; by rewrite onLogin_apply_data|].
  split; [unfold st1; by rewrite onLogout_apply_data|].
  split; [unfold st1; by rewrite trace_apply_data|].
  exact Hmono.
Qed.

(** *** The invariant of the store *)

Lemma normalized_invariant k (o : object) :
  let o' := normalized k o in
  o' !! "id" = Some k
  /\ o' !! "save" = Some (VFun F_updateUser)
  /\ o' !! "displayName" = Some (field o' "email").
Proof.
  cbv zeta. split; [|split].
  - unfold normalized. by rewrite lookup_insert_eq.
  - unfold normalized. rewrite lookup_insert_ne by done. by rewrite lookup_insert_eq.
  - rewrite normalized_field by done. unfold normalized.
    rewrite !lookup_insert_ne by done. by rewrite lookup_insert_eq.
Qed.

(** Nothing cached changes and [userId] stays or is cleared. *)
Lemma invariant_frame st st' :
  store_invariant st ->
  usersMap st' = usersMap st ->
  userId st' = userId st \/ userId st' = VNull ->
  (forall l o, heap st !! l = Some o -> heap st' !! l = Some o) ->
  store_invariant st'.
Proof.
  intros (Hn & Hu & Hk) Em Eu Hg. unfold store_invariant, cache_normalized,
    userId_cached, keys_are_strings. rewrite Em. split; [|split; [|done]].
  - intros k l E. destruct (Hn k l E) as (o & Ho & ?). exists o. split; [by apply Hg|done].
  - destruct Eu as [->| ->]; [done|by left].
Qed.

(** One profile is put in the cache, normalized; the other cached profiles
    are as they were. *)
Lemma invariant_insert st st' s l (o : object) :
  store_invariant st ->
  usersMap st' = map_set (VStr s) l (usersMap st) ->
  heap st' !! l = Some (normalized (VStr s) o) ->
  (forall k' l' o', k' <> VStr s -> map_get k' (usersMap st) = Some l' ->
                    heap st !! l' = Some o' -> heap st' !! l' = Some o') ->
  userId st' = userId st \/ userId st' = VNull \/ userId st' = VStr s ->
  store_invariant st'.
Proof.
  intros (Hn & Hu & Hk) Em El Hother Eu. unfold store_invariant, cache_normalized,
    userId_cached, keys_are_strings. rewrite Em. split; [|split].
  - intros k l0 E. destruct (decide (VStr s = k)) as [<-|Hne].
    + rewrite map_get_set in E. injection E as <-.
      exists (normalized (VStr s) o). split; [done|]. apply normalized_invariant.
    + rewrite map_get_set_ne in E by done.
      destruct (Hn k l0 E) as (o0 & Ho0 & ?). exists o0.
      split; [|done]. eapply Hother; eauto.
  - destruct Eu as [->|[->| ->]].
    + destruct Hu as [?|(s0 & l0 & E & Hl)]; [by left|right].
      destruct (decide (VStr s = VStr s0)) as [->|Hne].
      * exists s0, l. split; [done|apply map_get_set].
      * exists s0, l0. split; [done|by rewrite map_get_set_ne].
    + by left.
    + right. exists s, l. split; [done|apply map_get_set].
  - intros k l0 E. destruct (decide (VStr s = k)) as [<-|Hne]; [by exists s|].
    rewrite map_get_set_ne in E by done. eauto.
Qed.

Lemma initial_invariant : store_invariant initial.
Proof.
  split; [|split]; [intros k l E; done|by left|intros k l E; done].
Qed.

Lemma search_entries_state field_name query entries results st :
  (search_entries field_name query entries results st).2 = st.
Proof.
  revert results. induction entries as [|[uid l] entries IH]; intros results; [done|].
  cbn [search_entries truthy]. unfold bind at 1.
  rewrite (bind_Ok _ _ _ _ _ (get_prop_ref l field_name st)).
  destruct (is_string (field (obj_at (heap st) l) field_name)).
  - rewrite (bind_Ok _ _ _ _ _ (get_prop_ref l field_name st)).
    destruct (field (obj_at (heap st) l) field_name); try reflexivity.
    destruct query; try reflexivity.
    cbn. apply IH.
  - cbn. apply IH.
Qed.

Lemma same_store_refl st : same_store st st.
Proof. by repeat split. Qed.

Lemma same_store_emit e st : same_store st (emit e st).
Proof. by repeat split. Qed.

Lemma same_store_alloc (o : object) st :
  same_store st (set_heap (<[fresh (dom (heap st)) := o]> (heap st)) st).
Proof.
  repeat split. intros l x E. cbn. rewrite lookup_insert_ne; [done|].
  by apply fresh_not_allocated in E.
Qed.

Lemma same_store_trans st1 st2 st3 :
  same_store st1 st2 -> same_store st2 st3 -> same_store st1 st3.
Proof.
  intros (A1 & A2 & A3 & A4 & A5 & A6 & A7) (B1 & B2 & B3 & B4 & B5 & B6 & B7).
  repeat split; try congruence. intros l o E. by apply B7, A7.
Qed.

Lemma invariant_same_store st st' :
  store_invariant st -> same_store st st' -> store_invariant st'.
Proof.
  intros H (E1 & E2 & _ & _ & _ & _ & Hg).
  eapply invariant_frame; eauto.
Qed.

(** A call of a callback changes only the trace. *)
Lemma call_state callback args st :
  (call run_callback callback args st).2 = emit (Invoke callback args) st.
Proof. unfold call. by destruct (run_callback callback args st). Qed.

Lemma createUser_test user st :
  (if falsy user then ret true
   else
     email <- get_prop user "email" ;;
     if falsy email then ret true
     else
       password <- get_prop user "password" ;;
       ret (falsy password))%js st
  = (Ok (credentials_rejected (heap st) user), st).
Proof.
  destruct user as [| |b|n|s|f|l]; try reflexivity.
  - destruct b; reflexivity.
  - unfold falsy. cbn [truthy]. destruct (n =? 0)%Z; reflexivity.
  - unfold falsy. cbn [truthy]. destruct (String.eqb s ""); reflexivity.
  - change (falsy (VRef l)) with false. cbv iota.
    rewrite (bind_Ok _ _ _ _ _ (get_prop_ref l "email" st)).
    unfold credentials_rejected.
    destruct (falsy (field (obj_at (heap st) l) "email")); [reflexivity|].
    by rewrite (bind_Ok _ _ _ _ _ (get_prop_ref l "password" st)).
Qed.

(** [createUser], whatever the credentials. *)
Lemma createUser_spec user callback st :
  createUser run_callback user callback st =
  if credentials_rejected (heap st) user then
    call run_callback callback [VRef (fresh (dom (heap st)))]
      (set_heap (<[fresh (dom (heap st))
                   := {["message" := VStr "You must provide an email and password"]}]>
                   (heap st)) st)
  else (Ok VUndefined, emit (Db (CreateUser user callback) (heap st)) st).
Proof.
  unfold createUser. rewrite (bind_Ok _ _ _ _ _ (createUser_test user st)).
  destruct (credentials_rejected (heap st) user); reflexivity.
Qed.

Lemma createUser_same_store user callback st :
  same_store st (exec (createUser run_callback user callback) st).
Proof.
  unfold exec. rewrite createUser_spec.
  destruct (credentials_rejected (heap st) user).
  - rewrite call_state. eapply same_store_trans; [apply same_store_alloc|apply same_store_emit].
  - apply same_store_emit.
Qed.

Lemma map_set_same k l m : map_get k m = Some l -> map_set k l m = m.
Proof.
  induction m as [|[k' l'] m IH]; simpl; [done|].
  destruct (decide (k' = k)) as [->|Hne].
  - by intros [= ->].
  - intros E. by rewrite IH.
Qed.

(** A normalized profile is a fixed point of the normalization. *)
Lemma normalized_fixed k (o : object) :
  o !! "id" = Some k ->
  o !! "save" = Some (VFun F_updateUser) ->
  o !! "displayName" = Some (field o "email") ->
  normalized k o = o.
Proof.
  intros Hid Hsave Hname. unfold normalized.
  rewrite (insert_id o "displayName") by done.
  rewrite (insert_id o "save") by done.
  by rewrite insert_id.
Qed.

(** Two keys of the cache never share an object. *)
Lemma cache_no_alias st k k' l :
  cache_normalized st ->
  map_get k (usersMap st) = Some l -> map_get k' (usersMap st) = Some l -> k = k'.
Proof.
  intros Hn E E'. destruct (Hn k l E) as (o & Ho & Hid & _).
  destruct (Hn k' l E') as (o' & Ho' & Hid' & _). congruence.
Qed.

(** [save] through the cache, on a state that satisfies the invariant. *)
Lemma save_cached_hit s l st :
  store_invariant st ->
  map_get (VStr s) (usersMap st) = Some l ->
  exists (o : object) w,
    heap st !! l = Some o
    /\ (<[l := public_fields o]> (heap st)) !! w = None
    /\ save_cached (VStr s) st
       = (Ok tt,
          set_heap (<[l := o]> (<[w := {["publicInfo" := VRef l]}]>
                                  (<[l := public_fields o]> (heap st))))
            (emit (Db (SaveToUsersCollection (VStr s) (VRef w))
                      (<[w := {["publicInfo" := VRef l]}]>
                         (<[l := public_fields o]> (heap st)))) st)).
Proof.
  intros (Hn & _ & _) E. destruct (Hn _ _ E) as (o & Ho & Hid & Hsave & Hname).
  exists o, (fresh (dom (<[l := public_fields o]> (heap st)))).
  split; [done|]. split; [apply fresh_unused|].
  unfold save_cached. rewrite (bind_Ok _ _ _ _ _ (getUserById_hit _ _ _ E)).
  cbn [truthy]. unfold save.
  rewrite (bind_Ok _ _ _ _ _ (get_prop_ref l "save" st)).
  assert (Fsave : field o "save" = VFun F_updateUser) by (unfold field; by rewrite Hsave).
  assert (Fid : field o "id" = VStr s) by (unfold field; by rewrite Hid).
  rewrite (obj_at_Some _ _ _ Ho), Fsave.
  pose proof (_updateUser_ref l st) as U. cbv zeta in U.
  rewrite (obj_at_Some _ _ _ Ho), Fid in U. rewrite U.
  rewrite normalized_public_fields, (normalized_fixed _ _ Hid Hsave Hname).
  rewrite (map_set_same _ _ _ E).
  reflexivity.
Qed.

Lemma save_cached_miss s st :
  map_get (VStr s) (usersMap st) = None ->
  save_cached (VStr s) st = (Ok tt, emit (Db (ListenToUser (VStr s)) (heap st)) st).
Proof.
  intros E. unfold save_cached. by rewrite (bind_Ok _ _ _ _ _ (getUserById_miss _ _ E)).
Qed.

Lemma save_cached_invariant s st :
  store_invariant st -> store_invariant (exec (save_cached (VStr s)) st).
Proof.
  intros Hinv. unfold exec. destruct (map_get (VStr s) (usersMap st)) as [l|] eqn:E.
  - destruct (save_cached_hit s l st Hinv E) as (o & w & Ho & Hw & ->). cbn [snd].
    assert (Hwl : w <> l) by (intros ->; by rewrite lookup_insert_eq in Hw).
    eapply invariant_frame; [exact Hinv|reflexivity|by left|].
    intros l' o' E'. cbn. destruct (decide (l = l')) as [<-|Hne].
    + rewrite lookup_insert_eq. congruence.
    + rewrite lookup_insert_ne by done.
      rewrite lookup_insert_ne; [by rewrite lookup_insert_ne|].
      intros <-. rewrite lookup_insert_ne in Hw by done. congruence.
  - rewrite (save_cached_miss s st E). eapply invariant_same_store; [done|].
    apply same_store_emit.
Qed.

(** The backend's answer to [createUser]: a failure. *)
Lemma deliver_created_failed callback err st :
  let l := fresh (dom (heap st)) in
  deliver_created run_callback callback (CreateFailed err) st
  = call run_callback callback [VRef l] (set_heap (<[l := err]> (heap st)) st).
Proof. reflexivity. Qed.

(** The backend's answer to [createUser]: the new user's data. *)
Lemma deliver_created_ok callback d st :
  exists u st1 lp,
    heap st !! u = None
    /\ (deliver_created run_callback callback (Created d) st).2
       = emit (Invoke callback [VNull; VRef u]) st1
    /\ (deliver_created run_callback callback (Created d) st).1
       = match run_callback callback [VNull; VRef u] st1 with
         | Returns _ => Ok VUndefined
         | Raises e => Thrown e
         end
    /\ heap st !! lp = None
    /\ userId st1 = (if is_online (FeedData d) then VStr (ud_id d) else userId st)
    /\ usersMap st1 = (if has_public (FeedData d)
                      then map_set (VStr (ud_id d)) lp (usersMap st)
                      else usersMap st)
    /\ (forall pub, ud_publicInfo d = Some pub ->
                    heap st1 !! lp = Some (normalized (VStr (ud_id d)) pub))
    /\ slot_applied (ud_privateInfo d) (privateInfo st) (privateInfo st1) (heap st) (heap st1)
    /\ slot_applied (ud_serverInfo d) (serverInfo st) (serverInfo st1) (heap st) (heap st1)
    /\ _onLoginTriggers st1 = _onLoginTriggers st
    /\ _onLogoutTriggers st1 = _onLogoutTriggers st
    /\ trace st1 = trace st
    /\ (forall l o, heap st !! l = Some o -> heap st1 !! l = Some o).
Proof.
  destruct (payload_spec d st)
    as (u & sta & st1 & lp & A & S & _ & Hlp & Hid & Hmap & Hpub & Hpr & Hsv & Hin & Hout
        & Htr & Hmono).
  exists u, st1, lp.
  assert (Hu : heap st !! u = None).
  { pose proof (alloc_user_data_unfold d st) as U. cbv zeta in U. rewrite U in A.
    injection A as Eu _. rewrite <- Eu.
    do 3 eapply alloc_slot_fresh. apply fresh_unused. }
  assert (E : deliver_created run_callback callback (Created d) st
              = (call run_callback callback [VNull; VRef u] ;; ret VUndefined)%js st1).
  { unfold deliver_created. rewrite (bind_Ok _ _ _ _ _ A). unfold createUser_cb.
    change (truthy VNull) with false. cbv iota. by rewrite (bind_Ok _ _ _ _ _ S). }
  rewrite E. unfold bind, call.
  destruct (run_callback callback [VNull; VRef u] st1); cbn [fst snd]; by repeat split.
Qed.

(** *** Every step keeps the invariant *)

Lemma deliver_invariant e st :
  store_invariant st -> store_invariant (exec (deliver run_callback e) st).
Proof.
  intros Hinv. unfold exec. destruct e as [err| |d].
  - rewrite deliver_error_spec. cbn [snd]. eapply invariant_same_store; [done|].
    eapply same_store_trans; [apply same_store_alloc|apply same_store_emit].
  - destruct (truthy (userId st)) eqn:E.
    + destruct (deliver_absent_truthy st E) as (seg & -> & _). cbn [snd].
      eapply invariant_frame; [exact Hinv|reflexivity|by right|].
      intros l o El. cbn. rewrite lookup_insert_ne; [done|].
      by apply fresh_not_allocated in El.
    + rewrite (deliver_absent_falsy st E). cbn [snd].
      eapply invariant_frame; [exact Hinv|reflexivity|by right|done].
  - destruct (deliver_data_spec d st)
      as (st' & lp & la & seg & -> & Hlp & Hid & Hmap & Hpub & _ & _ & _ & _ & Hmono).
    cbn [snd]. unfold has_public, is_online in *.
    destruct (ud_publicInfo d) as [pub|].
    + rewrite bool_decide_true in Hmap by eauto.
      eapply (invariant_insert st st' (ud_id d) lp pub);
        [exact Hinv|exact Hmap|by apply Hpub| |].
      * intros k' l' o' _ _ E. by apply Hmono.
      * rewrite Hid. destruct (truthy (field pub "isOnline")); auto.
    + rewrite bool_decide_false in Hmap by (intros [? ?]; done).
      eapply invariant_frame; eauto.
Qed.

Lemma deliver_user_invariant s profile st :
  store_invariant st -> store_invariant (exec (deliver_user (VStr s) profile) st).
Proof.
  intros Hinv. unfold exec. destruct profile as [o|].
  - rewrite deliver_user_Some. cbn [snd]. cbv zeta.
    eapply (invariant_insert _ _ s (fresh (dom (heap st))) o);
      [exact Hinv|reflexivity| | |by left].
    + cbn. by rewrite lookup_insert_eq.
    + intros k' l' o' _ _ E. cbn. rewrite lookup_insert_ne; [done|].
      by apply fresh_not_allocated in E.
  - unfold deliver_user, _listenToPublicUserData_cb.
    by rewrite _savePublicUserInfo_falsy.
Qed.

Lemma deliver_created_invariant callback r st :
  store_invariant st -> store_invariant (exec (deliver_created run_callback callback r) st).
Proof.
  intros Hinv. unfold exec. destruct r as [err|d].
  - rewrite deliver_created_failed. cbv zeta. rewrite call_state.
    eapply invariant_same_store; [done|].
    eapply same_store_trans; [apply same_store_alloc|apply same_store_emit].
  - destruct (deliver_created_ok callback d st)
      as (u & st1 & lp & _ & -> & _ & Hlp & Hid & Hmap & Hpub & _ & _ & _ & _ & _ & Hmono).
    unfold has_public, is_online in *.
    destruct (ud_publicInfo d) as [pub|].
    + rewrite bool_decide_true in Hmap by eauto.
      eapply (invariant_insert st _ (ud_id d) lp pub);
        [exact Hinv|exact Hmap|cbn; by apply Hpub| |].
      * intros k' l' o' _ _ E. cbn. by apply Hmono.
      * cbn. rewrite Hid. destruct (truthy (field pub "isOnline")); auto.
    + rewrite bool_decide_false in Hmap by (intros [? ?]; done).
      eapply invariant_frame; eauto.
Qed.

Lemma perform_invariant a st :
  store_invariant st -> store_invariant (perform run_callback a st).
Proof.
  intros Hinv. destruct a; cbn [perform].
  - by apply deliver_invariant.
  - by apply deliver_user_invariant.
  - by apply deliver_created_invariant.
  - eapply invariant_frame; eauto.
  - eapply invariant_frame; eauto.
  - unfold exec. destruct (map_get (VStr userId0) (usersMap st)) eqn:E.
    + by rewrite (getUserById_hit _ _ _ E).
    + rewrite (getUserById_miss _ _ E). eapply invariant_same_store; [done|].
      apply same_store_emit.
  - eapply invariant_same_store; [done|]. apply same_store_emit.
  - eapply invariant_frame; [exact Hinv|reflexivity|by right|done].
  - eapply invariant_same_store; [done|]. apply createUser_same_store.
  - unfold exec, searchFromLocalUsersByField.
    rewrite (bind_Ok get _ st st st eq_refl). by rewrite search_entries_state.
  - by apply save_cached_invariant.
Qed.

Lemma run_snoc history a :
  run run_callback (history ++ [a]) = perform run_callback a (run run_callback history).
Proof. unfold run. by rewrite fold_left_app. Qed.

Lemma run_invariant history : store_invariant (run run_callback history).
Proof.
  induction history as [|a history IH] using rev_ind; [apply initial_invariant|].
  rewrite run_snoc. by apply perform_invariant.
Qed.

Lemma invariant_user st :
  store_invariant st -> falsy (user st) = negb (non_null (userId st)).
Proof.
  intros (_ & Hu & Hk). unfold user, usersMap_get.
  destruct Hu as [E|(s & l & E & Hl)]; rewrite E.
  - destruct (map_get VNull (usersMap st)) as [l|] eqn:F; [|done].
    by destruct (Hk _ _ F).
  - by rewrite Hl.
Qed.

(** A data payload on a state that satisfies the invariant: the [onLogin]
    hooks are dispatched exactly when no user is set and the payload
    carries [publicInfo]. *)
Lemma deliver_data_on_invariant d st :
  store_invariant st ->
  exists st' lp la seg,
    deliver run_callback (FeedData d) st = (Ok tt, st')
    /\ trace st' = trace st ++ seg
    /\ (if negb (non_null (userId st)) && has_public (FeedData d)
       then heap st !! la = None
            /\ heap st' !! la = Some (established_view (VStr (ud_id d)) (VRef lp))
            /\ dispatched run_callback (_onLoginTriggers st) (VRef la) ConsoleLog seg
       else seg = []).
Proof.
  intros Hinv.
  destruct (deliver_data_spec d st)
    as (st' & lp & la & seg & E & _ & _ & _ & _ & _ & _ & Htr & Hseg & _).
  rewrite (invariant_user st Hinv) in Hseg.
  by exists st', lp, la, seg.
Qed.

(** *** The keys of the cache *)

Lemma map_set_keys k l m :
  map fst (map_set k l m)
  = match map_get k m with Some _ => map fst m | None => map fst m ++ [k] end.
Proof.
  induction m as [|[k' l'] m IH]; simpl; [done|].
  destruct (decide (k' = k)) as [->|Hne]; simpl; [done|].
  rewrite IH. by destruct (map_get k m).
Qed.

Lemma map_get_In k m : map_get k m = None -> ~ In k (map fst m).
Proof.
  induction m as [|[k' l'] m IH]; simpl; [tauto|].
  destruct (decide (k' = k)); [done|]. intros E [F|F]; [done|by apply IH].
Qed.

Lemma map_set_NoDup k l m : NoDup (map fst m) -> NoDup (map fst (map_set k l m)).
Proof.
  intros H. rewrite map_set_keys. destruct (map_get k m) eqn:E; [done|].
  apply NoDup_app. split; [done|]. split.
  - intros x Hx [->|[]]%list_elem_of_In. apply (map_get_In _ _ E).
    by apply list_elem_of_In.
  - apply NoDup_singleton.
Qed.

Lemma In_map_get k l m : NoDup (map fst m) -> In (k, l) m -> map_get k m = Some l.
Proof.
  induction m as [|[k' l'] m IH]; simpl; [tauto|].
  intros Hnd [E|Hin].
  - injection E as -> ->. by rewrite decide_True.
  - apply NoDup_cons in Hnd as [Hk Hnd]. destruct (decide (k' = k)) as [->|Hne].
    + exfalso. apply Hk. apply list_elem_of_In. apply (in_map fst) in Hin. exact Hin.
    + by apply IH.
Qed.

(** A step changes the cache by at most one [set]. *)
Lemma perform_usersMap a st :
  store_invariant st ->
  usersMap (perform run_callback a st) = usersMap st
  \/ exists k l, usersMap (perform run_callback a st) = map_set k l (usersMap st).
Proof.
  intros Hinv. destruct a; cbn [perform]; unfold exec.
  - destruct e as [err| |d].
    + left. by rewrite deliver_error_spec.
    + left. by destruct (deliver_absent_spec st) as (st' & -> & _ & Hmap & _).
    + destruct (deliver_data_spec d st) as (st' & lp & la & seg & -> & _ & _ & Hmap & _).
      cbn. rewrite Hmap. destruct (has_public (FeedData d)); [right; eauto|by left].
    - destruct profile as [o|].
      + right. rewrite deliver_user_Some. cbn. eauto.
      + left. unfold deliver_user, _listenToPublicUserData_cb.
        by rewrite _savePublicUserInfo_falsy.
    - destruct r as [err|d].
      + left. rewrite deliver_created_failed. cbv zeta. by rewrite call_state.
      + destruct (deliver_created_ok callback d st)
          as (u & st1 & lp & _ & -> & _ & _ & _ & Hmap & _).
        cbn. rewrite Hmap. destruct (has_public (FeedData d)); [right; eauto|by left].
    - by left.
    - by left.
    - left. destruct (map_get (VStr userId0) (usersMap st)) eqn:E.
      + by rewrite (getUserById_hit _ _ _ E).
      + by rewrite (getUserById_miss _ _ E).
    - by left.
    - by left.
    - left. by destruct (createUser_same_store user0 callback st) as (_ & Hmap & _).
    - left. unfold searchFromLocalUsersByField.
      rewrite (bind_Ok get _ st st st eq_refl). by rewrite search_entries_state.
    - left. destruct (map_get (VStr userId0) (usersMap st)) as [l|] eqn:E.
      + by destruct (save_cached_hit _ _ _ Hinv E) as (o & w & _ & _ & ->).
      + by rewrite (save_cached_miss _ _ E).
Qed.

Lemma run_unique_keys history : NoDup (map fst (usersMap (run run_callback history))).
Proof.
  induction history as [|a history IH] using rev_ind; [constructor|].
  rewrite run_snoc.
  destruct (perform_usersMap a _ (run_invariant history)) as [->|(k & l & ->)]; [done|].
  by apply map_set_NoDup.
Qed.

(** In a reachable state every entry of the cache has the same
    [displayName] and [email]. *)
Lemma run_displayName_is_email history k l :
  let st := run run_callback history in
  In (k, l) (usersMap st) ->
  field (obj_at (heap st) l) "displayName" = field (obj_at (heap st) l) "email".
Proof.
  intros st Hin. subst st. apply (In_map_get _ _ _ (run_unique_keys history)) in Hin.
  destruct (run_invariant history) as (Hn & _).
  destruct (Hn _ _ Hin) as (o & Ho & _ & _ & Hname).
  rewrite (obj_at_Some _ _ _ Ho). unfold field at 1. by rewrite Hname.
Qed.

(** The search when [query] is not a string: the first profile whose field
    is a string makes [query.toUpperCase()] throw. *)
Lemma search_entries_no_string field_name query entries results st :
  is_string query = false ->
  search_entries field_name query entries results st
  = (if existsb (fun e => is_string (field (obj_at (heap st) e.2) field_name)) entries
     then Thrown TypeError else Ok results, st).
Proof.
  intros Hq. revert results.
  induction entries as [|[uid l] entries IH]; intros results; [done|].
  cbn [search_entries truthy existsb snd]. unfold bind at 1.
  rewrite (bind_Ok _ _ _ _ _ (get_prop_ref l field_name st)).
  destruct (field (obj_at (heap st) l) field_name) as [| | | |s| |] eqn:F;
    cbn [is_string orb]; try (unfold ret at 1; apply IH).
  rewrite (bind_Ok _ _ _ _ _ (get_prop_ref l field_name st)), F.
  destruct query; try done.
Qed.

(** ** The invariant when the application edits profiles *)

Lemma forget_In u s stale : In s (forget u stale) <-> In s stale /\ s <> u.
Proof.
  unfold forget. rewrite filter_In, negb_true_iff. split.
  - intros [H E]. split; [done|]. by apply String.eqb_neq.
  - intros [H E]. split; [done|]. by apply String.eqb_neq.
Qed.

Lemma invariant_modulo_nil st : store_invariant st <-> store_invariant_modulo [] st.
Proof.
  split; intros (Hn & Hu & Hk); (split; [|done]); intros k l E.
  - destruct (Hn k l E) as (o & Ho & Hid & Hsave & Hname). exists o.
    repeat split; done.
  - destruct (Hn k l E) as (o & Ho & Hid & Hsave & Hname). exists o.
    destruct (Hk k l E) as [s ->]. repeat split; try done.
    apply (Hname s eq_refl). by intros [].
Qed.

Lemma modulo_weaken stale stale' st :
  (forall s, In s stale -> In s stale') ->
  store_invariant_modulo stale st -> store_invariant_modulo stale' st.
Proof.
  intros Hsub (Hn & Hu & Hk). split; [|done]. intros k l E.
  destruct (Hn k l E) as (o & Ho & Hid & Hsave & Hname). exists o.
  repeat split; try done. intros s Es Hs. apply (Hname s Es). auto.
Qed.

(** A user without a cached profile need not be remembered. *)
Lemma modulo_forget_uncached stale s st :
  map_get (VStr s) (usersMap st) = None ->
  store_invariant_modulo stale st -> store_invariant_modulo (forget s stale) st.
Proof.
  intros Hnone (Hn & Hu & Hk). split; [|done]. intros k l E.
  destruct (Hn k l E) as (o & Ho & Hid & Hsave & Hname). exists o.
  repeat split; try done. intros s0 -> Hs0. apply (Hname s0 eq_refl).
  intros Hin. apply Hs0. apply forget_In. split; [done|]. intros ->. congruence.
Qed.

Lemma modulo_frame stale st st' :
  store_invariant_modulo stale st ->
  usersMap st' = usersMap st ->
  userId st' = userId st \/ userId st' = VNull ->
  (forall l o, heap st !! l = Some o -> heap st' !! l = Some o) ->
  store_invariant_modulo stale st'.
Proof.
  intros (Hn & Hu & Hk) Em Eu Hg. unfold store_invariant_modulo, cache_keyed_modulo,
    userId_cached, keys_are_strings. rewrite Em. split; [|split; [|done]].
  - intros k l E. destruct (Hn k l E) as (o & Ho & ?). exists o. split; [by apply Hg|done].
  - destruct Eu as [->| ->]; [done|by left].
Qed.

Lemma modulo_same_store stale st st' :
  store_invariant_modulo stale st -> same_store st st' -> store_invariant_modulo stale st'.
Proof.
  intros H (E1 & E2 & _ & _ & _ & _ & Hg).
  eapply modulo_frame; eauto.
Qed.

Lemma modulo_insert stale st st' s l (o : object) :
  store_invariant_modulo stale st ->
  usersMap st' = map_set (VStr s) l (usersMap st) ->
  heap st' !! l = Some (normalized (VStr s) o) ->
  (forall k' l' o', k' <> VStr s -> map_get k' (usersMap st) = Some l' ->
                    heap st !! l' = Some o' -> heap st' !! l' = Some o') ->
  userId st' = userId st \/ userId st' = VNull \/ userId st' = VStr s ->
  store_invariant_modulo (forget s stale) st'.
Proof.
  intros (Hn & Hu & Hk) Em El Hother Eu. unfold store_invariant_modulo, cache_keyed_modulo,
    userId_cached, keys_are_strings. rewrite Em. split; [|split].
  - intros k l0 E. destruct (decide (VStr s = k)) as [<-|Hne].
    + rewrite map_get_set in E. injection E as <-.
      exists (normalized (VStr s) o). split; [done|].
      destruct (normalized_invariant (VStr s) o) as (H1 & H2 & H3). auto.
    + rewrite map_get_set_ne in E by done.
      destruct (Hn k l0 E) as (o0 & Ho0 & Hid & Hsave & Hname). exists o0.
      split; [eapply Hother; eauto|]. repeat split; try done.
      intros s0 -> Hs0. apply (Hname s0 eq_refl). intros Hin. apply Hs0.
      apply forget_In. split; [done|]. congruence.
  - destruct Eu as [->|[->| ->]].
    + destruct Hu as [?|(s0 & l0 & E & Hl)]; [by left|right].
      destruct (decide (VStr s = VStr s0)) as [->|Hne].
      * exists s0, l. split; [done|apply map_get_set].
      * exists s0, l0. split; [done|by rewrite map_get_set_ne].
    + by left.
    + right. exists s, l. split; [done|apply map_get_set].
  - intros k l0 E. destruct (decide (VStr s = k)) as [<-|Hne]; [by exists s|].
    rewrite map_get_set_ne in E by done. eauto.
Qed.

(** [save] through the cache when the profile may have been edited: the
    profile is normalized again. *)
Lemma save_cached_hit_modulo stale s l st :
  store_invariant_modulo stale st ->
  map_get (VStr s) (usersMap st) = Some l ->
  exists (o : object) w,
    heap st !! l = Some o
    /\ o !! "id" = Some (VStr s)
    /\ o !! "save" = Some (VFun F_updateUser)
    /\ (<[l := public_fields o]> (heap st)) !! w = None
    /\ save_cached (VStr s) st
       = (Ok tt,
          set_heap (<[l := normalized (VStr s) o]>
                      (<[w := {["publicInfo" := VRef l]}]>
                         (<[l := public_fields o]> (heap st))))
            (emit (Db (SaveToUsersCollection (VStr s) (VRef w))
                      (<[w := {["publicInfo" := VRef l]}]>
                         (<[l := public_fields o]> (heap st)))) st)).
Proof.
  intros (Hn & _ & _) E. destruct (Hn _ _ E) as (o & Ho & Hid & Hsave & _).
  exists o, (fresh (dom (<[l := public_fields o]> (heap st)))).
  split; [done|]. split; [done|]. split; [done|]. split; [apply fresh_unused|].
  unfold save_cached. rewrite (bind_Ok _ _ _ _ _ (getUserById_hit _ _ _ E)).
  cbn [truthy]. unfold save.
  rewrite (bind_Ok _ _ _ _ _ (get_prop_ref l "save" st)).
  assert (Fsave : field o "save" = VFun F_updateUser) by (unfold field; by rewrite Hsave).
  assert (Fid : field o "id" = VStr s) by (unfold field; by rewrite Hid).
  rewrite (obj_at_Some _ _ _ Ho), Fsave.
  pose proof (_updateUser_ref l st) as U. cbv zeta in U.
  rewrite (obj_at_Some _ _ _ Ho), Fid in U. rewrite U.
  rewrite normalized_public_fields.
  rewrite (map_set_same _ _ _ E).
  reflexivity.
Qed.

(** When [id] and [save] are in place, normalizing a profile only brings
    [displayName] in step with [email]. *)
Lemma normalized_keyed k (o : object) :
  o !! "id" = Some k ->
  o !! "save" = Some (VFun F_updateUser) ->
  normalized k o = <["displayName" := field o "email"]> o.
Proof.
  intros Hid Hsave. unfold normalized.
  rewrite (insert_id (<["displayName" := _]> o) "save")
    by (by rewrite lookup_insert_ne).
  by rewrite insert_id by (by rewrite lookup_insert_ne).
Qed.

Lemma modulo_no_alias stale st k k' l :
  cache_keyed_modulo stale st ->
  map_get k (usersMap st) = Some l -> map_get k' (usersMap st) = Some l -> k = k'.
Proof.
  intros Hn E E'. destruct (Hn k l E) as (o & Ho & Hid & _).
  destruct (Hn k' l E') as (o' & Ho' & Hid' & _). congruence.
Qed.

Lemma save_cached_modulo stale s st :
  store_invariant_modulo stale st ->
  store_invariant_modulo (forget s stale) (exec (save_cached (VStr s)) st).
Proof.
  intros Hinv. unfold exec. destruct (map_get (VStr s) (usersMap st)) as [l|] eqn:E.
  - destruct (save_cached_hit_modulo stale s l st Hinv E)
      as (o & w & Ho & Hid & Hsave & Hw & ->). cbn [snd].
    assert (Hwl : w <> l) by (intros ->; by rewrite lookup_insert_eq in Hw).
    rewrite lookup_insert_ne in Hw by done.
    eapply (modulo_insert stale st _ s l o); [exact Hinv| | | |by left].
    + cbn. by rewrite (map_set_same _ _ _ E).
    + cbn. by rewrite lookup_insert_eq.
    + intros k' l' o' Hk' E' Ho'. cbn.
      assert (l' <> l).
      { intros ->. destruct Hinv as (Hn & _). apply Hk'. symmetry.
        by eapply modulo_no_alias. }
      rewrite lookup_insert_ne by done.
      rewrite lookup_insert_ne by (intros <-; congruence).
      by rewrite lookup_insert_ne.
  - rewrite (save_cached_miss s st E). cbn [snd].
    apply modulo_forget_uncached; [done|].
    eapply modulo_same_store; [exact Hinv|apply same_store_emit].
Qed.

Lemma deliver_modulo stale e st :
  store_invariant_modulo stale st ->
  store_invariant_modulo (stale_after (Store (Feed e)) stale)
    (exec (deliver run_callback e) st).
Proof.
  intros Hinv. unfold exec. destruct e as [err| |d]; cbn [stale_after].
  - rewrite deliver_error_spec. cbn [snd]. eapply modulo_same_store; [done|].
    eapply same_store_trans; [apply same_store_alloc|apply same_store_emit].
  - destruct (truthy (userId st)) eqn:E.
    + destruct (deliver_absent_truthy st E) as (seg & -> & _). cbn [snd].
      eapply modulo_frame; [exact Hinv|reflexivity|by right|].
      intros l o El. cbn. rewrite lookup_insert_ne; [done|].
      by apply fresh_not_allocated in El.
    + rewrite (deliver_absent_falsy st E). cbn [snd].
      eapply modulo_frame; [exact Hinv|reflexivity|by right|done].
  - destruct (deliver_data_spec d st)
      as (st' & lp & la & seg & -> & Hlp & Hid & Hmap & Hpub & _ & _ & _ & _ & Hmono).
    cbn [snd]. unfold has_public, is_online in *.
    destruct (ud_publicInfo d) as [pub|].
    + rewrite bool_decide_true in Hmap by eauto. rewrite bool_decide_true by eauto.
      eapply (modulo_insert stale st st' (ud_id d) lp pub);
        [exact Hinv|exact Hmap|by apply Hpub| |].
      * intros k' l' o' _ _ E. by apply Hmono.
      * rewrite Hid. destruct (truthy (field pub "isOnline")); auto.
    + rewrite bool_decide_false in Hmap by (intros [? ?]; done).
      rewrite bool_decide_false by (intros [? ?]; done).
      eapply modulo_frame; eauto.
Qed.

Lemma deliver_user_modulo stale s profile st :
  store_invariant_modulo stale st ->
  store_invariant_modulo (stale_after (Store (Profile s profile)) stale)
    (exec (deliver_user (VStr s) profile) st).
Proof.
  intros Hinv. unfold exec. destruct profile as [o|]; cbn [stale_after].
  - rewrite deliver_user_Some. cbn [snd]. cbv zeta.
    eapply (modulo_insert _ _ _ s (fresh (dom (heap st))) o);
      [exact Hinv|reflexivity| | |by left].
    + cbn. by rewrite lookup_insert_eq.
    + intros k' l' o' _ _ E. cbn. rewrite lookup_insert_ne; [done|].
      by apply fresh_not_allocated in E.
  - unfold deliver_user, _listenToPublicUserData_cb.
    by rewrite _savePublicUserInfo_falsy.
Qed.

Lemma deliver_created_modulo stale callback r st :
  store_invariant_modulo stale st ->
  store_invariant_modulo (stale_after (Store (CreateAnswer callback r)) stale)
    (exec (deliver_created run_callback callback r) st).
Proof.
  intros Hinv. unfold exec. destruct r as [err|d]; cbn [stale_after].
  - rewrite deliver_created_failed. cbv zeta. rewrite call_state.
    eapply modulo_same_store; [done|].
    eapply same_store_trans; [apply same_store_alloc|apply same_store_emit].
  - destruct (deliver_created_ok callback d st)
      as (u & st1 & lp & _ & -> & _ & Hlp & Hid & Hmap & Hpub & _ & _ & _ & _ & _ & Hmono).
    unfold has_public, is_online in *.
    destruct (ud_publicInfo d) as [pub|].
    + rewrite bool_decide_true in Hmap by eauto. rewrite bool_decide_true by eauto.
      eapply (modulo_insert stale st _ (ud_id d) lp pub);
        [exact Hinv|exact Hmap|cbn; by apply Hpub| |].
      * intros k' l' o' _ _ E. cbn. by apply Hmono.
      * cbn. rewrite Hid. destruct (truthy (field pub "isOnline")); auto.
    + rewrite bool_decide_false in Hmap by (intros [? ?]; done).
      rewrite bool_decide_false by (intros [? ?]; done).
      eapply modulo_frame; eauto.
Qed.

Lemma perform_modulo stale a st :
  store_invariant_modulo stale st ->
  store_invariant_modulo (stale_after (Store a) stale) (perform run_callback a st).
Proof.
  intros Hinv. destruct a; cbn [perform].
  - by apply deliver_modulo.
  - by apply deliver_user_modulo.
  - by apply deliver_created_modulo.
  - eapply modulo_frame; eauto.
  - eapply modulo_frame; eauto.
  - unfold exec. cbn [stale_after].
    destruct (map_get (VStr userId0) (usersMap st)) eqn:E.
    + by rewrite (getUserById_hit _ _ _ E).
    + rewrite (getUserById_miss _ _ E). eapply modulo_same_store; [done|].
      apply same_store_emit.
  - eapply modulo_same_store; [done|]. apply same_store_emit.
  - eapply modulo_frame; [exact Hinv|reflexivity|by right|done].
  - eapply modulo_same_store; [done|]. apply createUser_same_store.
  - unfold exec, searchFromLocalUsersByField. cbn [stale_after].
    rewrite (bind_Ok get _ st st st eq_refl). by rewrite search_entries_state.
  - by apply save_cached_modulo.
Qed.

(** The application assigns a field of a cached profile. *)
Lemma edit_cached_hit s l field_name v st :
  map_get (VStr s) (usersMap st) = Some l ->
  edit_cached (VStr s) field_name v st
  = (Ok tt, set_heap (<[l := <[field_name := v]> (obj_at (heap st) l)]> (heap st)) st).
Proof.
  intros E. unfold edit_cached. by rewrite (bind_Ok _ _ _ _ _ (getUserById_hit _ _ _ E)).
Qed.

Lemma edit_cached_miss s field_name v st :
  map_get (VStr s) (usersMap st) = None ->
  edit_cached (VStr s) field_name v st
  = (Ok tt, emit (Db (ListenToUser (VStr s)) (heap st)) st).
Proof.
  intros E. unfold edit_cached. by rewrite (bind_Ok _ _ _ _ _ (getUserById_miss _ _ E)).
Qed.

Lemma edit_cached_modulo stale s field_name v st :
  keeps_id_and_save (Edit s field_name v) = true ->
  store_invariant_modulo stale st ->
  store_invariant_modulo (stale_after (Edit s field_name v) stale)
    (exec (edit_cached (VStr s) field_name v) st).
Proof.
  intros Hkeep Hinv. unfold exec.
  cbn [keeps_id_and_save] in Hkeep. apply negb_true_iff, orb_false_iff in Hkeep.
  destruct Hkeep as [Hid%String.eqb_neq Hsave%String.eqb_neq].
  destruct (map_get (VStr s) (usersMap st)) as [l|] eqn:E.
  - rewrite (edit_cached_hit _ _ _ _ _ E). cbn [snd].
    destruct Hinv as (Hn & Hu & Hk). split; [|done].
    intros k l0 E0. cbn [usersMap heap set_heap] in *.
    destruct (Hn k l0 E0) as (o0 & Ho0 & Hid0 & Hsave0 & Hname0).
    destruct (decide (l0 = l)) as [->|Hne].
    + assert (k = VStr s) as -> by (by eapply modulo_no_alias).
      rewrite (obj_at_Some _ _ _ Ho0), lookup_insert_eq.
      exists (<[field_name := v]> o0). split; [done|].
      rewrite !lookup_insert_ne by done. split; [done|]. split; [done|].
      intros s0 [= <-] Hs0. cbn [stale_after] in Hs0.
      destruct (String.eqb field_name "email" || String.eqb field_name "displayName") eqn:F.
      * exfalso. apply Hs0. by left.
      * apply orb_false_iff in F as [F1%String.eqb_neq F2%String.eqb_neq].
        unfold field. rewrite !lookup_insert_ne by done.
        by apply (Hname0 s).
    + exists o0. rewrite lookup_insert_ne by done. split; [done|].
      split; [done|]. split; [done|].
      intros s0 -> Hs0. apply (Hname0 s0 eq_refl). intros Hin. apply Hs0.
      cbn [stale_after]. destruct (_ || _); [by right|done].
  - rewrite (edit_cached_miss _ _ _ _ E). cbn [snd].
    eapply modulo_weaken; [|eapply modulo_same_store; [exact Hinv|apply same_store_emit]].
    intros s0 Hs0. cbn [stale_after]. destruct (_ || _); [by right|done].
Qed.

Lemma perform_app_modulo stale x st :
  keeps_id_and_save x = true ->
  store_invariant_modulo stale st ->
  store_invariant_modulo (stale_after x stale) (perform_app run_callback x st).
Proof.
  intros Hkeep Hinv. destruct x as [a|s field_name v]; cbn [perform_app].
  - by apply perform_modulo.
  - by apply edit_cached_modulo.
Qed.

Lemma run_app_snoc history x :
  run_app run_callback (history ++ [x])
  = perform_app run_callback x (run_app run_callback history).
Proof. unfold run_app. by rewrite fold_left_app. Qed.

Lemma stale_snoc history x : stale (history ++ [x]) = stale_after x (stale history).
Proof. unfold stale. by rewrite fold_left_app. Qed.

Lemma run_app_modulo history :
  forallb keeps_id_and_save history = true ->
  store_invariant_modulo (stale history) (run_app run_callback history).
Proof.
  induction history as [|x history IH] using rev_ind; intros Hkeep.
  - apply invariant_modulo_nil, initial_invariant.
  - rewrite forallb_app in Hkeep. apply andb_true_iff in Hkeep as [H1 H2].
    cbn in H2. rewrite andb_true_r in H2.
    rewrite run_app_snoc, stale_snoc. by apply perform_app_modulo; [|apply IH].
Qed.

(** Histories without edits are the histories of [run]. *)
Lemma run_app_Store history :
  run_app run_callback (map Store history) = run run_callback history.
Proof.
  unfold run_app, run. generalize initial.
  induction history as [|a history IH]; intros st; [done|]. cbn. apply IH.
Qed.

Lemma stale_Store history stale0 s :
  In s (fold_left (fun s x => stale_after x s) (map Store history) stale0) -> In s stale0.
Proof.
  revert stale0. induction history as [|a history IH]; intros stale0; [done|].
  cbn [map fold_left]. intros H. apply IH in H.
  destruct a as [[| |d]|u [o|]|c [err|d]| | | | | | | |u]; cbn [stale_after] in H; try done.
  - destruct (has_public _); [by apply forget_In in H as [H _]|done].
  - by apply forget_In in H as [H _].
  - destruct (has_public _); [by apply forget_In in H as [H _]|done].
  - by apply forget_In in H as [H _].
Qed.

(** *** The keys of the cache, with edits *)

Lemma perform_app_usersMap stale x st :
  store_invariant_modulo stale st ->
  usersMap (perform_app run_callback x st) = usersMap st
  \/ exists k l, usersMap (perform_app run_callback x st) = map_set k l (usersMap st).
Proof.
  intros Hinv. destruct x as [a|s field_name v]; cbn [perform_app].
  - destruct a; cbn [perform]; unfold exec.
    + destruct e as [err| |d].
      * left. by rewrite deliver_error_spec.
      * left. by destruct (deliver_absent_spec st) as (st' & -> & _ & Hmap & _).
      * destruct (deliver_data_spec d st) as (st' & lp & la & seg & -> & _ & _ & Hmap & _).
        cbn. rewrite Hmap. destruct (has_public (FeedData d)); [right; eauto|by left].
    + destruct profile as [o|].
      * right. rewrite deliver_user_Some. cbn. eauto.
      * left. unfold deliver_user, _listenToPublicUserData_cb.
        by rewrite _savePublicUserInfo_falsy.
    + destruct r as [err|d].
      * left. rewrite deliver_created_failed. cbv zeta. by rewrite call_state.
      * destruct (deliver_created_ok callback d st)
          as (u & st1 & lp & _ & -> & _ & _ & _ & Hmap & _).
        cbn. rewrite Hmap. destruct (has_public (FeedData d)); [right; eauto|by left].
    + by left.
    + by left.
    + left. destruct (map_get (VStr userId0) (usersMap st)) eqn:E.
      * by rewrite (getUserById_hit _ _ _ E).
      * by rewrite (getUserById_miss _ _ E).
    + by left.
    + by left.
    + left. by destruct (createUser_same_store user0 callback st) as (_ & Hmap & _).
    + left. unfold searchFromLocalUsersByField.
      rewrite (bind_Ok get _ st st st eq_refl). by rewrite search_entries_state.
    + left. destruct (map_get (VStr userId0) (usersMap st)) as [l|] eqn:E.
      * destruct (save_cached_hit_modulo _ _ _ _ Hinv E) as (o & w & _ & _ & _ & _ & ->).
        done.
      * by rewrite (save_cached_miss _ _ E).
  - left. unfold exec. destruct (map_get (VStr s) (usersMap st)) as [l|] eqn:E.
    + by rewrite (edit_cached_hit _ _ _ _ _ E).
    + by rewrite (edit_cached_miss _ _ _ _ E).
Qed.

Lemma run_app_unique_keys history :
  forallb keeps_id_and_save history = true ->
  NoDup (map fst (usersMap (run_app run_callback history))).
Proof.
  induction history as [|x history IH] using rev_ind; intros Hkeep; [constructor|].
  rewrite forallb_app in Hkeep. apply andb_true_iff in Hkeep as [H1 H2].
  rewrite run_app_snoc.
  destruct (perform_app_usersMap _ x _ (run_app_modulo history H1)) as [->|(k & l & ->)];
    [by apply IH|].
  apply map_set_NoDup. by apply IH.
Qed.

(** ** Further properties of the store *)

(** X1.  Whatever the application and the backend have done so far, every
    profile in the cache is an object that carries the key it is cached
    under as [id], the store's [save] and its [email] as [displayName];
    a user that is set has a profile in the cache; and only strings are
    keys of the cache. *)
Theorem store_invariant_always history :
  let st := run run_callback history in
  cache_normalized st /\ userId_cached st /\ keys_are_strings st.
Proof. apply run_invariant. Qed.

(** X2.  [save] after the application has edited profiles.  In any state
    the store reaches through calls, deliveries and edits of cached
    profiles (the application leaving [id] and [save] alone), [save] on a
    cached profile hands the backend the profile as edited, without [save],
    [id] and [displayName].  Afterwards the profile has every field it had,
    with [displayName] brought in step with its [email]; the cache, the
    other fields of the store and every other object are as before.  For a
    profile that is not stale, whose [email] and [displayName] have not
    been assigned since it was last stored, it is a round trip: the profile
    is exactly as before. *)
Theorem save_of_cached_profile_restores_it history s l :
  forallb keeps_id_and_save history = true ->
  let st := run_app run_callback history in
  map_get (VStr s) (usersMap st) = Some l ->
  exists (o : object) w h st',
    heap st !! l = Some o
    /\ save_cached (VStr s) st = (Ok tt, st')
    /\ trace st' = trace st ++ [Db (SaveToUsersCollection (VStr s) (VRef w)) h]
    /\ h !! l = Some (public_fields o)
    /\ h !! w = Some {["publicInfo" := VRef l]}
    /\ heap st !! w = None
    /\ userId st' = userId st
    /\ usersMap st' = usersMap st
    /\ privateInfo st' = privateInfo st
    /\ serverInfo st' = serverInfo st
    /\ _onLoginTriggers st' = _onLoginTriggers st
    /\ _onLogoutTriggers st' = _onLogoutTriggers st
    /\ (forall l' o', l' <> l -> heap st !! l' = Some o' -> heap st' !! l' = Some o')
    /\ heap st' !! l = Some (<["displayName" := field o "email"]> o)
    /\ (~ In s (stale history) -> same_store st st' /\ heap st' !! l = Some o).
Proof.
  intros Hkeep st E.
  pose proof (run_app_modulo history Hkeep) as Hinv. fold st in Hinv.
  destruct (save_cached_hit_modulo _ s l st Hinv E)
    as (o & w & Ho & Hid & Hsave & Hw & ->).
  assert (Hwl : w <> l) by (intros ->; by rewrite lookup_insert_eq in Hw).
  rewrite lookup_insert_ne in Hw by done.
  rewrite (normalized_keyed _ _ Hid Hsave).
  assert (Hothers : forall l' o', l' <> l -> heap st !! l' = Some o' ->
            (<[l := <["displayName" := field o "email"]> o]>
               (<[w := {["publicInfo" := VRef l]}]> (<[l := public_fields o]> (heap st))))
            !! l' = Some o').
  { intros l' o' Hne E'. rewrite lookup_insert_ne by done.
    rewrite lookup_insert_ne by (intros <-; congruence).
    by rewrite lookup_insert_ne. }
  exists o, w. eexists. eexists. split; [done|]. split; [reflexivity|].
  cbn. split; [done|].
  split; [by rewrite lookup_insert_ne, lookup_insert_eq|].
  split; [by rewrite lookup_insert_eq|]. split; [done|].
  do 6 (split; [done|]). split; [exact Hothers|].
  split; [by rewrite lookup_insert_eq|].
  intros Hfresh. destruct Hinv as (Hn & _).
  destruct (Hn _ _ E) as (o0 & Ho0 & _ & _ & Hname).
  assert (o0 = o) as -> by congruence.
  rewrite (insert_id o "displayName") by (by apply (Hname s)).
  split; [|by rewrite lookup_insert_eq].
  repeat split. intros l' o' E'. cbn. destruct (decide (l' = l)) as [->|Hne].
  - rewrite lookup_insert_eq. congruence.
  - rewrite <- (insert_id o "displayName" (field o "email")) at 1
      by (by apply (Hname s)).
    by apply Hothers.
Qed.

(** X3.  In any state the store can reach, a data payload on the
    current-user feed dispatches the [onLogin] hooks exactly when [userId]
    is null and the payload carries [publicInfo]; otherwise it adds nothing
    to the trace. *)
Theorem onLogin_fires_iff_no_user_is_set history d :
  let st := run run_callback history in
  exists st' lp la seg,
    deliver run_callback (FeedData d) st = (Ok tt, st')
    /\ trace st' = trace st ++ seg
    /\ (if negb (non_null (userId st)) && has_public (FeedData d)
       then heap st !! la = None
            /\ heap st' !! la = Some (established_view (VStr (ud_id d)) (VRef lp))
            /\ dispatched run_callback (_onLoginTriggers st) (VRef la) ConsoleLog seg
       else seg = []).
Proof. intros st. apply deliver_data_on_invariant, run_invariant. Qed.

(** X4.  After [logout()] the store has no current user, so the next data
    payload that carries [publicInfo] dispatches the [onLogin] hooks again,
    online or not and whoever it is about. *)
Theorem payload_after_logout_fires_onLogin history d pub :
  ud_publicInfo d = Some pub ->
  let st := exec logout (run run_callback history) in
  exists st' la seg,
    deliver run_callback (FeedData d) st = (Ok tt, st')
    /\ trace st' = trace st ++ seg
    /\ dispatched run_callback (_onLoginTriggers st) (VRef la) ConsoleLog seg
    /\ (all_return run_callback (_onLoginTriggers st) ->
        seg = invocations (_onLoginTriggers st) (VRef la)).
Proof.
  intros Epub st.
  assert (Hinv : store_invariant st).
  { pose proof (run_invariant (history ++ [CallLogout])) as H. by rewrite run_snoc in H. }
  destruct (deliver_data_on_invariant d st Hinv) as (st' & lp & la & seg & E & Htr & Hseg).
  assert (T : negb (non_null (userId st)) && has_public (FeedData d) = true).
  { unfold has_public. rewrite Epub. by rewrite bool_decide_true by eauto. }
  rewrite T in Hseg. destruct Hseg as (_ & _ & D).
  exists st', la, seg. split; [done|]. split; [done|]. split; [done|].
  intros Hret. by eapply dispatched_all_return.
Qed.

(** X5.  The absence signal that follows a [logout()] does nothing: [userId]
    is already null, so no [onLogout] hook runs and the state stays as
    [logout] left it. *)
Theorem absence_after_logout_runs_no_hook st :
  deliver run_callback FeedAbsent (exec logout st) = (Ok tt, exec logout st).
Proof. by rewrite deliver_absent_falsy. Qed.


(** X7.  Whether the [onLogin] hooks run for a user created online through
    [createUser] depends on which of the two backend callbacks comes first.
    When the answer to [createUser] comes first, it sets [userId] and calls
    the callback of [createUser] only, and a feed payload that follows finds
    the user set and dispatches nothing.  When the feed payload for the new
    user comes first, with no user set, that payload dispatches the hooks
    (with [{id, publicInfo}], as far as the first one that throws), and the
    answer to [createUser] that follows adds the call of its callback
    only. *)
Theorem onLogin_for_created_user_depends_on_order history callback d0 d :
  is_online (FeedData d0) = true ->
  let st0 := run run_callback history in
  (let st := exec (deliver_created run_callback callback (Created d0)) st0 in
   userId st = VStr (ud_id d0)
   /\ (exists u, trace st = trace st0 ++ [Invoke callback [VNull; VRef u]])
   /\ exists st', deliver run_callback (FeedData d) st = (Ok tt, st')
                  /\ trace st' = trace st)
  /\ (userId st0 = VNull ->
      exists st1 sta la lp seg,
        deliver run_callback (FeedData d0) st0 = (Ok tt, st1)
        /\ userId st1 = VStr (ud_id d0)
        /\ trace st1 = trace st0 ++ seg
        /\ trace sta = trace st0
        /\ heap sta !! la = Some (established_view (VStr (ud_id d0)) (VRef lp))
        /\ dispatched_until_throw run_callback (_onLoginTriggers st0) (VRef la)
             ConsoleLog sta seg
        /\ (all_return run_callback (_onLoginTriggers st0) ->
            seg = invocations (_onLoginTriggers st0) (VRef la))
        /\ exists u,
             trace (exec (deliver_created run_callback callback (Created d0)) st1)
             = trace st1 ++ [Invoke callback [VNull; VRef u]]).
Proof.
  intros Hon st0. split.
  - intros st.
    assert (Hinv : store_invariant st).
    { pose proof (run_invariant (history ++ [CreateAnswer callback (Created d0)])) as H.
      by rewrite run_snoc in H. }
    destruct (deliver_created_ok callback d0 st0)
      as (u & st1 & lp & _ & E & _ & _ & Hid & _ & _ & _ & _ & _ & _ & Htr & _).
    fold (exec (deliver_created run_callback callback (Created d0)) st0) in E. fold st in E.
    rewrite Hon in Hid.
    assert (Eid : userId st = VStr (ud_id d0)) by (by rewrite E).
    split; [done|]. split.
    { exists u. rewrite E. cbn. by rewrite Htr. }
    destruct (deliver_data_on_invariant d st Hinv)
      as (st' & lp' & la & seg & Ed & Htr' & Hseg).
    rewrite Eid in Hseg. cbn in Hseg. subst seg.
    exists st'. split; [done|]. by rewrite Htr', app_nil_r.
  - intros Hnull.
    assert (Hpub : has_public (FeedData d0) = true).
    { unfold is_online, has_public in *. destruct (ud_publicInfo d0); [|done].
      by rewrite bool_decide_true by eauto. }
    destruct (payload_spec d0 st0)
      as (u0 & sta & st1 & lp & _ & _ & Ed & _ & Hid & _ & _ & _ & _ & Hin & _ & Htr & _).
    rewrite (invariant_user st0 (run_invariant history)), Hnull, Hpub in Ed.
    cbn [non_null negb andb] in Ed. rewrite Hon in Hid.
    set (la := fresh (dom (heap st1))) in *.
    set (st1' := set_heap _ st1) in Ed.
    destruct (_handleUserEstablished_exact (VRef la) st1') as (seg & Eh & D).
    rewrite Eh in Ed.
    change (_onLoginTriggers st1') with (_onLoginTriggers st1) in D. rewrite Hin in D.
    exists (emit_all seg st1'), st1', la, lp, seg.
    split; [exact Ed|]. split; [exact Hid|]. split; [cbn; by rewrite Htr|].
    split; [exact Htr|]. split; [cbn; by rewrite lookup_insert_eq|].
    split; [exact D|]. split.
    { intros Hret. by eapply dispatched_until_throw_all_return. }
    destruct (deliver_created_ok callback d0 (emit_all seg st1'))
      as (u & st2 & lp2 & _ & E & _ & _ & _ & _ & _ & _ & _ & _ & _ & Htr2 & _).
    exists u. unfold exec. rewrite E. cbn. by rewrite Htr2.
Qed.

(** X8.  [createUser] contacts the backend exactly when the credentials are
    an object whose [email] and [password] are both truthy: then it makes
    the one call [userDb.createUser(user, callback)], calls no callback and
    returns [undefined].  In every other case (no object, or a field that
    is absent, empty, [null], [0] or [false]) it makes no backend call and
    calls the callback once, with a new error object.  Either way the
    store's fields and existing objects are unchanged. *)
Theorem createUser_calls_backend_iff_credentials_present user callback st :
  let st' := exec (createUser run_callback user callback) st in
  same_store st st'
  /\ if credentials_rejected (heap st) user then
       exists l, heap st !! l = None
                 /\ heap st' !! l
                    = Some {["message" := VStr "You must provide an email and password"]}
                 /\ trace st' = trace st ++ [Invoke callback [VRef l]]
     else
       createUser run_callback user callback st = (Ok VUndefined, st')
       /\ heap st' = heap st
       /\ trace st' = trace st ++ [Db (CreateUser user callback) (heap st)].
Proof.
  intros st'. split; [apply createUser_same_store|].
  unfold st', exec. rewrite createUser_spec.
  destruct (credentials_rejected (heap st) user).
  - exists (fresh (dom (heap st))). rewrite call_state. cbn.
    split; [apply fresh_unused|]. split; [by rewrite lookup_insert_eq|done].
  - done.
Qed.

(** X9.  [privateInfo] and [serverInfo] are only ever overwritten: a data
    payload replaces a slice by the object it carries for it and leaves the
    slice as it is when it carries none, whoever the payload is about; an
    error and an absence signal leave both slices alone. *)
Theorem feed_overwrites_slices_only_when_present e st :
  let st' := exec (deliver run_callback e) st in
  match e with
  | FeedData d =>
      slot_applied (ud_privateInfo d) (privateInfo st) (privateInfo st') (heap st) (heap st')
      /\ slot_applied (ud_serverInfo d) (serverInfo st) (serverInfo st') (heap st) (heap st')
  | _ => privateInfo st' = privateInfo st /\ serverInfo st' = serverInfo st
  end.
Proof.
  intros st'. unfold st', exec. destruct e as [err| |d].
  - by rewrite deliver_error_spec.
  - destruct (truthy (userId st)) eqn:E.
    + by destruct (deliver_absent_truthy st E) as (seg & -> & _).
    + by rewrite (deliver_absent_falsy st E).
  - destruct (payload_spec d st)
      as (u & sta & st1 & lp & _ & _ & -> & _ & _ & _ & _ & Hpr & Hsv & _).
    destruct (falsy (user st) && has_public (FeedData d)).
    + destruct (_handleUserEstablished_spec (VRef (fresh (dom (heap st1))))
                  (set_heap (<[fresh (dom (heap st1))
                               := established_view (VStr (ud_id d)) (VRef lp)]> (heap st1)) st1))
        as (seg & -> & _).
      cbn. unfold slot_applied in *.
      split.
      * destruct (ud_privateInfo d); [|done]. destruct Hpr as (l & E1 & E2 & E3).
        exists l. split; [done|]. split; [done|].
        rewrite lookup_insert_ne; [done|]. by apply fresh_not_allocated in E3.
      * destruct (ud_serverInfo d); [|done]. destruct Hsv as (l & E1 & E2 & E3).
        exists l. split; [done|]. split; [done|].
        rewrite lookup_insert_ne; [done|]. by apply fresh_not_allocated in E3.
    + done.
Qed.

(** X10.  With a [query] that is neither a string nor an object ([undefined],
    [null], a boolean, a number or a function), [searchFromLocalUsersByField]
    throws a [TypeError] as soon as some cached profile has a string in the
    field (the call [query.toUpperCase()] fails) and returns the empty array
    when none has; the state is unchanged either way. *)
Theorem search_with_non_string_query field_name query st :
  is_string query = false ->
  (forall l, query <> VRef l) ->
  searchFromLocalUsersByField field_name query st
  = (if existsb (fun e => is_string (field (obj_at (heap st) e.2) field_name)) (usersMap st)
     then Thrown TypeError else Ok [], st).
Proof.
  intros Hq _. unfold searchFromLocalUsersByField.
  rewrite (bind_Ok get _ st st st eq_refl). by apply search_entries_no_string.
Qed.

(** X11.  Searching by [displayName] and searching by [email].  In any
    state the store reaches through calls, deliveries and edits of cached
    profiles (the application leaving [id] and [save] alone), the two
    searches agree on every cached profile that is not stale: one finds it
    exactly when the other does.  When no profile is stale, every profile
    whose [email] or [displayName] was assigned having since been saved or
    delivered again, the two searches return the same array. *)
Theorem search_by_displayName_is_search_by_email history q :
  forallb keeps_id_and_save history = true ->
  let st := run_app run_callback history in
  exists by_name by_email,
    searchFromLocalUsersByField "displayName" (VStr q) st = (Ok by_name, st)
    /\ searchFromLocalUsersByField "email" (VStr q) st = (Ok by_email, st)
    /\ (forall s l, map_get (VStr s) (usersMap st) = Some l -> ~ In s (stale history) ->
                    (In (VRef l) by_name <-> In (VRef l) by_email))
    /\ (stale history = [] -> by_name = by_email).
Proof.
  intros Hkeep st.
  pose proof (run_app_modulo history Hkeep) as Hinv. fold st in Hinv.
  pose proof (run_app_unique_keys history Hkeep) as Hnd. fold st in Hnd.
  assert (Hagree : forall s l, map_get (VStr s) (usersMap st) = Some l ->
                     ~ In s (stale history) ->
                     field_matches (heap st) "displayName" q l
                     = field_matches (heap st) "email" q l).
  { intros s l E Hs. destruct Hinv as (Hn & _).
    destruct (Hn _ _ E) as (o & Ho & _ & _ & Hname).
    unfold field_matches. rewrite (obj_at_Some _ _ _ Ho).
    unfold field at 1. by rewrite (Hname s eq_refl Hs). }
  eexists. eexists.
  split; [unfold searchFromLocalUsersByField;
          rewrite (bind_Ok get _ st st st eq_refl); apply search_entries_spec|].
  split; [unfold searchFromLocalUsersByField;
          rewrite (bind_Ok get _ st st st eq_refl); apply search_entries_spec|].
  cbn [app]. split.
  - intros s l E Hs. rewrite !in_map_iff.
    split; intros (l' & [= ->] & Hin); exists l; (split; [done|]);
      apply filter_In in Hin as [Hin Hm]; apply filter_In; (split; [done|]).
    + by rewrite <- (Hagree s l E Hs).
    + by rewrite (Hagree s l E Hs).
  - intros Hstale. f_equal. apply filter_ext_in. intros l Hl.
    apply in_map_iff in Hl as ([k l'] & <- & Hin). cbn [snd].
    apply (In_map_get _ _ _ Hnd) in Hin.
    destruct Hinv as (_ & _ & Hk). destruct (Hk _ _ Hin) as [s ->].
    apply (Hagree s l' Hin). rewrite Hstale. by intros [].
Qed.

End Properties.

(** ** The claims at concrete inputs *)

#[local] Existing Instance ascii_case.

Lemma quiet_all_return cbs : all_return quiet cbs.
Proof. intros c a s _. by exists VUndefined. Qed.

(** C1 as the specification words it does not hold: bob comes online and a
    later payload reports him offline; the most recent [publicInfo] payload
    is not online, yet [userId] is still set. *)
Lemma offline_payload_keeps_userId :
  non_null (userId (run_feed quiet [bob_payload true; bob_payload false]
                             (with_hooks [] []))) = true
  /\ spec_authenticated [bob_payload true; bob_payload false] = false.
Proof. split; vm_compute; reflexivity. Qed.

(** C2 as the specification words it does not hold: an offline payload
    followed by an online one makes one transition to an online profile,
    but the single [onLogin] hook is called twice. *)
Lemma offline_payload_fires_onLogin :
  count_invocations
    (trace (run_feed quiet [bob_payload false; bob_payload true] (with_hooks [1%nat] [])))
  = 2%nat
  /\ spec_onLogin_fires false [bob_payload false; bob_payload true] = 1%nat.
Proof. split; vm_compute; reflexivity. Qed.

(** C3 as the specification words it does not hold: hook 0 throws during
    the [onLogin] dispatch and hook 1, registered after it, is never
    called. *)
Lemma hook_after_throwing_hook_is_skipped :
  _onLoginTriggers (with_hooks [0; 1]%nat []) = [0; 1]%nat
  /\ trace (run_feed first_throws [bob_payload true] (with_hooks [0; 1]%nat []))
     = [Invoke 0 [VRef 4%positive]; ConsoleLog (VStr "boom")]
  /\ ~ (exists a, In (Invoke 1 a)
                    (trace (run_feed first_throws [bob_payload true]
                                     (with_hooks [0; 1]%nat [])))).
Proof.
  assert (E : trace (run_feed first_throws [bob_payload true] (with_hooks [0; 1]%nat []))
              = [Invoke 0 [VRef 4%positive]; ConsoleLog (VStr "boom")])
    by (vm_compute; reflexivity).
  split; [reflexivity|]. split; [exact E|].
  rewrite E. intros [a [H|[H|[]]]]; discriminate.
Qed.

(** C4 as the specification words it does not hold: bob is logged in, two
    [onLogout] hooks are registered, hook 0 throws; the absence signal calls
    hook 0 only. *)
Lemma absence_skips_hook_after_throwing_hook :
  non_null (userId (bob_logged_in first_throws)) = true
  /\ _onLogoutTriggers (bob_logged_in first_throws) = [0; 1]%nat
  /\ trace (exec (deliver first_throws FeedAbsent) (bob_logged_in first_throws))
     = trace (bob_logged_in first_throws) ++ [Invoke 0 [VRef 5%positive]; Debugger].
Proof. repeat split; vm_compute; reflexivity. Qed.

(** C8 as the specification words it does not hold: with bob logged in,
    [logout] hands the backend bob's public profile (the object at 1), which
    is not the composite view: it has no [private] field. *)
Lemma logout_argument_is_not_full_view :
  trace (exec logout (bob_logged_in quiet))
  = trace (bob_logged_in quiet) ++ [Db (Logout (VRef 1%positive)) (heap (bob_logged_in quiet))]
  /\ field (obj_at (heap (bob_logged_in quiet)) 1%positive) "private" = VUndefined
  /\ field (full_view (bob_logged_in quiet)) "private" = VRef 2%positive
  /\ heap (bob_logged_in quiet) !! 1%positive <> Some (full_view (bob_logged_in quiet)).
Proof.
  split; [vm_compute; reflexivity|]. split; [vm_compute; reflexivity|].
  split; [vm_compute; reflexivity|].
  intros E.
  assert (F : field (obj_at (heap (bob_logged_in quiet)) 1%positive) "private"
              = field (full_view (bob_logged_in quiet)) "private").
  { by rewrite (obj_at_Some _ _ _ E). }
  vm_compute in F. discriminate.
Qed.

(** C2 at the first payload of a session: bob comes online with two quiet
    hooks registered; both are called once, in order, and bob is then the
    current user. *)
Lemma onLogin_fires_witness :
  exists st' la,
    deliver quiet (bob_payload true) (with_hooks [0; 1]%nat []) = (Ok tt, st')
    /\ trace st' = invocations [0; 1]%nat (VRef la)
    /\ falsy (user st') = false.
Proof.
  destruct (onLogin_fires_while_no_user_is_set quiet [0; 1]%nat [] []
              (UserData "1" (Some (bob true)) (Some secrets) None))
    as (st' & lp & la & seg & E & Htr & _ & Hif & Hon).
  change (negb (established []) && has_public (FeedData
            (UserData "1" (Some (bob true)) (Some secrets) None))) with true in Hif.
  destruct Hif as (_ & _ & _ & _ & Hall).
  exists st', la. split; [exact E|]. split.
  - rewrite Htr, (Hall (quiet_all_return _)). reflexivity.
  - apply Hon. reflexivity.
Defined.

(** C3 with hooks 1, 0, 2 registered, of which 0 throws: hook 1 runs, hook
    0 throws, hook 2 is not called; the error is logged on the login side
    and [userId] is cleared on the logout side. *)
Lemma throwing_hook_witness :
  _handleUserEstablished first_throws VNull three_hooks
  = (Ok tt, emit_all [Invoke 1 [VNull]; Invoke 0 [VNull]; ConsoleLog (VStr "boom")] three_hooks)
  /\ exists l tail st',
       deliver first_throws FeedAbsent three_hooks = (Ok tt, st')
       /\ userId st' = VNull
       /\ trace st' = trace three_hooks ++ [Invoke 1 [VRef l]; Invoke 0 [VRef l]] ++ tail
       /\ Forall (fun x => is_invoke x = false) tail.
Proof.
  destruct (throwing_hook_is_caught_and_ends_dispatch first_throws
              [1%nat] 0%nat [2%nat] (VStr "boom") three_hooks) as (Hin & Hout & _).
  - intros c' a s [<-|[]]. by exists VUndefined.
  - reflexivity.
  - split.
    + apply Hin. vm_compute. reflexivity.
    + apply Hout; vm_compute; reflexivity.
Defined.

(** C4 with bob logged in and two quiet hooks: the absence signal calls
    both hooks, in order, with the same view. *)
Lemma absence_witness :
  exists l,
    trace (exec (deliver quiet FeedAbsent) (bob_logged_in quiet))
    = trace (bob_logged_in quiet) ++ [Invoke 0 [VRef l]; Invoke 1 [VRef l]].
Proof.
  destruct (absence_runs_onLogout_with_full_view quiet (bob_logged_in quiet))
    as (st' & E & _ & _ & _ & _ & H).
  assert (T : truthy (userId (bob_logged_in quiet)) = true) by (vm_compute; reflexivity).
  rewrite T in H. destruct H as (l & seg & _ & _ & Htr & _ & Hall).
  exists l. unfold exec. rewrite E. cbn [snd].
  rewrite Htr, (Hall (quiet_all_return _)).
  assert (L : _onLogoutTriggers (bob_logged_in quiet) = [0; 1]%nat) by (vm_compute; reflexivity).
  rewrite L. reflexivity.
Defined.

(** C5 at the specification's example: an empty [email]. *)
Lemma createUser_witness :
  missing_credentials (heap empty_email) (VRef 1%positive) = true
  /\ exists l,
       trace (exec (createUser quiet (VRef 1%positive) 7%nat) empty_email)
       = [Invoke 7 [VRef l]]
       /\ usersMap (exec (createUser quiet (VRef 1%positive) 7%nat) empty_email) = [].
Proof.
  assert (H : missing_credentials (heap empty_email) (VRef 1%positive) = true)
    by (vm_compute; reflexivity).
  split; [exact H|].
  destruct (createUser_rejects_missing_credentials quiet (VRef 1%positive) 7%nat empty_email H)
    as (l & st' & _ & E & _ & Htr & _ & Hmap & _).
  exists l. rewrite E. split; [exact Htr|exact Hmap].
Defined.


(** C9 on bob's cached profile. *)
Lemma save_witness :
  exists w h st',
    save (VRef 1%positive) (bob_logged_in quiet) = (Ok tt, st')
    /\ trace st' = trace (bob_logged_in quiet)
                   ++ [Db (SaveToUsersCollection (VStr "1") (VRef w)) h]
    /\ h !! 1%positive = Some (bob true)
    /\ heap st' !! 1%positive = heap (bob_logged_in quiet) !! 1%positive.
Proof.
  assert (Ho : heap (bob_logged_in quiet) !! 1%positive
               = Some (normalized (VStr "1") (bob true))) by (vm_compute; reflexivity).
  destruct (save_sends_public_fields_and_restores 1%positive _ (bob_logged_in quiet) Ho eq_refl)
    as (w & h & st' & E & Htr & _ & Hl & _ & Hafter & _).
  exists w, h, st'. split; [exact E|]. split; [exact Htr|]. split.
  - etrans; [exact Hl|]. vm_compute. reflexivity.
  - etrans; [exact Hafter|]. etrans; [|symmetry; exact Ho].
    vm_compute. reflexivity.
Defined.

(** C10 on the empty cache. *)
Lemma absent_profile_witness :
  falsy VNull = true
  /\ map_get (VStr "u1") (usersMap initial) = None
  /\ _listenToPublicUserData_cb (VStr "u1") VNull VNull initial = (Ok tt, initial)
  /\ (getUserById (VStr "u1")
        (exec (_listenToPublicUserData_cb (VStr "u1") VNull VNull) initial)).1
     = Ok VUndefined.
Proof.
  destruct (absent_profile_leaves_store_untouched (VStr "u1") VNull VNull initial eq_refl)
    as (A & _ & C).
  split; [reflexivity|]. split; [reflexivity|]. split; [exact A|exact (C eq_refl)].
Defined.

(** * Properties of the file watcher *)

Section WatcherProperties.

Variable join : string -> string -> string.

(** ** [getPathSuffix] *)

Lemma append_cons c (a b : string) : String c a +:+ b = String c (a +:+ b).
Proof. reflexivity. Qed.

Lemma append_assoc (a b c : string) : (a +:+ b) +:+ c = a +:+ (b +:+ c).
Proof. induction a as [|x a IH]; [done|]. by rewrite !append_cons, IH. Qed.

Lemma length_append (a b : string) :
  String.length (a +:+ b) = (String.length a + String.length b)%nat.
Proof. induction a as [|x a IH]; [done|]. rewrite append_cons. simpl. by rewrite IH. Qed.

(** A prefix of [a +:+ b] that is no longer than [a] is a prefix of [a]. *)
Lemma prefix_within q : forall a b post,
  a +:+ b = q +:+ post -> (String.length q <= String.length a)%nat ->
  exists post', a = q +:+ post'.
Proof.
  induction q as [|c q IH]; intros a b post E L.
  - by exists a.
  - destruct a as [|c' a]; simpl in L; [lia|].
    rewrite !append_cons in E. injection E as -> E.
    destruct (IH a b post E) as (post' & ->); [lia|]. by exists post'.
Qed.

Lemma index_of_absent s q : includes s q = false -> index_of s q = None.
Proof.
  induction s as [|c s IH]; cbn [includes index_of]; intros E;
    apply orb_false_iff in E as [-> E]; [done|].
  by rewrite IH.
Qed.

Lemma index_of_shared pre rest :
  includes (pre +:+ "shared") "shared/" = false ->
  index_of (pre +:+ "shared/" +:+ rest) "shared/" = Some (String.length pre).
Proof.
  induction pre as [|c pre IH]; intros E; [done|].
  rewrite append_cons in E. cbn [includes] in E.
  apply orb_false_iff in E as [E1 E2].
  rewrite append_cons. cbn [index_of].
  destruct (starts_with "shared/" (String c (pre +:+ "shared/" +:+ rest))) eqn:S.
  - exfalso. apply starts_with_spec in S as (post & S).
    assert (P : exists post', String c (pre +:+ "shared") = "shared/" +:+ post').
    { apply (prefix_within "shared/" (String c (pre +:+ "shared")) ("/" +:+ rest) post).
      - rewrite <- S, append_cons. f_equal. by rewrite append_assoc.
      - simpl. rewrite length_append. simpl. lia. }
    apply starts_with_spec in P. congruence.
  - rewrite (IH E2). reflexivity.
Qed.

Lemma drop_chars_append a b : drop_chars (String.length a) (a +:+ b) = b.
Proof.
  induction a as [|c a IH]; [by destruct b|]. rewrite append_cons. exact IH.
Qed.

Lemma getPathSuffix_found pre rest :
  includes (pre +:+ "shared") "shared/" = false ->
  getPathSuffix (pre +:+ "shared/" +:+ rest) = rest.
Proof.
  intros E. unfold getPathSuffix, indexOf, substring.
  rewrite (index_of_shared pre rest E).
  replace (Z.to_nat (Z.of_nat (String.length pre) + Z.of_nat (String.length "shared/")))
    with (String.length (pre +:+ "shared/")) by (rewrite length_append; lia).
  by rewrite <- drop_chars_append with (a := pre +:+ "shared/") (b := rest) at 2;
    rewrite append_assoc.
Qed.

(** X12.  [getPathSuffix] returns what follows the first [shared/] of the
    path.  A path without [shared/] is not returned as it is: [indexOf]
    gives -1 and the path loses its first six characters. *)
Theorem getPathSuffix_follows_first_shared :
  (forall pre rest,
     includes (pre +:+ "shared") "shared/" = false ->
     getPathSuffix (pre +:+ "shared/" +:+ rest) = rest)
  /\ (forall p, includes p "shared/" = false -> getPathSuffix p = drop_chars 6 p).
Proof.
  split.
  - apply getPathSuffix_found.
  - intros p E. unfold getPathSuffix, indexOf, substring.
    by rewrite (index_of_absent p _ E).
Qed.

(** ** Effects *)

Lemma add_effects_app es1 es2 w :
  add_effects es2 (add_effects es1 w) = add_effects (es1 ++ es2) w.
Proof. unfold add_effects. simpl. by rewrite <- app_assoc. Qed.

Lemma handleFileChange_spec filePath w :
  handleFileChange filePath w
  = (Ok tt, add_effects (mirror_copies filePath (getPathSuffix filePath)) w).
Proof.
  unfold handleFileChange, wbind, copyFile, effect_, add_effects, mirror_copies. simpl.
  by rewrite <- app_assoc.
Qed.

Lemma handleFileEvent_spec eventType filePath w :
  handleFileEvent eventType filePath w
  = (Ok tt, add_effects (event_effects eventType filePath) w).
Proof.
  unfold handleFileEvent, event_effects.
  destruct (String.eqb eventType "change"); [apply handleFileChange_spec|].
  destruct (String.eqb eventType "rename"); reflexivity.
Qed.

(** The listener, in one step. *)
Lemma watchDir_cb_spec dir eventType filename w :
  let filePath := join dir filename in
  watchDir_cb join dir eventType filename w
  = (Ok tt,
     if negb (fsTimeout w) || negb (bool_decide (lastFileChanged w = Some filePath))
     then {| fsTimeout := true; lastFileChanged := Some filePath;
             effects := effects w ++ handled_effects eventType filePath |}
     else {| fsTimeout := fsTimeout w; lastFileChanged := Some filePath;
             effects := effects w |}).
Proof.
  intros filePath. unfold watchDir_cb. fold filePath. unfold wbind at 1, wget.
  destruct (negb (fsTimeout w) || negb (bool_decide (lastFileChanged w = Some filePath))).
  - unfold wbind, effect_, set_fsTimeout, set_lastFileChanged.
    rewrite handleFileEvent_spec. unfold add_effects, handled_effects. simpl.
    by rewrite <- app_assoc.
  - reflexivity.
Qed.

(** After any event the timer flag is set and the event's path is the last
    one. *)
Lemma watch_step_armed dir eventType filename w :
  let w' := watch_step join dir (FsEvent eventType filename) w in
  fsTimeout w' = true /\ lastFileChanged w' = Some (join dir filename).
Proof.
  cbv zeta. unfold watch_step, wexec. rewrite watchDir_cb_spec. cbv zeta. cbn [snd].
  destruct (fsTimeout w); cbn [negb orb]; [|done].
  destruct (negb (bool_decide _)); done.
Qed.

Lemma watch_step_repeat dir eventType filename w :
  fsTimeout w = true -> lastFileChanged w = Some (join dir filename) ->
  watch_step join dir (FsEvent eventType filename) w = w.
Proof.
  intros Ht Hl. unfold watch_step, wexec. rewrite watchDir_cb_spec. cbv zeta. cbn [snd].
  rewrite Ht, Hl, bool_decide_true by done. cbn [negb orb].
  destruct w; simpl in *. by subst.
Qed.

Lemma watch_step_handled dir eventType filename w :
  fsTimeout w = false \/ lastFileChanged w <> Some (join dir filename) ->
  watch_step join dir (FsEvent eventType filename) w
  = {| fsTimeout := true; lastFileChanged := Some (join dir filename);
       effects := effects w ++ handled_effects eventType (join dir filename) |}.
Proof.
  intros H. unfold watch_step, wexec. rewrite watchDir_cb_spec. cbv zeta. cbn [snd].
  destruct H as [->|H]; [done|].
  rewrite bool_decide_false by done. by rewrite orb_true_r.
Qed.

Lemma watch_step_timer dir w :
  watch_step join dir TimerFires w
  = {| fsTimeout := false; lastFileChanged := lastFileChanged w; effects := effects w |}.
Proof. reflexivity. Qed.

Lemma watch_all_run_snoc inputs i w :
  watch_all_run join (inputs ++ [i]) w = watch_step join i.1 i.2 (watch_all_run join inputs w).
Proof. unfold watch_all_run. by rewrite fold_left_app. Qed.

(** The debounce state is told by the last input. *)
Lemma watch_all_run_state before w0 :
  let w := watch_all_run join before w0 in
  match last before with
  | Some (dir, FsEvent _ filename) =>
      fsTimeout w = true /\ lastFileChanged w = Some (join dir filename)
  | Some (_, TimerFires) => fsTimeout w = false
  | None => w = w0
  end.
Proof.
  destruct before as [|i before _] using rev_ind; [done|].
  cbv zeta. rewrite last_snoc, watch_all_run_snoc.
  destruct i as [dir [eventType filename|]]; cbn [fst snd].
  - apply watch_step_armed.
  - by rewrite watch_step_timer.
Qed.

(** X13.  Which events the listeners drop.  The three listeners share
    [fsTimeout] and [lastFileChanged].  Whatever has reached them so far,
    an event is dropped, changing neither the state nor the effects,
    exactly when the input just before it was an event for the same path,
    of whatever type; in every other case, after a timer or after an event
    for another path, it is handled: the 200 ms timer is set and
    [handleFileEvent] is called.  So a run of events for one file is
    handled once, but the same file is handled again as soon as an event
    for another file has come in between. *)
Theorem event_is_dropped_iff_it_repeats_the_last_input
    before dir eventType filename w0 :
  let w := watch_all_run join before w0 in
  let filePath := join dir filename in
  watch_step join dir (FsEvent eventType filename) w
  = if repeats_last_input join w0 before filePath then w
    else {| fsTimeout := true; lastFileChanged := Some filePath;
            effects := effects w ++ handled_effects eventType filePath |}.
Proof.
  intros w filePath. pose proof (watch_all_run_state before w0) as H.
  cbv zeta in H. fold w in H. unfold repeats_last_input.
  destruct (last before) as [[dir' [eventType' filename'|]]|].
  - destruct H as [Ht Hl]. destruct (decide (join dir' filename' = filePath)) as [E|E].
    + rewrite bool_decide_true by done. apply watch_step_repeat; [done|by rewrite Hl, E].
    + rewrite bool_decide_false by done. apply watch_step_handled.
      right. rewrite Hl. intros [= F]. by apply E.
  - apply watch_step_handled. by left.
  - rewrite H. destruct (fsTimeout w0) eqn:Ht; cbn [andb].
    + destruct (decide (lastFileChanged w0 = Some filePath)) as [E|E].
      * rewrite bool_decide_true by done. by apply watch_step_repeat.
      * rewrite bool_decide_false by done. apply watch_step_handled. by right.
    + apply watch_step_handled. by left.
Qed.

(** X14.  Events are debounced by path only: in a sequence in which each
    event is for another path than the one before, every event is handled,
    pending timers or not; each arms a timer of its own and none is ever
    cancelled. *)
Theorem events_for_changing_paths_are_all_handled dir events w :
  path_changes_each_time join dir (lastFileChanged w) events ->
  effects (watch_run join dir (map (fun e => FsEvent e.1 e.2) events) w)
  = effects w ++ flat_map (fun e => handled_effects e.1 (join dir e.2)) events.
Proof.
  revert w. induction events as [|[t f] events IH]; intros w H.
  - simpl. by rewrite app_nil_r.
  - destruct H as [Hne H]. unfold watch_run in *. cbn [map fold_left fst snd flat_map].
    rewrite (watch_step_handled dir t f w) by (by right).
    rewrite IH by done. cbn [effects]. by rewrite <- app_assoc.
Qed.

(** X15.  The window is closed by one flag for all files and reopened by
    any timer.  Two events for different files arm two timers; as soon as
    the first of them fires, a new event for the second file is handled
    again, although that file's own timer is still pending. *)
Theorem first_timer_reopens_the_window dir t1 a t2 b t3 w :
  lastFileChanged w <> Some (join dir a) ->
  join dir a <> join dir b ->
  effects (watch_run join dir [FsEvent t1 a; FsEvent t2 b; TimerFires; FsEvent t3 b] w)
  = effects w ++ handled_effects t1 (join dir a) ++ handled_effects t2 (join dir b)
              ++ handled_effects t3 (join dir b).
Proof.
  intros Ha Hab. unfold watch_run. cbn [fold_left].
  rewrite (watch_step_handled dir t1 a w) by (by right).
  rewrite (watch_step_handled dir t2 b) by (right; cbn; congruence).
  rewrite watch_step_timer.
  rewrite (watch_step_handled dir t3 b) by (by left).
  cbn [effects]. by rewrite <- !app_assoc.
Qed.

(** ** Mirroring *)

(** X16.  A change of a file under [shared/] is mirrored to the same
    relative path in both inner projects: two 50 ms timers are set, the one
    for [./mobile/src/] first, and each, when it fires, asks [fs.copyFile]
    to copy the file there. *)
Theorem change_is_mirrored_to_both_projects pre rest w w' :
  includes (pre +:+ "shared") "shared/" = false ->
  let filePath := pre +:+ "shared/" +:+ rest in
  let to_mobile := CopyFileTask ("./" +:+ filePath) ("./mobile/src/" +:+ rest) in
  let to_web := CopyFileTask ("./" +:+ filePath) ("./web/src/" +:+ rest) in
  handleFileEvent "change" filePath w
  = (Ok tt, add_effects [SetTimeout to_mobile 50; SetTimeout to_web 50] w)
  /\ wexec (wbind (run_task to_mobile) (fun _ => run_task to_web)) w'
     = add_effects [CopyFile ("./" +:+ filePath) ("./mobile/src/" +:+ rest);
                    CopyFile ("./" +:+ filePath) ("./web/src/" +:+ rest)] w'.
Proof.
  intros E filePath to_mobile to_web. split.
  - rewrite handleFileEvent_spec. unfold event_effects. cbn [String.eqb Ascii.eqb].
    unfold filePath. by rewrite (getPathSuffix_found pre rest E).
  - unfold wexec, wbind, run_task, effect_, add_effects. simpl. by rewrite <- app_assoc.
Qed.

(** X17.  A rename under [shared/] first asks whether the file exists.  If
    it does (no error from [fs.access]) it is mirrored like a change; if it
    does not, the file of the same relative path is unlinked in both inner
    projects, mobile first. *)
Theorem rename_mirrors_or_unlinks pre rest err w w' :
  includes (pre +:+ "shared") "shared/" = false ->
  let filePath := pre +:+ "shared/" +:+ rest in
  handleFileEvent "rename" filePath w = (Ok tt, add_effects [Access filePath] w)
  /\ fileExists_cb (handleFileRename_cb filePath) err w'
     = (Ok tt,
        add_effects
          (if truthy err
           then [Unlink ("./mobile/src/" +:+ rest); Unlink ("./web/src/" +:+ rest)]
           else mirror_copies filePath rest) w').
Proof.
  intros E filePath. split; [by rewrite handleFileEvent_spec|].
  unfold fileExists_cb, handleFileRename_cb.
  destruct (truthy err).
  - unfold filePath. rewrite (getPathSuffix_found pre rest E).
    unfold wbind, effect_, add_effects. simpl. by rewrite <- app_assoc.
  - rewrite handleFileChange_spec. unfold filePath.
    by rewrite (getPathSuffix_found pre rest E).
Qed.

(** ** Copying at start *)

Lemma add_effects_nil w : add_effects [] w = w.
Proof. destruct w. unfold add_effects. simpl. by rewrite app_nil_r. Qed.

Lemma wforEach_effects {A} (g : A -> fs_effect) l w :
  wforEach (fun x => effect_ (g x)) l w = (Ok tt, add_effects (map g l) w).
Proof.
  revert w. induction l as [|x l IH]; intros w.
  - simpl. by rewrite add_effects_nil.
  - cbn [wforEach map]. unfold wbind at 1, effect_ at 1. rewrite IH.
    unfold add_effects. simpl. by rewrite <- app_assoc.
Qed.

(** X18.  [copyFileIfDiff] reads the destination, and the request it makes
    carries no [onErr].  Whatever Node then answers, an error included,
    the content that comes back ([undefined] when the read failed) is
    compared with the source's, and the source's content is written to the
    destination exactly when the two differ: a destination that cannot be
    read is written.  The [onErr] given to [copyFileIfDiff] goes with that
    write only; it is called when the write fails and, being that of
    [copyFolder], logs the error. *)
Theorem destination_is_written_iff_content_differs
    sourceContent destinationPath onErr w :
  exists read,
    copyFileIfDiff sourceContent destinationPath onErr w = (Ok tt, add_effects [read] w)
    /\ (exists onFileContent, read = ReadFile destinationPath onFileContent None)
    /\ forall err destContent w',
         respond join read (ReadAnswer err destContent) w'
         = (Ok tt, if bool_decide (sourceContent = destContent) then w'
                   else add_effects [WriteFile destinationPath sourceContent onErr] w')
         /\ forall werr w'',
              respond join (WriteFile destinationPath sourceContent onErr) (WriteAnswer werr) w''
              = (Ok tt, match onErr with
                        | Some OnErr_copyFolder =>
                            if truthy werr then add_effects [LogConcat "ERR: " werr] w''
                            else w''
                        | None => w''
                        end).
Proof.
  eexists. split; [reflexivity|]. split; [by eexists|].
  intros err destContent w'. split.
  - cbn [respond readFile_cb call_onFileContent]. unfold copyFileIfDiff_cb.
    destruct (decide (sourceContent = destContent)) as [E|E].
    + by rewrite bool_decide_false, bool_decide_true by auto.
    + by rewrite bool_decide_true, bool_decide_false by auto.
  - intros werr w''. destruct onErr as [[]|]; [|done].
    unfold respond, writeFile_cb, call_onErr, copyFolder_onErr.
    destruct (truthy werr); reflexivity.
Qed.

(** X19.  [copyFolder] lists the source folder, and although it has an
    [onErr] of its own, the request it makes carries none.  When the
    listing fails the names are [undefined] and the callback throws a
    [TypeError]: nothing is logged and nothing is read.  When it succeeds
    one read is requested for every name, in the order listed and again
    without [onErr]; whatever Node answers to such a read, an error
    included, the content that comes back is handed to [copyFileIfDiff]
    with the path of the same suffix under the destination and the [onErr]
    of [copyFolder]. *)
Theorem listing_failure_throws_and_success_reads_every_entry source destination w :
  exists listing,
    copyFolder source destination w = (Ok tt, add_effects [listing] w)
    /\ (exists onFileContent, listing = Readdir source onFileContent None)
    /\ (forall err w', respond join listing (DirAnswer err None) w' = (Thrown TypeError, w'))
    /\ forall err names w',
         exists reads,
           respond join listing (DirAnswer err (Some names)) w'
           = (Ok tt, add_effects reads w')
           /\ length reads = length names
           /\ forall i name,
                names !! i = Some name ->
                exists read,
                  reads !! i = Some read
                  /\ (exists onFileContent,
                        read = ReadFile (join source name) onFileContent None)
                  /\ forall rerr content w'',
                       respond join read (ReadAnswer rerr content) w''
                       = copyFileIfDiff content
                           (join destination (getPathSuffix (join source name)))
                           (Some OnErr_copyFolder) w''.
Proof.
  eexists. split; [reflexivity|]. split; [by eexists|]. split; [done|].
  intros err names w'.
  exists (map (fun n => ReadFile (join source n)
                          (OnContent_copyAnyFilesWithDiff destination (Some OnErr_copyFolder))
                          None) names).
  split; [|split].
  - cbn [respond readFiles_cb]. unfold readFile. apply wforEach_effects.
  - by rewrite length_map.
  - intros i name Hi. eexists. split; [by rewrite list_lookup_fmap, Hi|].
    split; [by eexists|]. reflexivity.
Qed.

(** X20.  The start of the module.  After the greeting, every watched
    folder of [shared/] is listed twice, first for the mobile project and
    then for the web project, in the order [stores], [db], [.combust], each
    listing with the closure of [copyAnyFilesWithDiff] for its destination
    and without [onErr]; only then are the three watchers placed, on
    [./shared/stores], [./shared/db] and [./shared/.combust].  Nothing is
    read, written or copied before a listing comes back, and the debounce
    state is not touched. *)
Theorem start_lists_every_folder_twice_then_watches w :
  start join w
  = (Ok tt,
     add_effects
       ([Log "Starting file watcher"]
        ++ flat_map
             (fun dir =>
                [Readdir (join "shared/" dir)
                   (OnContent_copyAnyFilesWithDiff "./mobile/src/" (Some OnErr_copyFolder))
                   None;
                 Readdir (join "shared/" dir)
                   (OnContent_copyAnyFilesWithDiff "./web/src/" (Some OnErr_copyFolder))
                   None])
             WATCHED_DIRECTORIES
        ++ map (fun dir => Watch ("./shared/" +:+ dir)) WATCHED_DIRECTORIES) w).
Proof.
  unfold start, copyWatchedFoldersToInnerProjects, copyFolder, copyAnyFilesWithDiff,
    readFiles, watchDir, WATCHED_DIRECTORIES, wbind, effect_, add_effects.
  simpl. unfold wbind, wret. simpl. by rewrite <- !app_assoc.
Qed.

End WatcherProperties.

(** ** The further properties at concrete inputs *)

(** X1 after bob's profile has been fetched: the entry under "1" carries
    "1" as its [id]. *)
Lemma store_invariant_witness :
  exists o : object,
    heap (run quiet bob_fetched) !! 1%positive = Some o /\ o !! "id" = Some (VStr "1").
Proof.
  destruct (store_invariant_always quiet bob_fetched) as (Hn & _ & _).
  destruct (Hn (VStr "1") 1%positive) as (o & Ho & Hid & _).
  - vm_compute. reflexivity.
  - by exists o.
Defined.

(** X2 on bob's profile after the application has edited his [email]: the
    backend is handed the new [email] and [displayName] follows it. *)
Lemma save_of_cached_profile_witness :
  exists w h st',
    save_cached (VStr "1") (run_app quiet bob_edited) = (Ok tt, st')
    /\ trace st' = trace (run_app quiet bob_edited)
                   ++ [Db (SaveToUsersCollection (VStr "1") (VRef w)) h]
    /\ field (obj_at h 1%positive) "email" = VStr "robert@x.com"
    /\ field (obj_at (heap (run_app quiet bob_edited)) 1%positive) "displayName"
       = VStr "bob@x.com"
    /\ field (obj_at (heap st') 1%positive) "displayName" = VStr "robert@x.com"
    /\ usersMap st' = usersMap (run_app quiet bob_edited).
Proof.
  destruct (save_of_cached_profile_restores_it quiet bob_edited "1" 1%positive eq_refl)
    as (o & w & h & st' & Ho & E & Htr & Hh & _ & _ & _ & Hmap & _ & _ & _ & _ & _ & Hl & _).
  - vm_compute. reflexivity.
  - assert (Eo : heap (run_app quiet bob_edited) !! 1%positive
                 = Some (<["email" := VStr "robert@x.com"]> (normalized (VStr "1") (bob false))))
      by (vm_compute; reflexivity).
    assert (Es : Some o = Some (<["email" := VStr "robert@x.com"]>
                                  (normalized (VStr "1") (bob false))))
      by (etrans; [symmetry; exact Ho|exact Eo]).
    injection Es as ->.
    exists w, h, st'. split; [exact E|]. split; [exact Htr|].
    split; [by rewrite (obj_at_Some _ _ _ Hh)|].
    split; [by rewrite (obj_at_Some _ _ _ Eo)|].
    split; [by rewrite (obj_at_Some _ _ _ Hl)|exact Hmap].
Defined.

(** X4: bob logs out and a payload that reports him offline arrives; the
    two quiet hooks are called. *)
Lemma payload_after_logout_witness :
  exists st' la,
    deliver quiet (bob_payload false) (exec logout (bob_logged_in quiet)) = (Ok tt, st')
    /\ trace st' = trace (exec logout (bob_logged_in quiet))
                   ++ [Invoke 0 [VRef la]; Invoke 1 [VRef la]].
Proof.
  destruct (payload_after_logout_fires_onLogin quiet
              [CallOnLogin 0; CallOnLogin 1; CallOnLogout 0; CallOnLogout 1;
               Feed (bob_payload true)]%nat
              (UserData "1" (Some (bob false)) (Some secrets) None) (bob false) eq_refl)
    as (st' & la & seg & E & Htr & _ & Hall).
  exists st', la. split; [exact E|].
  etrans; [exact Htr|]. f_equal. etrans; [apply Hall, quiet_all_return|].
  vm_compute. reflexivity.
Defined.


(** X7 with one quiet [onLogin] hook registered and bob created online.
    When the answer comes first, the hook is never called: the only call is
    that of the callback of [createUser].  When the feed payload comes
    first, the hook is called. *)
Lemma created_user_order_witness :
  is_online (FeedData bob_created) = true
  /\ (exists st',
        deliver quiet (bob_payload true)
          (exec (deliver_created quiet 7%nat (Created bob_created))
                (run quiet [CallOnLogin 0%nat]))
        = (Ok tt, st')
        /\ exists u, trace st' = [Invoke 7 [VNull; VRef u]])
  /\ (exists st1 la,
        deliver quiet (FeedData bob_created) (run quiet [CallOnLogin 0%nat]) = (Ok tt, st1)
        /\ trace st1 = [Invoke 0 [VRef la]]).
Proof.
  split; [reflexivity|].
  destruct (onLogin_for_created_user_depends_on_order quiet [CallOnLogin 0%nat] 7%nat
              bob_created (UserData "1" (Some (bob true)) (Some secrets) None) eq_refl)
    as [(_ & (u & Htr) & st' & E & Htr') Hfeed].
  split.
  - exists st'. split; [exact E|]. exists u. rewrite Htr', Htr. reflexivity.
  - destruct (Hfeed eq_refl) as (st1 & sta & la & lp & seg & E1 & _ & Htr1 & _ & _ & _ & Hall & _).
    exists st1, la. split; [exact E1|].
    rewrite Htr1, (Hall (quiet_all_return _)). reflexivity.
Defined.

(** X8 on credentials with an empty [email]: no backend call. *)
Lemma createUser_backend_witness :
  exists l,
    trace (exec (createUser quiet (VRef 1%positive) 7%nat) empty_email)
    = [Invoke 7 [VRef l]].
Proof.
  destruct (createUser_calls_backend_iff_credentials_present quiet (VRef 1%positive) 7%nat
              empty_email) as [_ H].
  assert (R : credentials_rejected (heap empty_email) (VRef 1%positive) = true)
    by (vm_compute; reflexivity).
  rewrite R in H. destruct H as (l & _ & _ & Htr). by exists l.
Defined.

(** X10: a search with the query [undefined] over bob and alice throws. *)
Lemma search_non_string_witness :
  searchFromLocalUsersByField "email" VUndefined bob_and_alice
  = (Thrown TypeError, bob_and_alice).
Proof.
  rewrite (search_with_non_string_query "email" VUndefined bob_and_alice eq_refl).
  - f_equal.
  - discriminate.
Defined.

(** X12 on the paths the watcher sees and on a path outside [shared/]. *)
Lemma getPathSuffix_witness :
  getPathSuffix "shared/stores/UserStore.js" = "stores/UserStore.js"
  /\ getPathSuffix "./shared/db/UserDb.js" = "db/UserDb.js"
  /\ getPathSuffix "web/src/App.js" = "c/App.js".
Proof.
  destruct getPathSuffix_follows_first_shared as [Hfound Habsent].
  split; [|split].
  - apply (Hfound "" "stores/UserStore.js"). reflexivity.
  - apply (Hfound "./" "db/UserDb.js"). reflexivity.
  - apply (Habsent "web/src/App.js"). reflexivity.
Defined.

(** X13: [a.js] changes in [shared/stores], [b.js] changes in
    [shared/db], and [a.js] changes again, no timer firing: the third
    event does not repeat the input before it and is handled again. *)
Lemma interleaved_events_witness :
  length (effects (watch_step join_plain "shared/stores" (FsEvent "change" "a.js")
                     (watch_all_run join_plain
                        [("shared/stores", FsEvent "change" "a.js");
                         ("shared/db", FsEvent "change" "b.js")] watcher_start)))
  = 9%nat
  /\ watch_step join_plain "shared/db" (FsEvent "rename" "b.js")
       (watch_all_run join_plain
          [("shared/stores", FsEvent "change" "a.js");
           ("shared/db", FsEvent "change" "b.js")] watcher_start)
     = watch_all_run join_plain
         [("shared/stores", FsEvent "change" "a.js");
          ("shared/db", FsEvent "change" "b.js")] watcher_start.
Proof.
  split.
  - rewrite (event_is_dropped_iff_it_repeats_the_last_input join_plain
               [("shared/stores", FsEvent "change" "a.js");
                ("shared/db", FsEvent "change" "b.js")]
               "shared/stores" "change" "a.js" watcher_start).
    reflexivity.
  - rewrite (event_is_dropped_iff_it_repeats_the_last_input join_plain
               [("shared/stores", FsEvent "change" "a.js");
                ("shared/db", FsEvent "change" "b.js")]
               "shared/db" "rename" "b.js" watcher_start).
    reflexivity.
Defined.

(** X14: two files changing in turn are handled every time. *)
Lemma changing_paths_witness :
  length (effects (watch_run join_plain "shared/db"
                     (map (fun e => FsEvent e.1 e.2)
                          [("change", "a.js"); ("change", "b.js"); ("change", "a.js")])
                     watcher_start))
  = 9%nat.
Proof.
  rewrite (events_for_changing_paths_are_all_handled join_plain "shared/db"
             [("change", "a.js"); ("change", "b.js"); ("change", "a.js")] watcher_start).
  - reflexivity.
  - cbn. repeat split; discriminate.
Defined.

(** X15: a.js changes, b.js changes, one timer fires, b.js changes again
    and is handled again. *)
Lemma first_timer_witness :
  length (effects (watch_run join_plain "shared/db"
                     [FsEvent "change" "a.js"; FsEvent "change" "b.js"; TimerFires;
                      FsEvent "change" "b.js"] watcher_start))
  = 9%nat.
Proof.
  rewrite (first_timer_reopens_the_window join_plain "shared/db"
             "change" "a.js" "change" "b.js" "change" watcher_start).
  - reflexivity.
  - discriminate.
  - discriminate.
Defined.

(** X16: a change of [shared/stores/a.js]. *)
Lemma change_witness :
  handleFileEvent "change" "shared/stores/a.js" watcher_start
  = (Ok tt,
     add_effects
       [SetTimeout (CopyFileTask "./shared/stores/a.js" "./mobile/src/stores/a.js") 50;
        SetTimeout (CopyFileTask "./shared/stores/a.js" "./web/src/stores/a.js") 50]
       watcher_start).
Proof.
  destruct (change_is_mirrored_to_both_projects "" "stores/a.js" watcher_start watcher_start
              eq_refl) as [H _].
  exact H.
Defined.

(** X17: [shared/stores/a.js] was renamed away: [fs.access] reports an
    error and both mirrors are unlinked. *)
Lemma rename_witness :
  fileExists_cb (handleFileRename_cb "shared/stores/a.js") (VStr "ENOENT") watcher_start
  = (Ok tt,
     add_effects [Unlink "./mobile/src/stores/a.js"; Unlink "./web/src/stores/a.js"]
       watcher_start).
Proof.
  destruct (rename_mirrors_or_unlinks "" "stores/a.js" (VStr "ENOENT")
              watcher_start watcher_start eq_refl) as [_ H].
  exact H.
Defined.

(** X11: bob's [email] is edited and saved; a search for the new address
    finds him by [displayName] as it does by [email]. *)
Lemma search_after_edit_and_save_witness :
  stale (bob_edited ++ [Store (CallSave "1")]) = []
  /\ searchFromLocalUsersByField "displayName" (VStr "ROBERT")
       (run_app quiet (bob_edited ++ [Store (CallSave "1")]))
     = searchFromLocalUsersByField "email" (VStr "ROBERT")
         (run_app quiet (bob_edited ++ [Store (CallSave "1")])).
Proof.
  split; [reflexivity|].
  destruct (search_by_displayName_is_search_by_email quiet
              (bob_edited ++ [Store (CallSave "1")]) "ROBERT" eq_refl)
    as (by_name & by_email & -> & -> & _ & H).
  by rewrite (H eq_refl).
Defined.

(** Without the [save] bob is stale, and the two searches differ: he is
    found by [email] only. *)
Example stale_profile_is_found_by_email_only :
  stale bob_edited = ["1"]
  /\ (searchFromLocalUsersByField "displayName" (VStr "ROBERT") (run_app quiet bob_edited)).1
     = Ok []
  /\ (searchFromLocalUsersByField "email" (VStr "ROBERT") (run_app quiet bob_edited)).1
     = Ok [VRef 1%positive].
Proof. repeat split; vm_compute; reflexivity. Qed.
